(** * useCryptoPriceV2: a shallow embedding of the price-aggregation hook

    Source: [src/hooks/useCryptoPriceV2.js].

    Conventions of the embedding.
    - A finite JavaScript number is the rational it denotes ([Q]); sums and
      quotients are rounded to binary64 as IEEE-754 prescribes ([double]).
      [NaN], the infinities and [null] are kept through the type [number];
      the sign of zero is not.
    - Epoch-millisecond timestamps are integers ([Z]).
    - A JavaScript object used as a map with string keys is an association
      list in insertion order, which is the order [Object.entries] and
      [Object.keys] enumerate (no key of the program is an array index).
    - An [async] function is the function of the outcomes of the requests it
      awaits; it returns its own outcome together with the trace of the calls
      and sleeps it performed.
    - A thrown value is kept as data ([thrown]); [try]/[catch] is a match on
      a sum. *)

From Stdlib Require Import ZArith QArith Qround List String Ascii Bool Lia.
From Stdlib Require Import Permutation Sorted DecimalString DecimalZ DecimalPos.
From Stdlib Require Import OrderedTypeEx Lqa.
Import ListNotations.

Local Open Scope string_scope.
Local Open Scope Z_scope.

(** ** Thrown values and outcomes of awaited promises *)

Inductive thrown : Type :=
| Undefined
| Error (message : string).

(** How a synchronous block completes. *)
Inductive completion (A : Type) : Type :=
| Normal (value : A)
| Throw (reason : thrown).
Arguments Normal {A} value.
Arguments Throw {A} reason.

(** How an awaited promise settles. *)
Inductive outcome (A : Type) : Type :=
| Fulfilled (value : A)
| Rejected (reason : thrown).
Arguments Fulfilled {A} value.
Arguments Rejected {A} reason.

(** ** Numbers *)

(** The values of the numeric fields of the program: a Number, or [null]
    (a JSON [null], which is also what [JSON.stringify] writes for [NaN] and
    the infinities).  [undefined], where a field is read as a number, is
    [NaN]. *)
Inductive number : Type :=
| NaN
| Infinity
| NegInfinity
| Null
| Num (q : Q).

(** ToNumber *)
Definition toNumber (x : number) : number :=
  match x with
  | Null => Num 0
  | _ => x
  end.

(** [Math.round]: the nearest integer, ties towards +infinity. *)
Definition Math_round_Q (x : Q) : Z := Qfloor (x + (1 # 2)).

Definition Math_round (x : number) : number :=
  match toNumber x with
  | Num q => Num (inject_Z (Math_round_Q q))
  | other => other
  end.

(** ToBoolean on a number or [null]: [null], [NaN] and zero are falsy. *)
Definition truthy_number (x : number) : bool :=
  match x with
  | NaN | Null => false
  | Infinity | NegInfinity => true
  | Num q => negb (Qeq_bool q 0)
  end.

(** The integer nearest to [n / d], ties to the even one. *)
Definition roundHalfEven (n : Z) (d : positive) : Z :=
  let f := n / Z.pos d in
  match 2 * (n mod Z.pos d) ?= Z.pos d with
  | Lt => f
  | Gt => f + 1
  | Eq => if Z.even f then f else f + 1
  end.

(** [floor (log2 (n / d))] for [n > 0]. *)
Definition log2_floor (n : Z) (d : positive) : Z :=
  let e := Z.log2 n - Z.log2 (Z.pos d) in
  if (if 0 <=? e then n <? Z.pos d * 2 ^ e else n * 2 ^ (- e) <? Z.pos d)
  then e - 1 else e.

(** The Number nearest to a rational: binary64, round to nearest, ties to
    even; 53 significant bits, least exponent -1074, overflow from 2^1024. *)
Definition double (q : Q) : number :=
  let n := Qnum q in
  let d := Qden q in
  if n =? 0 then Num 0
  else
    let k := Z.max (log2_floor (Z.abs n) d - 52) (-1074) in
    let m :=
      if 0 <=? k then roundHalfEven n (d * Z.to_pos (2 ^ k))
      else roundHalfEven (n * 2 ^ (- k)) d in
    if 0 <=? k then
      if 2 ^ 1024 <=? Z.abs m * 2 ^ k
      then (if 0 <? n then Infinity else NegInfinity)
      else Num (inject_Z (m * 2 ^ k))
    else Num (Qred (m # Z.to_pos (2 ^ (- k)))).

(** [x + y] on numbers *)
Definition number_add (x y : number) : number :=
  match toNumber x, toNumber y with
  | Num a, Num b => double (a + b)
  | Infinity, NegInfinity | NegInfinity, Infinity => NaN
  | NaN, _ | _, NaN => NaN
  | Infinity, _ | _, Infinity => Infinity
  | _, _ => NegInfinity
  end.

(** [x / count] for an integer [count] *)
Definition number_div (x : number) (count : Z) : number :=
  match toNumber x with
  | Num a =>
      if count =? 0 then
        match Qnum a ?= 0 with
        | Eq => NaN
        | Gt => Infinity
        | Lt => NegInfinity
        end
      else double (a / inject_Z count)
  | Infinity => if 0 <=? count then Infinity else NegInfinity
  | NegInfinity => if 0 <=? count then NegInfinity else Infinity
  | other => other
  end.

(** ** Configuration constants *)

Definition CACHE_TTL : Z := 60 * 1000.
Definition REQUEST_TIMEOUT : Z := 5000.
Definition MAX_RETRIES : nat := 3.
Definition RETRY_DELAYS : list Z := [1000; 2000; 4000].

(** ** Objects as insertion-ordered association lists *)

Section Objects.
Context {V : Type}.

(** [o[k]] *)
Fixpoint obj_get (o : list (string * V)) (k : string) : option V :=
  match o with
  | [] => None
  | (k', v) :: o' => if String.eqb k' k then Some v else obj_get o' k
  end.

(** [o[k] = v]: an existing key keeps its position, a new key is appended. *)
Fixpoint obj_set (o : list (string * V)) (k : string) (v : V)
  : list (string * V) :=
  match o with
  | [] => [(k, v)]
  | (k', v') :: o' =>
      if String.eqb k' k then (k', v) :: o' else (k', v') :: obj_set o' k v
  end.

Definition Object_keys (o : list (string * V)) : list string := map fst o.
End Objects.

(** ** [Array.prototype.sort] with a comparator

    The sort is stable; for a comparator that is a total preorder the result
    is the one of a stable insertion sort. *)

Section ArraySort.
Context {A : Type} (cmp : A -> A -> comparison).

Fixpoint sort_insert (x : A) (l : list A) : list A :=
  match l with
  | [] => [x]
  | y :: l' =>
      match cmp x y with
      | Gt => y :: sort_insert x l'
      | _ => x :: y :: l'
      end
  end.

Fixpoint Array_sort (l : list A) : list A :=
  match l with
  | [] => []
  | x :: l' => sort_insert x (Array_sort l')
  end.
End ArraySort.

(** [a.localeCompare(b)] on the strings of the program (ASCII digits, [-]
    and [NaN]): the order of the code units. *)
Definition localeCompare (a b : string) : comparison := String.compare a b.

(** [array.pop()] after reading: the last element. *)
Definition Array_last {A : Type} (l : list A) : option A :=
  match rev l with
  | [] => None
  | x :: _ => Some x
  end.

(** ** Dates (ECMA-262, 21.4.1) *)

Definition msPerDay : Z := 86400000.
Definition maxTimeValue : Z := 8640000000000000.

Definition Day (t : Z) : Z := t / msPerDay.

Definition DayFromYear (y : Z) : Z :=
  365 * (y - 1970) + (y - 1969) / 4 - (y - 1901) / 100 + (y - 1601) / 400.

Definition DaysInYear (y : Z) : Z :=
  if negb (y mod 4 =? 0) then 365
  else if negb (y mod 100 =? 0) then 366
  else if negb (y mod 400 =? 0) then 365
  else 366.

(** The largest [y] with [DayFromYear y <= Day t]: an estimate from the mean
    year length, corrected by one. *)
Definition YearFromDay (d : Z) : Z :=
  let y := 1970 + (d * 400) / 146097 in
  if d <? DayFromYear y then y - 1
  else if DayFromYear (y + 1) <=? d then y + 1
  else y.

Definition YearFromTime (t : Z) : Z := YearFromDay (Day t).

Definition InLeapYear (t : Z) : Z :=
  if DaysInYear (YearFromTime t) =? 366 then 1 else 0.

Definition DayWithinYear (t : Z) : Z := Day t - DayFromYear (YearFromTime t).

Definition MonthFromTime (t : Z) : Z :=
  let d := DayWithinYear t in
  let leap := InLeapYear t in
  if d <? 31 then 0
  else if d <? 59 + leap then 1
  else if d <? 90 + leap then 2
  else if d <? 120 + leap then 3
  else if d <? 151 + leap then 4
  else if d <? 181 + leap then 5
  else if d <? 212 + leap then 6
  else if d <? 243 + leap then 7
  else if d <? 273 + leap then 8
  else if d <? 304 + leap then 9
  else if d <? 334 + leap then 10
  else 11.

(** [new Date(timestamp)]: a time value, or an invalid date outside the
    range of TimeClip. *)
Definition new_Date (timestamp : Z) : option Z :=
  if Z.abs timestamp <=? maxTimeValue then Some timestamp else None.

(** [String(n)] for an integer-valued number, [None] standing for [NaN]. *)
Definition String_of_int (n : option Z) : string :=
  match n with
  | None => "NaN"
  | Some z => NilZero.string_of_int (Z.to_int z)
  end.

Fixpoint repeat_char (c : ascii) (n : nat) : string :=
  match n with
  | O => EmptyString
  | S n' => String c (repeat_char c n')
  end.

(** [s.padStart(targetLength, c)] with a one-character filler. *)
Definition padStart (targetLength : nat) (c : ascii) (s : string) : string :=
  repeat_char c (targetLength - String.length s) ++ s.

Section LocalTime.
(** The offset of local time at a UTC time value, in milliseconds. *)
Variable LocalTZA : Z -> Z.

Definition LocalTime (t : Z) : Z := t + LocalTZA t.

Definition getFullYear (date : option Z) : option Z :=
  option_map (fun t => YearFromTime (LocalTime t)) date.

Definition getMonth (date : option Z) : option Z :=
  option_map (fun t => MonthFromTime (LocalTime t)) date.

(** [`${date.getFullYear()}-${String(date.getMonth() + 1).padStart(2, '0')}`]
    for a date, [None] being an invalid one. *)
Definition dateKey (date : option Z) : string :=
  String_of_int (getFullYear date) ++ "-"
    ++ padStart 2 "0" (String_of_int (option_map (fun m => m + 1) (getMonth date))).

(** The key of [new Date(timestamp)]. *)
Definition monthKey (timestamp : Z) : string := dateKey (new_Date timestamp).
End LocalTime.

(** ** Monthly bucketing (fetchPriceData, lines 356-374) *)

(** [{ sum, count }]: the sum is a Number, the count an integer below 2^53,
    on which [++] is exact. *)
Record bucket : Type := { sum : number; count : Z }.

Record PricePoint : Type := { month : string; price : number }.

(** An element of [historyData.prices], as the callback
    [([timestamp, price]) => ...] and lines 382-394 read it.
    - [Sample timestamp price] is an array.  [timestamp] is the time value
      its first element gives to [new Date]: the element when it is an
      integer, its integer part when it is not, 0 for [null] and [false], 1
      for [true], and a number out of the range of TimeClip when the date is
      invalid ([undefined], [NaN], an infinity).  [price] is its second
      element as [+=] and [Math.round] read it: the number, [Null] for
      [null], [NaN] for [undefined], 0 and 1 for the booleans.
    - [EmptyText] is the empty string: it destructures into two
      [undefined] and is falsy.
    - [NotIterable] is [null], a boolean, a number or an object: the
      parameter pattern throws on it.
    A string with characters, and an array whose timestamp or price is a
    string, an array or an object, are outside the model: [Date.parse]
    decides their date and [+=] concatenates their price. *)
Inductive entry : Type :=
| Sample (timestamp : Z) (price : number)
| EmptyText
| NotIterable.

Fixpoint forEach {S E : Type} (f : S -> E -> completion S) (l : list E) (s : S)
  : completion S :=
  match l with
  | [] => Normal s
  | e :: l' =>
      match f s e with
      | Normal s' => forEach f l' s'
      | Throw r => Throw r
      end
  end.

Definition comparePoints (a b : PricePoint) : comparison :=
  localeCompare (month a) (month b).

Definition toPricePoint (e : string * bucket) : PricePoint :=
  let '(month, data) := e in
  {| month := month;
     price := Math_round (number_div (sum data) (count data)) |}.

Section Bucketing.
Variable LocalTZA : Z -> Z.

(** [([timestamp, price])] and the month key of the callback: the key and
    the price of an element, [None] when it cannot be destructured. *)
Definition keyAndPrice (e : entry) : option (string * number) :=
  match e with
  | Sample timestamp price => Some (monthKey LocalTZA timestamp, price)
  | EmptyText => Some (dateKey LocalTZA None, NaN)
  | NotIterable => None
  end.

(** The body of the [forEach] callback. *)
Definition accumulate (monthlyPrices : list (string * bucket)) (e : entry)
  : completion (list (string * bucket)) :=
  match keyAndPrice e with
  | None => Throw (Error "TypeError: undefined is not iterable")
  | Some (key, price) =>
      let monthlyPrices :=
        match obj_get monthlyPrices key with
        | None => obj_set monthlyPrices key {| sum := Num 0; count := 0 |}
        | Some _ => monthlyPrices
        end in
      match obj_get monthlyPrices key with
      | Some b =>
          Normal (obj_set monthlyPrices key
                    {| sum := number_add (sum b) price; count := count b + 1 |})
      | None => Throw (Error "TypeError: cannot read properties of undefined")
      end
  end.

Definition monthlyBuckets (prices : list entry)
  : completion (list (string * bucket)) :=
  forEach accumulate prices [].

(** [processed]: the entries mapped to points and sorted by month. *)
Definition toProcessed (monthlyPrices : list (string * bucket))
  : list PricePoint :=
  Array_sort comparePoints (map toPricePoint monthlyPrices).

Definition monthlyAverages (prices : list entry)
  : completion (list PricePoint) :=
  match monthlyBuckets prices with
  | Normal monthlyPrices => Normal (toProcessed monthlyPrices)
  | Throw r => Throw r
  end.
End Bucketing.

Definition UTC : Z -> Z := fun _ => 0.

(** ** Vocabulary of the bucketing statements *)

Section BucketingSpec.
Variable LocalTZA : Z -> Z.

(** The prices of the samples that fall in month [k], in input order. *)
Definition pricesOfMonth (k : string) (samples : list (Z * number)) : list number :=
  map snd (filter (fun s => String.eqb (monthKey LocalTZA (fst s)) k) samples).
End BucketingSpec.

(** The sum of a list of prices as the loop computes it: from 0, in the
    order of the list, each addition rounded. *)
Definition floatSum (l : list number) : number := fold_left number_add l (Num 0).

(** The mean as line 372 computes it. *)
Definition floatMean (l : list number) : number :=
  number_div (floatSum l) (Z.of_nat (List.length l)).

(** The exact sum and mean of rationals. *)
Definition total (l : list Q) : Q := fold_left Qplus l 0%Q.

Definition mean (l : list Q) : Q := (total l / inject_Z (Z.of_nat (List.length l)))%Q.

Definition toEntry (s : Z * number) : entry := Sample (fst s) (snd s).

(** The bucket the loop holds for a month whose prices so far are [l]. *)
Definition bucketOf (l : list number) : option bucket :=
  match l with
  | [] => None
  | _ => Some {| sum := floatSum l; count := Z.of_nat (List.length l) |}
  end.

(** ** Traces of the effects of an [async] function *)

Inductive event : Type :=
| Attempt (apiName : string) (attempt : nat)   (* [fetchFn()] in fetchWithRetry *)
| Sleep (delay : option Z)                     (* [sleep(delay)] *)
| Request (url : string).                      (* [fetch(url, ...)] in the race *)

Definition trace : Type := list event.

(** ** fetchWithRetry (lines 72-98)

    [fetchFn attempt] is how the promise of the call made at iteration
    [attempt] settles; [truthy] is ToBoolean on its results.  The loop
    [for (attempt = 0; attempt <= MAX_RETRIES; attempt++)] runs on the
    number [remaining = MAX_RETRIES + 1 - attempt] of iterations left. *)

Section Retry.
Context {A : Type}.
Variable truthy : A -> bool.
Variable fetchFn : nat -> outcome A.
Variable apiName : string.

Fixpoint retryLoop (remaining attempt : nat) (lastError : thrown)
  : trace * outcome A :=
  match remaining with
  | O => ([], Rejected lastError)
  | S remaining' =>
      match fetchFn attempt with
      | Fulfilled result =>
          if truthy result then ([Attempt apiName attempt], Fulfilled result)
          else
            let '(tr, r) := retryLoop remaining' (S attempt) lastError in
            (Attempt apiName attempt :: tr, r)
      | Rejected Undefined =>
          (* [error.message] in the handler throws *)
          ([Attempt apiName attempt],
           Rejected (Error "TypeError: Cannot read properties of undefined"))
      | Rejected error =>
          let slept :=
            if (attempt <? MAX_RETRIES)%nat
            then [Sleep (nth_error RETRY_DELAYS attempt)]
            else [] in
          let '(tr, r) := retryLoop remaining' (S attempt) error in
          ((Attempt apiName attempt :: slept) ++ tr, r)%list
      end
  end.

Definition fetchWithRetry : trace * outcome A :=
  retryLoop (MAX_RETRIES + 1) 0 Undefined.
End Retry.

(** ** The network *)

(** What a request meets: no answer at all, or a response after [latency]
    milliseconds whose body [json()] parses or not. *)
Inductive reply (B : Type) : Type :=
| NetworkError (message : string)
| Responded (latency : Z) (ok : bool) (status : Z) (body : option B).
Arguments NetworkError {B} message.
Arguments Responded {B} latency ok status body.

Record Response (B : Type) : Type :=
  { ok : bool; status : Z; body : option B }.
Arguments ok {B} r.
Arguments status {B} r.
Arguments body {B} r.

(** [fetch(url, { signal: AbortSignal.timeout(timeout) })] *)
Definition fetch {B : Type} (timeout : Z) (r : reply B) : outcome (Response B) :=
  match r with
  | NetworkError message => Rejected (Error message)
  | Responded latency ok status body =>
      if latency <? timeout
      then Fulfilled {| ok := ok; status := status; body := body |}
      else Rejected (Error "TimeoutError: signal timed out")
  end.

(** [response.json()]: the parsed body, or a rejection when it is not JSON. *)
Definition json {B : Type} (response : Response B) : outcome B :=
  match body response with
  | Some data => Fulfilled data
  | None => Rejected (Error "SyntaxError: Unexpected token in JSON")
  end.

(** ** fetchWithProxyRace (lines 100-118) *)

Definition CORS_PROXIES : list string :=
  [ "https://corsproxy.io/?";
    "https://api.allorigins.win/raw?url=";
    "https://api.codetabs.com/v1/proxy?quest=" ].

Definition COINGECKO_API : string := "https://api.coingecko.com/api/v3".

Definition includes (s sub : string) : bool :=
  match String.index 0 sub s with
  | Some _ => true
  | None => false
  end.

(** [Promise.any] over promises listed in the order in which they settle. *)
Fixpoint Promise_any {A : Type} (settled : list (outcome A)) : outcome A :=
  match settled with
  | [] => Rejected (Error "AggregateError: All promises were rejected")
  | Fulfilled v :: _ => Fulfilled v
  | Rejected _ :: rest => Promise_any rest
  end.

(** The promises at the indices [order], the order of settlement. *)
Definition inSettlementOrder {A : Type} (order : list nat) (promises : list A)
  : list A :=
  flat_map (fun i => match nth_error promises i with
                     | Some p => [p]
                     | None => []
                     end) order.

Section ProxyRace.
Context {B : Type}.
Variable encodeURIComponent : string -> string.
(** The reply each relay URL meets. *)
Variable relays : string -> reply B.
(** The order in which the relay promises settle. *)
Variable order : list nat.

Definition proxyUrlOf (proxy url : string) : string :=
  if includes proxy "?" then proxy ++ encodeURIComponent url else proxy ++ url.

(** The body of the [async (proxy) => ...] mapped over [CORS_PROXIES]. *)
Definition relayFetch (url : string) (timeout : Z) (proxy : string) : outcome B :=
  match fetch timeout (relays (proxyUrlOf proxy url)) with
  | Rejected e => Rejected e
  | Fulfilled response =>
      if negb (ok response) then Rejected (Error "Response not ok")
      else json response
  end.

Definition fetchWithProxyRace (url : string) (timeout : Z) : trace * outcome B :=
  let fetchPromises := map (relayFetch url timeout) CORS_PROXIES in
  (map (fun proxy => Request (proxyUrlOf proxy url)) CORS_PROXIES,
   Promise_any (inSettlementOrder order fetchPromises)).
End ProxyRace.

(** ** Provider adapters (lines 120-181)

    A payload is kept after [parseFloat]: a field holds the number
    [parseFloat] reads from it, [NaN] when there is none.  An absent object
    on the access path is [None]. *)

Module CurrentPrice.
Record t : Type :=
  { price : number; change24h : option number; source : option string }.
End CurrentPrice.

Module CoinCap.
(** [data.data] *)
Record data : Type := { priceUsd : number; changePercent24Hr : number }.
End CoinCap.

Module Binance.
Record data : Type := { price : number }.
End Binance.

Module Kraken.
(** [parseFloat(tickerData.c[0])] for each ticker present in [data.result] *)
Record tickers : Type := { XXBTZUSD : option number; XBTUSD : option number }.
Record data : Type := { error : list string; result : option tickers }.
End Kraken.

Module CryptoCompare.
Record data : Type := { USD : number }.
End CryptoCompare.

Module CoinGecko.
(** [data[coin]] of the simple-price endpoint *)
Record quote : Type := { usd : number; usd_24h_change : option number }.
(** The market-chart endpoint: [data.prices] *)
Record chart : Type := { prices : option (list entry) }.
End CoinGecko.

Definition TypeError : thrown := Error "TypeError: Cannot read properties of undefined".

Definition apiError (api : string) (response_status : Z) : thrown :=
  Error (api ++ " API error: " ++ String_of_int (Some response_status)).

Definition fetchFromCoinCap (r : reply (option CoinCap.data))
  : outcome CurrentPrice.t :=
  match fetch REQUEST_TIMEOUT r with
  | Rejected e => Rejected e
  | Fulfilled response =>
      if negb (ok response) then Rejected (apiError "CoinCap" (status response))
      else
        match json response with
        | Rejected e => Rejected e
        | Fulfilled None => Rejected TypeError
        | Fulfilled (Some d) =>
            Fulfilled
              {| CurrentPrice.price := Math_round (CoinCap.priceUsd d);
                 CurrentPrice.change24h := Some (CoinCap.changePercent24Hr d);
                 CurrentPrice.source := Some "coincap" |}
        end
  end.

Definition fetchFromBinance (r : reply Binance.data) : outcome CurrentPrice.t :=
  match fetch REQUEST_TIMEOUT r with
  | Rejected e => Rejected e
  | Fulfilled response =>
      if negb (ok response) then Rejected (apiError "Binance" (status response))
      else
        match json response with
        | Rejected e => Rejected e
        | Fulfilled data =>
            Fulfilled
              {| CurrentPrice.price := Math_round (Binance.price data);
                 CurrentPrice.change24h := None;
                 CurrentPrice.source := Some "binance" |}
        end
  end.

Definition fetchFromKraken (r : reply Kraken.data) : outcome CurrentPrice.t :=
  match fetch REQUEST_TIMEOUT r with
  | Rejected e => Rejected e
  | Fulfilled response =>
      if negb (ok response) then Rejected (apiError "Kraken" (status response))
      else
        match json response with
        | Rejected e => Rejected e
        | Fulfilled data =>
            if (0 <? List.length (Kraken.error data))%nat
            then Rejected (Error ("Kraken API error: "
                                    ++ String.concat ", " (Kraken.error data)))
            else
              match Kraken.result data with
              | None => Rejected TypeError
              | Some result =>
                  let tickerData :=
                    match Kraken.XXBTZUSD result with
                    | Some t => Some t
                    | None => Kraken.XBTUSD result
                    end in
                  match tickerData with
                  | None => Rejected (Error "Kraken: No ticker data found")
                  | Some c0 =>
                      Fulfilled
                        {| CurrentPrice.price := Math_round c0;
                           CurrentPrice.change24h := None;
                           CurrentPrice.source := Some "kraken" |}
                  end
              end
        end
  end.

Definition fetchFromCryptoCompare (r : reply CryptoCompare.data)
  : outcome CurrentPrice.t :=
  match fetch REQUEST_TIMEOUT r with
  | Rejected e => Rejected e
  | Fulfilled response =>
      if negb (ok response)
      then Rejected (apiError "CryptoCompare" (status response))
      else
        match json response with
        | Rejected e => Rejected e
        | Fulfilled data =>
            if negb (truthy_number (CryptoCompare.USD data))
            then Rejected (Error "CryptoCompare: No USD price found")
            else
              Fulfilled
                {| CurrentPrice.price := Math_round (CryptoCompare.USD data);
                   CurrentPrice.change24h := None;
                   CurrentPrice.source := Some "cryptocompare" |}
        end
  end.

(** ** The network a cycle meets *)

Record network : Type :=
  { (** the reply to the request of attempt [n], per provider *)
    coincap : nat -> reply (option CoinCap.data);
    binance : nat -> reply Binance.data;
    kraken : nat -> reply Kraken.data;
    cryptocompare : nat -> reply CryptoCompare.data;
    (** the replies of the relays, by relay URL, and the order in which the
        relay promises settle *)
    priceRelays : string -> reply (list (string * CoinGecko.quote));
    priceOrder : list nat;
    chartRelays : string -> reply CoinGecko.chart;
    chartOrder : list nat }.

(** ToBoolean on a result object. *)
Definition isObject {A : Type} (_ : A) : bool := true.

(** [if (result?.price) return result], and the empty [catch]. *)
Definition accepted (r : outcome CurrentPrice.t) : option CurrentPrice.t :=
  match r with
  | Fulfilled result =>
      if truthy_number (CurrentPrice.price result) then Some result else None
  | Rejected _ => None
  end.

Section Resolver.
Variable encodeURIComponent : string -> string.
Variable coin : string.
Variable days : Z.

Definition priceUrl : string :=
  COINGECKO_API ++ "/simple/price?ids=" ++ coin
    ++ "&vs_currencies=usd&include_24hr_change=true".

Definition apiUrl : string :=
  COINGECKO_API ++ "/coins/" ++ coin ++ "/market_chart?vs_currency=usd&days="
    ++ String_of_int (Some days) ++ "&interval=daily".

(** fetchCurrentPrice (lines 239-304) *)
Definition fetchCurrentPrice (net : network)
  : trace * outcome (option CurrentPrice.t) :=
  let '(tr1, r1) :=
    fetchWithRetry isObject (fun n => fetchFromCoinCap (coincap net n)) "CoinCap" in
  match accepted r1 with
  | Some result => (tr1, Fulfilled (Some result))
  | None =>
  let '(tr2, r2) :=
    fetchWithRetry isObject (fun n => fetchFromBinance (binance net n)) "Binance" in
  match accepted r2 with
  | Some result => (tr1 ++ tr2, Fulfilled (Some result))%list
  | None =>
  let '(tr3, r3) :=
    fetchWithRetry isObject (fun n => fetchFromKraken (kraken net n)) "Kraken" in
  match accepted r3 with
  | Some result => (tr1 ++ tr2 ++ tr3, Fulfilled (Some result))%list
  | None =>
  let '(tr4, r4) :=
    fetchWithRetry isObject
      (fun n => fetchFromCryptoCompare (cryptocompare net n)) "CryptoCompare" in
  match accepted r4 with
  | Some result => (tr1 ++ tr2 ++ tr3 ++ tr4, Fulfilled (Some result))%list
  | None =>
  let '(tr5, r5) :=
    fetchWithProxyRace encodeURIComponent (priceRelays net) (priceOrder net)
      priceUrl REQUEST_TIMEOUT in
  let result :=
    match r5 with
    | Fulfilled data =>
        match obj_get data coin with
        | Some quote =>
            Some {| CurrentPrice.price := Math_round (CoinGecko.usd quote);
                    CurrentPrice.change24h := CoinGecko.usd_24h_change quote;
                    CurrentPrice.source := Some "coingecko" |}
        | None => None
        end
    | Rejected _ => None
    end in
  (tr1 ++ tr2 ++ tr3 ++ tr4 ++ tr5, Fulfilled result)%list
  end end end end.

(** fetchHistoricalData (lines 307-321) *)
Definition fetchHistoricalData (net : network)
  : trace * outcome (option (list entry)) :=
  let '(tr, r) :=
    fetchWithProxyRace encodeURIComponent (chartRelays net) (chartOrder net)
      apiUrl 8000 in
  let result :=
    match r with
    | Fulfilled data =>
        match CoinGecko.prices data with
        | Some prices => if (0 <? List.length prices)%nat then Some prices else None
        | None => None
        end
    | Rejected _ => None
    end in
  (tr, Fulfilled result).
End Resolver.

(** ** The static fallback table (lines 28-66) *)

Definition FALLBACK_PRICES : list (string * Z) :=
  [ ("2019-01", 3600); ("2019-02", 3800); ("2019-03", 4000); ("2019-04", 5200);
    ("2019-05", 7500); ("2019-06", 10800); ("2019-07", 10500); ("2019-08", 10200);
    ("2019-09", 8500); ("2019-10", 8300); ("2019-11", 7500); ("2019-12", 7200);
    ("2020-01", 8500); ("2020-02", 9500); ("2020-03", 6500); ("2020-04", 7500);
    ("2020-05", 9000); ("2020-06", 9300); ("2020-07", 9800); ("2020-08", 11500);
    ("2020-09", 10700); ("2020-10", 13000); ("2020-11", 17500); ("2020-12", 24000);
    ("2021-01", 34000); ("2021-02", 46000); ("2021-03", 55000); ("2021-04", 57000);
    ("2021-05", 40000); ("2021-06", 35000); ("2021-07", 33000); ("2021-08", 44000);
    ("2021-09", 45000); ("2021-10", 55000); ("2021-11", 60000); ("2021-12", 48000);
    ("2022-01", 41500); ("2022-02", 39500); ("2022-03", 44000); ("2022-04", 40000);
    ("2022-05", 31500); ("2022-06", 21500); ("2022-07", 22500); ("2022-08", 21500);
    ("2022-09", 19500); ("2022-10", 20500); ("2022-11", 17000); ("2022-12", 16800);
    ("2023-01", 21500); ("2023-02", 23500); ("2023-03", 28000); ("2023-04", 29500);
    ("2023-05", 27500); ("2023-06", 30500); ("2023-07", 29500); ("2023-08", 26000);
    ("2023-09", 27000); ("2023-10", 34500); ("2023-11", 37500); ("2023-12", 42500);
    ("2024-01", 43000); ("2024-02", 52000); ("2024-03", 70000); ("2024-04", 65000);
    ("2024-05", 67000); ("2024-06", 62000); ("2024-07", 66000); ("2024-08", 59000);
    ("2024-09", 63000); ("2024-10", 68000); ("2024-11", 90000); ("2024-12", 97000);
    ("2025-01", 102000); ("2025-02", 96000); ("2025-03", 82000); ("2025-04", 84000);
    ("2025-05", 103000); ("2025-06", 106000); ("2025-07", 97000); ("2025-08", 59000);
    ("2025-09", 63000); ("2025-10", 69000); ("2025-11", 96000); ("2025-12", 94000);
    ("2026-01", 95000);
    ("2026-02", 71000) ].

Definition FALLBACK_ARRAY : list PricePoint :=
  Array_sort comparePoints
    (map (fun '(month, price) => {| month := month; price := Num (inject_Z price) |})
       FALLBACK_PRICES).

(** [Object.keys(FALLBACK_PRICES).sort().pop()]: the default sort compares
    code units. *)
Definition latestMonth : option string :=
  Array_last (Array_sort String.compare (Object_keys FALLBACK_PRICES)).

(** [FALLBACK_PRICES[latestMonth]]; a missing entry reads as [NaN]. *)
Definition fallbackPrice : number :=
  match latestMonth with
  | Some k =>
      match obj_get FALLBACK_PRICES k with
      | Some v => Num (inject_Z v)
      | None => NaN
      end
  | None => NaN
  end.

(** ** The cache (lines 183-213) *)

Module Cache.
(** [{ priceData, currentPrice }] *)
Record snapshot : Type :=
  { priceData : list PricePoint; currentPrice : CurrentPrice.t }.
(** [{ data, timestamp }] *)
Record record : Type := { data : snapshot; timestamp : Z }.
End Cache.

(** The string stored under [CACHE_KEY], read through [JSON.parse]:
    [JSON.stringify] followed by [JSON.parse] gives the record back. *)
Inductive item : Type :=
| Unparseable (text : string)
| Json (r : Cache.record).

Record Storage : Type :=
  { content : option item;   (** the item under [CACHE_KEY] *)
    blocked : bool;          (** [getItem] throws *)
    full : bool }.           (** [setItem] throws *)

Definition getItem (localStorage : Storage) : completion (option item) :=
  if blocked localStorage then Throw (Error "SecurityError")
  else Normal (content localStorage).

Definition setItem (localStorage : Storage) (v : item) : completion Storage :=
  if full localStorage then Throw (Error "QuotaExceededError")
  else Normal {| content := Some v;
                 blocked := blocked localStorage;
                 full := full localStorage |}.

Definition JSON_parse (cached : item) : completion Cache.record :=
  match cached with
  | Unparseable _ => Throw (Error "SyntaxError")
  | Json r => Normal r
  end.

(** loadFromCache: the storage after the call and how the call completes. *)
Definition loadFromCache (localStorage : Storage) (now : Z)
  : Storage * completion (option Cache.snapshot) :=
  let tried :=
    match getItem localStorage with
    | Throw e => Throw e
    | Normal None => Normal None
    | Normal (Some cached) =>
        match JSON_parse cached with
        | Throw e => Throw e
        | Normal r =>
            if now - Cache.timestamp r <? CACHE_TTL
            then Normal (Some (Cache.data r))
            else Normal None
        end
    end in
  (localStorage,
   match tried with
   | Normal r => Normal r
   | Throw _ => Normal None
   end).

(** [JSON.parse(JSON.stringify(x))] on a number: [NaN] and the infinities
    are written as [null]; a finite number is read back as written. *)
Definition JSON_number (x : number) : number :=
  match x with
  | NaN | Infinity | NegInfinity => Null
  | _ => x
  end.

(** The same on a field where [None] is [null] or an absent key. *)
Definition JSON_optional (x : option number) : option number :=
  match x with
  | Some x =>
      match JSON_number x with
      | Null => None
      | y => Some y
      end
  | None => None
  end.

Definition JSON_point (point : PricePoint) : PricePoint :=
  {| month := month point; price := JSON_number (price point) |}.

Definition JSON_price (currentPrice : CurrentPrice.t) : CurrentPrice.t :=
  {| CurrentPrice.price := JSON_number (CurrentPrice.price currentPrice);
     CurrentPrice.change24h := JSON_optional (CurrentPrice.change24h currentPrice);
     CurrentPrice.source := CurrentPrice.source currentPrice |}.

(** saveToCache: the item written is the record as [JSON.parse] reads
    [JSON.stringify] of it. *)
Definition saveToCache (localStorage : Storage) (now : Z)
    (priceData : list PricePoint) (currentPrice : CurrentPrice.t)
  : Storage * completion unit :=
  let written :=
    setItem localStorage
      (Json {| Cache.data := {| Cache.priceData := map JSON_point priceData;
                                 Cache.currentPrice := JSON_price currentPrice |};
               Cache.timestamp := now |}) in
  match written with
  | Normal localStorage' => (localStorage', Normal tt)
  | Throw _ => (localStorage, Normal tt)
  end.

(** ** The hook (lines 215-450) *)

Record state : Type :=
  { priceData : list PricePoint;
    currentPrice : option CurrentPrice.t;
    loading : bool;
    error : option string;
    lastUpdated : option Z;
    isLive : bool;
    dataSource : option string }.

Definition initialState : state :=
  {| priceData := []; currentPrice := None; loading := true; error := None;
     lastUpdated := None; isLive := false; dataSource := None |}.

Definition setPriceData (v : list PricePoint) (s : state) : state :=
  {| priceData := v; currentPrice := currentPrice s; loading := loading s;
     error := error s; lastUpdated := lastUpdated s; isLive := isLive s;
     dataSource := dataSource s |}.

Definition setCurrentPrice (v : option CurrentPrice.t) (s : state) : state :=
  {| priceData := priceData s; currentPrice := v; loading := loading s;
     error := error s; lastUpdated := lastUpdated s; isLive := isLive s;
     dataSource := dataSource s |}.

Definition setLoading (v : bool) (s : state) : state :=
  {| priceData := priceData s; currentPrice := currentPrice s; loading := v;
     error := error s; lastUpdated := lastUpdated s; isLive := isLive s;
     dataSource := dataSource s |}.

Definition setError (v : option string) (s : state) : state :=
  {| priceData := priceData s; currentPrice := currentPrice s;
     loading := loading s; error := v; lastUpdated := lastUpdated s;
     isLive := isLive s; dataSource := dataSource s |}.

Definition setLastUpdated (v : option Z) (s : state) : state :=
  {| priceData := priceData s; currentPrice := currentPrice s;
     loading := loading s; error := error s; lastUpdated := v;
     isLive := isLive s; dataSource := dataSource s |}.

Definition setIsLive (v : bool) (s : state) : state :=
  {| priceData := priceData s; currentPrice := currentPrice s;
     loading := loading s; error := error s; lastUpdated := lastUpdated s;
     isLive := v; dataSource := dataSource s |}.

Definition setDataSource (v : option string) (s : state) : state :=
  {| priceData := priceData s; currentPrice := currentPrice s;
     loading := loading s; error := error s; lastUpdated := lastUpdated s;
     isLive := isLive s; dataSource := v |}.

(** The mount effect (lines 226-235). *)
Definition hydrate (localStorage : Storage) (now : Z) (s : state) : state :=
  match snd (loadFromCache localStorage now) with
  | Normal (Some cached) =>
      setDataSource (Some "cache")
        (setIsLive true
           (setLoading false
              (setCurrentPrice (Some (Cache.currentPrice cached))
                 (setPriceData (Cache.priceData cached) s))))
  | _ => s
  end.

(** [priceResult.status === 'fulfilled' && priceResult.value] *)
Definition settledValue {A : Type} (r : outcome (option A)) : option A :=
  match r with
  | Fulfilled (Some v) => Some v
  | _ => None
  end.

(** [{ price: Math.round(latestPrice[1]), change24h: null }] *)
Definition historicalPrice (p : number) : CurrentPrice.t :=
  {| CurrentPrice.price := Math_round p;
     CurrentPrice.change24h := None;
     CurrentPrice.source := None |}.

Definition fallbackCurrentPrice : CurrentPrice.t :=
  {| CurrentPrice.price := fallbackPrice;
     CurrentPrice.change24h := None;
     CurrentPrice.source := None |}.

(** [value.source || 'api'] *)
Definition sourceOrApi (source : option string) : string :=
  match source with
  | Some s => if String.eqb s "" then "api" else s
  | None => "api"
  end.

Section Cycle.
Variable LocalTZA : Z -> Z.

(** The [try] block of fetchPriceData after the [await] (lines 342-416):
    the state and the storage it leaves, and how it completes. *)
Definition tryBlock (priceResult : outcome (option CurrentPrice.t))
    (historyResult : outcome (option (list entry))) (now : Z)
    (s : state) (localStorage : Storage)
  : state * Storage * completion unit :=
  (* Process current price result *)
  let '(s, gotLivePrice) :=
    match settledValue priceResult with
    | Some value =>
        (setDataSource (Some (sourceOrApi (CurrentPrice.source value)))
           (setIsLive true (setCurrentPrice (Some value) s)), true)
    | None => (s, false)
    end in
  (* Process historical data result *)
  let '(s, localStorage, historical) :=
    match settledValue historyResult with
    | None => (s, localStorage, Normal false)
    | Some prices =>
        match monthlyAverages LocalTZA prices with
        | Throw e => (s, localStorage, Throw e)
        | Normal processed =>
            if (0 <? List.length processed)%nat then
              let s := setPriceData processed s in
              let latestPrice := Array_last prices in
              let s :=
                if gotLivePrice then s
                else
                  setIsLive true
                    match latestPrice with
                    | Some (Sample _ p) =>
                        setCurrentPrice (Some (historicalPrice p)) s
                    | _ => s   (* [if (latestPrice)] fails on the empty string *)
                    end in
              (* Cache successful data *)
              match settledValue priceResult, latestPrice with
              | Some value, _ =>
                  (s, fst (saveToCache localStorage now processed value),
                   Normal true)
              | None, Some (Sample _ p) =>
                  (s, fst (saveToCache localStorage now processed
                             (historicalPrice p)),
                   Normal true)
              | None, Some EmptyText =>
                  (* [""[1]] is [undefined] *)
                  (s, fst (saveToCache localStorage now processed
                             (historicalPrice NaN)),
                   Normal true)
              | None, _ => (s, localStorage, Throw TypeError)
              end
            else (s, localStorage, Normal false)
        end
    end in
  match historical with
  | Throw e => (s, localStorage, Throw e)
  | Normal gotHistoricalData =>
      (* If historical data failed, use fallback *)
      let s :=
        if gotHistoricalData then s
        else
          let s := setPriceData FALLBACK_ARRAY s in
          if gotLivePrice then s
          else setDataSource (Some "fallback")
                 (setCurrentPrice (Some fallbackCurrentPrice) s) in
      (setError None
         (setLastUpdated (Some now)
            (setIsLive (gotLivePrice || gotHistoricalData) s)),
       localStorage, Normal tt)
  end.

(** The [catch] block (lines 418-430). *)
Definition catchBlock (now : Z) (s : state) : state :=
  setError None
    (setLastUpdated (Some now)
       (setDataSource (Some "fallback")
          (setIsLive false
             (setCurrentPrice (Some fallbackCurrentPrice)
                (setPriceData FALLBACK_ARRAY s))))).
End Cycle.

(** ** The mounted hook and its environment

    [inProgress] counts the activations of fetchPriceData that passed the
    guard and have not reached their [finally]; [priceCalls] and
    [historyCalls] count the calls of the two fetch functions. *)

Record world : Type :=
  { hook : state;
    isFetching : bool;
    storage : Storage;
    inProgress : nat;
    priceCalls : nat;
    historyCalls : nat }.

(** First render and mount effect. *)
Definition mount (localStorage : Storage) (now : Z) : world :=
  {| hook := hydrate localStorage now initialState;
     isFetching := false;
     storage := localStorage;
     inProgress := 0;
     priceCalls := 0;
     historyCalls := 0 |}.

(** fetchPriceData up to its [await] (lines 323-340): the guard, then both
    fetches are started. *)
Definition fetchPriceData_begin (w : world) : world :=
  if isFetching w then w
  else
    {| hook := hook w;
       isFetching := true;
       storage := storage w;
       inProgress := S (inProgress w);
       priceCalls := S (priceCalls w);
       historyCalls := S (historyCalls w) |}.

Section Controller.
Variable LocalTZA : Z -> Z.
Variable encodeURIComponent : string -> string.
Variable coin : string.
Variable days : Z.

(** fetchPriceData from the [await] on (lines 342-434). *)
Definition fetchPriceData_resume
    (priceResult : outcome (option CurrentPrice.t))
    (historyResult : outcome (option (list entry))) (now : Z) (w : world)
  : world :=
  let '(s, localStorage, c) :=
    tryBlock LocalTZA priceResult historyResult now (hook w) (storage w) in
  let s :=
    match c with
    | Normal _ => s
    | Throw _ => catchBlock now s
    end in
  {| hook := setLoading false s;
     isFetching := false;
     storage := localStorage;
     inProgress := pred (inProgress w);
     priceCalls := priceCalls w;
     historyCalls := historyCalls w |}.

(** A cycle settles on what the network [net] answers. *)
Definition settle (net : network) (now : Z) (w : world) : world :=
  fetchPriceData_resume
    (snd (fetchCurrentPrice encodeURIComponent coin net))
    (snd (fetchHistoricalData encodeURIComponent coin days net))
    now w.

(** The networks the cycles may meet. *)
Variable allowed : network -> Prop.

Inductive step : world -> world -> Prop :=
| step_trigger w :
    (* a timer tick or a call of [refetch] *)
    step w (fetchPriceData_begin w)
| step_settle w net now :
    (0 < inProgress w)%nat -> allowed net ->
    step w (settle net now w)
| step_storage w b f :
    (* the storage becomes unavailable or available again *)
    step w {| hook := hook w; isFetching := isFetching w;
              storage := {| content := content (storage w);
                            blocked := b; full := f |};
              inProgress := inProgress w; priceCalls := priceCalls w;
              historyCalls := historyCalls w |}
| step_reload w now :
    (* the page is loaded again: a new hook over the same storage *)
    step w (mount (storage w) now).

(** The states of a hook whose storage held nothing at the first visit. *)
Inductive reachable : world -> Prop :=
| reachable_mount b f now :
    reachable (mount {| content := None; blocked := b; full := f |} now)
| reachable_step w w' : reachable w -> step w w' -> reachable w'.
End Controller.

(** ** Vocabulary of the statements *)

(** The trace of [k] failed attempts, each followed by its backoff delay,
    and of attempt [k]. *)
Definition backoffTrace (apiName : string) (k : nat) : trace :=
  (flat_map (fun i => [Attempt apiName i; Sleep (nth_error RETRY_DELAYS i)])
     (seq 0 k) ++ [Attempt apiName k])%list.

Definition isAttempt (e : event) : bool :=
  match e with
  | Attempt _ _ => true
  | _ => false
  end.

Definition isSleep (e : event) : bool :=
  match e with
  | Sleep _ => true
  | _ => false
  end.

Definition attemptsMade (tr : trace) : nat := List.length (filter isAttempt tr).

(** What the retry wrapper does for a fetch function whose results are
    objects. *)
Definition retryContract {A : Type} (fetchFn : nat -> outcome A)
    (apiName : string) : Prop :=
  let '(tr, r) := fetchWithRetry isObject fetchFn apiName in
  (attemptsMade tr <= MAX_RETRIES + 1)%nat /\
  (forall k v,
      (k <= MAX_RETRIES)%nat ->
      (forall j, (j < k)%nat -> exists e, fetchFn j = Rejected e) ->
      fetchFn k = Fulfilled v ->
      tr = backoffTrace apiName k /\ r = Fulfilled v) /\
  (forall e,
      r = Rejected e ->
      (forall j, (j <= MAX_RETRIES)%nat -> exists e', fetchFn j = Rejected e') /\
      fetchFn MAX_RETRIES = Rejected e /\
      tr = backoffTrace apiName MAX_RETRIES).

(** The chain of the resolver as data: each provider with the effects of
    trying it and the result it would hand over. *)
Record candidate : Type :=
  { name : string; effects : trace; yield : option CurrentPrice.t }.

Section Chain.
Variable encodeURIComponent : string -> string.
Variable coin : string.

Definition viaRetry {B : Type} (apiName : string)
    (adapter : reply B -> outcome CurrentPrice.t) (replies : nat -> reply B)
  : candidate :=
  let run := fetchWithRetry isObject (fun n => adapter (replies n)) apiName in
  {| name := apiName; effects := fst run; yield := accepted (snd run) |}.

Definition viaRelays (net : network) : candidate :=
  let run :=
    fetchWithProxyRace encodeURIComponent (priceRelays net) (priceOrder net)
      (priceUrl coin) REQUEST_TIMEOUT in
  {| name := "CoinGecko";
     effects := fst run;
     yield :=
       match snd run with
       | Fulfilled data =>
           match obj_get data coin with
           | Some quote =>
               Some {| CurrentPrice.price := Math_round (CoinGecko.usd quote);
                       CurrentPrice.change24h := CoinGecko.usd_24h_change quote;
                       CurrentPrice.source := Some "coingecko" |}
           | None => None
           end
       | Rejected _ => None
       end |}.

Definition candidates (net : network) : list candidate :=
  [ viaRetry "CoinCap" fetchFromCoinCap (coincap net);
    viaRetry "Binance" fetchFromBinance (binance net);
    viaRetry "Kraken" fetchFromKraken (kraken net);
    viaRetry "CryptoCompare" fetchFromCryptoCompare (cryptocompare net);
    viaRelays net ].
End Chain.

(** Try the candidates in order and stop at the first that yields. *)
Fixpoint firstAccepted (cs : list candidate) : trace * option CurrentPrice.t :=
  match cs with
  | [] => ([], None)
  | c :: cs' =>
      match yield c with
      | Some v => (effects c, Some v)
      | None =>
          let '(tr, r) := firstAccepted cs' in
          ((effects c ++ tr)%list, r)
      end
  end.

(** The event [e] is a call to the provider [provider]. *)
Definition invokes (provider : string) (e : event) : bool :=
  match e with
  | Attempt apiName _ => String.eqb apiName provider
  | Request _ => String.eqb "CoinGecko" provider
  | Sleep _ => false
  end.

(** A price that is a number, as opposed to one that passes ToBoolean. *)
Definition numericPrice (r : CurrentPrice.t) : Prop :=
  exists q, CurrentPrice.price r = Num q.

(** ** Sample networks *)

Definition unreachable {B : Type} : reply B := NetworkError "Failed to fetch".

Definition offline : network :=
  {| coincap := fun _ => unreachable;
     binance := fun _ => unreachable;
     kraken := fun _ => unreachable;
     cryptocompare := fun _ => unreachable;
     priceRelays := fun _ => unreachable;
     priceOrder := [0; 1; 2]%nat;
     chartRelays := fun _ => unreachable;
     chartOrder := [0; 1; 2]%nat |}.

(** CoinCap quotes [quote]; Binance quotes 50000; nothing else answers. *)
Definition coincapQuotes (quote : Q) : network :=
  {| coincap := fun _ =>
       Responded 120 true 200
         (Some (Some {| CoinCap.priceUsd := Num quote;
                        CoinCap.changePercent24Hr := Num 0 |}));
     binance := fun _ =>
       Responded 80 true 200 (Some {| Binance.price := Num 50000 |});
     kraken := fun _ => unreachable;
     cryptocompare := fun _ => unreachable;
     priceRelays := fun _ => unreachable;
     priceOrder := [0; 1; 2]%nat;
     chartRelays := fun _ => unreachable;
     chartOrder := [0; 1; 2]%nat |}.

(** No provider answers; every relay serves the chart [prices]. *)
Definition chartOnly (prices : list entry) : network :=
  {| coincap := fun _ => unreachable;
     binance := fun _ => unreachable;
     kraken := fun _ => unreachable;
     cryptocompare := fun _ => unreachable;
     priceRelays := fun _ => unreachable;
     priceOrder := [0; 1; 2]%nat;
     chartRelays := fun _ =>
       Responded 900 true 200 (Some {| CoinGecko.prices := Some prices |});
     chartOrder := [0; 1; 2]%nat |}.

Definition noEncoding (s : string) : string := s.


Definition nowhere : Storage := {| content := None; blocked := false; full := false |}.

(** ** The invariants of the exposed state *)

(** Ascending by month key without repetition. *)
Definition seriesOk (l : list PricePoint) : Prop :=
  StronglySorted (fun a b => localeCompare (month a) (month b) = Lt) l.

Definition nonNegativeInteger (x : number) : Prop :=
  exists z, 0 <= z /\ x = Num (inject_Z z).

Definition nonNegative (x : number) : Prop :=
  exists q, x = Num q /\ (0 <= q)%Q.

(** Every price a cycle reads for the current price is a finite number that
    is not negative: the price in each answer that an attempt of the
    resolver receives ok, in time and parsed; the quote in the body the race
    of the relays returns, when the resolver gets to the relays; and the
    price of the pair the chart ends in, when the historical fetch returns
    one. *)
Record sane (enc : string -> string) (coin : string) (days : Z) (net : network)
  : Prop :=
  { sane_coincap : forall n latency status d,
      In (Attempt "CoinCap" n) (fst (fetchCurrentPrice enc coin net)) ->
      coincap net n = Responded latency true status (Some (Some d)) ->
      latency < REQUEST_TIMEOUT ->
      nonNegative (CoinCap.priceUsd d);
    sane_binance : forall n latency status d,
      In (Attempt "Binance" n) (fst (fetchCurrentPrice enc coin net)) ->
      binance net n = Responded latency true status (Some d) ->
      latency < REQUEST_TIMEOUT ->
      nonNegative (Binance.price d);
    sane_kraken : forall n latency status d t x,
      In (Attempt "Kraken" n) (fst (fetchCurrentPrice enc coin net)) ->
      kraken net n = Responded latency true status (Some d) ->
      latency < REQUEST_TIMEOUT ->
      Kraken.error d = [] ->
      Kraken.result d = Some t ->
      Kraken.XXBTZUSD t = Some x \/
      (Kraken.XXBTZUSD t = None /\ Kraken.XBTUSD t = Some x) ->
      nonNegative x;
    sane_cryptocompare : forall n latency status d,
      In (Attempt "CryptoCompare" n) (fst (fetchCurrentPrice enc coin net)) ->
      cryptocompare net n = Responded latency true status (Some d) ->
      latency < REQUEST_TIMEOUT ->
      nonNegative (CryptoCompare.USD d);
    sane_coingecko : forall url data quote,
      In (Request url) (fst (fetchCurrentPrice enc coin net)) ->
      snd (fetchWithProxyRace enc (priceRelays net) (priceOrder net)
             (priceUrl coin) REQUEST_TIMEOUT) = Fulfilled data ->
      obj_get data coin = Some quote ->
      nonNegative (CoinGecko.usd quote);
    sane_chart : forall prices e,
      settledValue (snd (fetchHistoricalData enc coin days net)) = Some prices ->
      Array_last prices = Some e ->
      exists t p, e = Sample t p /\ nonNegative p }.

Definition anyNetwork (net : network) : Prop := True.

(** Adjacent keys strictly ascending. *)
Fixpoint ascending (keys : list string) : bool :=
  match keys with
  | [] => true
  | k :: rest =>
      match rest with
      | [] => true
      | k' :: _ => String.ltb k k' && ascending rest
      end
  end.

(** CoinCap fails twice, then quotes 43000.40; nothing else answers. *)
Definition coincapThirdTime : network :=
  {| coincap := fun n =>
       if (n <? 2)%nat then unreachable
       else Responded 120 true 200
              (Some (Some {| CoinCap.priceUsd := Num (430004 # 10);
                             CoinCap.changePercent24Hr := Num 0 |}));
     binance := fun _ => unreachable;
     kraken := fun _ => unreachable;
     cryptocompare := fun _ => unreachable;
     priceRelays := fun _ => unreachable;
     priceOrder := [0; 1; 2]%nat;
     chartRelays := fun _ => unreachable;
     chartOrder := [0; 1; 2]%nat |}.

(** The first relay of [CORS_PROXIES] is down, the other two serve [body]. *)
Definition firstRelayDown {B : Type} (body : B) (proxyUrl : string) : reply B :=
  if String.prefix "https://corsproxy.io/?" proxyUrl then unreachable
  else Responded 300 true 200 (Some body).

(** ** Predicates used by the proofs *)

(** [x] does not sort after [y]. *)
Definition notAfter {A : Type} (cmp : A -> A -> comparison) (x y : A) : Prop :=
  cmp x y <> Gt.

(** The part of a month key after the year. *)
Definition monthSuffix (m : Z) : string :=
  "-" ++ padStart 2 "0" (String_of_int (Some (m + 1))).

(** The loop invariant of the bucketing: after the samples [seen], the
    object holds exactly the buckets of their months. *)
Definition holds (LocalTZA : Z -> Z) (seen : list (Z * number))
    (m : list (string * bucket)) : Prop :=
  NoDup (Object_keys m) /\
  forall k, obj_get m k = bucketOf (pricesOfMonth LocalTZA k seen).

(** An element that can be destructured, as the sample the loop takes it
    for: the empty string gives an invalid date and no price. *)
Definition asSample (e : entry) : Z * number :=
  match e with
  | Sample t p => (t, p)
  | _ => (maxTimeValue + 1, NaN)
  end.

Definition isFulfilled {A : Type} (o : outcome A) : Prop := exists v, o = Fulfilled v.

Definition isRejected {A : Type} (o : outcome A) : Prop := exists e, o = Rejected e.

(** The effects of a candidate are calls to itself and sleeps. *)
Definition ownEvents (c : candidate) : Prop :=
  forall e provider,
    In e (effects c) -> provider <> name c -> invokes provider e = false.

(** The ref [isFetching] is set exactly while a cycle is in progress. *)
Definition guardOk (w : world) : Prop :=
  (isFetching w = true /\ inProgress w = 1%nat) \/
  (isFetching w = false /\ inProgress w = 0%nat).

Definition seriesInv (w : world) : Prop :=
  seriesOk (priceData (hook w)) /\
  forall r, content (storage w) = Some (Json r) ->
            seriesOk (Cache.priceData (Cache.data r)).

Definition priceInv (w : world) : Prop :=
  (forall cp, currentPrice (hook w) = Some cp ->
              nonNegativeInteger (CurrentPrice.price cp)) /\
  forall r, content (storage w) = Some (Json r) ->
            nonNegativeInteger (CurrentPrice.price (Cache.currentPrice (Cache.data r))).

(** ** Vocabulary of the further statements *)

(** The milliseconds slept in a trace; [sleep(undefined)] does not wait. *)
Fixpoint totalSleep (tr : trace) : Z :=
  match tr with
  | [] => 0
  | Sleep (Some d) :: tr' => d + totalSleep tr'
  | _ :: tr' => totalSleep tr'
  end.

Definition isRequest (e : event) : bool :=
  match e with
  | Request _ => true
  | _ => false
  end.

Definition requestsMade (tr : trace) : nat := List.length (filter isRequest tr).

(** The values [dataSource] takes. *)
Definition dataSources : list (option string) :=
  [ None; Some "cache"; Some "fallback"; Some "coincap"; Some "binance";
    Some "kraken"; Some "cryptocompare"; Some "coingecko" ].

(** The source tags of the results of the resolver. *)
Definition providerTags : list (option string) :=
  [ Some "coincap"; Some "binance"; Some "kraken"; Some "cryptocompare";
    Some "coingecko" ].

(** A price that is an integer other than zero. *)
Definition nonZeroInteger (x : number) : Prop :=
  exists z, z <> 0 /\ x = Num (inject_Z z).

(** [Infinity], or a finite number that is not negative. *)
Definition notNegative (x : number) : Prop :=
  x = Infinity \/ exists q, x = Num q /\ (0 <= q)%Q.

(** What [Math.round] returns: an integer, [NaN] or an infinity. *)
Definition rounded (x : number) : Prop :=
  x = NaN \/ x = Infinity \/ x = NegInfinity \/ exists z, x = Num (inject_Z z).

(** The month key of month [m] (from 0) of year [y]. *)
Definition keyOf (y m : Z) : string := String_of_int (Some y) ++ monthSuffix m.

(** Months counted from January of the year 1000. *)
Definition monthNumber (y m : Z) : Z := (y - 1000) * 12 + m.

(** The key of the month numbered [i]. *)
Definition keyAt (i : Z) : string := keyOf (1000 + i / 12) (i mod 12).

(** The keys of the months numbered [from], [from + 1], ... ascend. *)
Fixpoint keysAscendFrom (count : nat) (from : Z) : bool :=
  match count with
  | O => true
  | S count' =>
      String.ltb (keyAt from) (keyAt (from + 1)) && keysAscendFrom count' (from + 1)
  end.

(** A hook that is not loading shows a series, and so does the cache. *)
Definition shownInv (w : world) : Prop :=
  (loading (hook w) = false -> priceData (hook w) <> []) /\
  forall r, content (storage w) = Some (Json r) ->
            Cache.priceData (Cache.data r) <> [].

(** A hook that is not loading shows a current price. *)
Definition pricedInv (w : world) : Prop :=
  loading (hook w) = false -> currentPrice (hook w) <> None.

(** The chart the historical fetch returns does not end in the empty
    string. *)
Definition endsInPair (enc : string -> string) (coin : string) (days : Z)
    (net : network) : Prop :=
  forall prices,
    settledValue (snd (fetchHistoricalData enc coin days net)) = Some prices ->
    Array_last prices <> Some EmptyText.

(** A number [JSON.stringify] writes as it is: a finite one, or [null]. *)
Definition writable (x : number) : Prop := x = Null \/ exists q, x = Num q.

Definition writablePrice (currentPrice : CurrentPrice.t) : Prop :=
  writable (CurrentPrice.price currentPrice) /\
  forall x, CurrentPrice.change24h currentPrice = Some x -> exists q, x = Num q.

(** The names of the providers the retry wrapper calls, in the order of the
    chain. *)
Definition directProviders : list string :=
  ["CoinCap"; "Binance"; "Kraken"; "CryptoCompare"].

(** No provider answers; every relay serves a chart that ends in the empty
    string. *)
Definition emptyTextChart : network :=
  chartOnly [Sample 1704412800000 (Num 43000); EmptyText].

(** An element the parameter pattern of the callback destructures. *)
Definition isIterable (e : entry) : bool :=
  match e with
  | Sample _ _ | EmptyText => true
  | NotIterable => false
  end.

(** A resolver result as Binance gives it. *)
Definition binanceQuote (q : Q) : CurrentPrice.t :=
  {| CurrentPrice.price := Math_round (Num q);
     CurrentPrice.change24h := None;
     CurrentPrice.source := Some "binance" |}.

(** A mounted hook in the middle of its first cycle. *)
Definition firstCycle : world := fetchPriceData_begin (mount nowhere 0).

Definition sleepsMade (tr : trace) : nat := List.length (filter isSleep tr).

(** A sleep of the trace waits for one of the configured delays. *)
Definition configuredDelay (e : event) : Prop :=
  match e with
  | Sleep d => exists ms, d = Some ms /\ In ms RETRY_DELAYS
  | _ => True
  end.

(** What the hook says about where its data came from. *)
Definition sourceInv (s : state) : Prop :=
  error s = None /\
  In (dataSource s) dataSources /\
  (isLive s = false -> dataSource s = None \/ dataSource s = Some "fallback").

(** ** The complaints fetcher (scripts/fetch-cfpb-data.cjs)

    The script pages through the complaint search API.  A run is a function
    of what the server answers to each request; the loop of
    fetchAllComplaints has no bound of its own and takes a number of pages
    it may fetch, [None] standing for a run that needs more. *)

Module Cfpb.

(** CONFIG *)
Definition PAGE_SIZE : Z := 100.
Definition REQUEST_DELAY_MS : Z := 500.
Definition MAX_RETRIES : nat := 3.
Definition RETRY_DELAY_MS : Z := 2000.

(** A complaint as the script reads it: its [sort] field, the entries in the
    form the template literal gives them. *)
Record hit : Type := { _id : string; sort : option (list string) }.

(** [hits.total]: absent or null, a number, or an object with a [value]. *)
Inductive totalField : Type :=
| TotalAbsent
| TotalNumber (n : Z)
| TotalObject (value : option Z).

Module Hits.
Record t : Type := { total : totalField; hits : option (list hit) }.
End Hits.

(** The parsed body of a page; a body that is a number or a string reads as
    an object without [hits]. *)
Module Response.
Record t : Type := { hits : option Hits.t }.
End Response.

(** [{ frm, search_after }] *)
Module Params.
Record t : Type := { frm : nat; search_after : option string }.
End Params.

(** [{ total, hits }] *)
Module Collected.
Record t : Type := { total : nat; hits : list hit }.
End Collected.

(** What a request meets: [fetch] rejects, or a response whose body is not
    JSON ([None]), is [null] ([Some None]) or is an object. *)
Inductive answer : Type :=
| Unreachable (message : string)
| Answered (ok : bool) (status : Z) (statusText : string)
    (body : option (option Response.t)).

(** The body of the [try] of fetchPage (lines 96-110): [None] is a value
    without properties, [null] or [undefined]. *)
Definition request (a : answer) : outcome (option Response.t) :=
  match a with
  | Unreachable message => Rejected (Error message)
  | Answered ok status statusText body =>
      if negb ok
      then Rejected (Error ("HTTP " ++ String_of_int (Some status) ++ ": " ++ statusText))
      else
        match body with
        | Some data => Fulfilled data
        | None => Rejected (Error "SyntaxError: Unexpected token in JSON")
        end
  end.

(** extractSearchAfter (lines 125-132) *)
Definition extractSearchAfter (hits : list hit) : option string :=
  match Array_last hits with
  | None => None
  | Some lastHit =>
      match sort lastHit with
      | Some (first :: second :: _) => Some (first ++ "_" ++ second)
      | _ => None
      end
  end.

(** [if (searchAfter) params.search_after = searchAfter] *)
Definition truthy_string (s : option string) : option string :=
  match s with
  | Some s => if String.eqb s "" then None else Some s
  | None => None
  end.

(** [totalExpected]: a number, or an object, which no length reaches. *)
Inductive expected : Type :=
| Expected (n : Z)
| NotComparable.

(** [response.hits?.total?.value || response.hits?.total || 0] *)
Definition totalOf (h : option Hits.t) : expected :=
  match h with
  | None => Expected 0
  | Some h =>
      match Hits.total h with
      | TotalAbsent => Expected 0
      | TotalNumber n => Expected n
      | TotalObject (Some value) =>
          if value =? 0 then NotComparable else Expected value
      | TotalObject None => NotComparable
      end
  end.

(** [response.hits?.hits || []] *)
Definition hitsOf (response : Response.t) : list hit :=
  match Response.hits response with
  | Some h =>
      match Hits.hits h with
      | Some l => l
      | None => []
      end
  | None => []
  end.

(** [allHits.length >= totalExpected] *)
Definition reached (length : nat) (totalExpected : expected) : bool :=
  match totalExpected with
  | Expected n => n <=? Z.of_nat length
  | NotComparable => false
  end.

Section Run.
(** buildUrl (lines 66-90): the URL of the request for [params]. *)
Variable buildUrl : Params.t -> string.
(** The answer to the request numbered [served], counted over the run. *)
Variable server : nat -> string -> answer.

(** The loop of fetchPage from [attempt] on, with [remaining] attempts left
    ([attempt <= MAX_RETRIES]); [served] counts the requests made. *)
Fixpoint fetchPage_from (remaining attempt served : nat) (url : string)
  : trace * nat * outcome (option Response.t) :=
  match remaining with
  | O => ([], served, Fulfilled None)
  | S remaining' =>
      match request (server served url) with
      | Fulfilled data => ([Request url], S served, Fulfilled data)
      | Rejected error =>
          if (attempt <? MAX_RETRIES)%nat then
            let '(tr, served', r) :=
              fetchPage_from remaining' (S attempt) (S served) url in
            (Request url :: Sleep (Some RETRY_DELAY_MS) :: tr, served', r)
          else ([Request url], S served, Rejected error)
      end
  end.

(** fetchPage (lines 92-123) *)
Definition fetchPage (served : nat) (params : Params.t)
  : trace * nat * outcome (option Response.t) :=
  fetchPage_from MAX_RETRIES 1 served (buildUrl params).

(** The [while (true)] of fetchAllComplaints (lines 145-181), for at most
    [fuel] pages. *)
Fixpoint paginate (fuel served : nat) (allHits : list hit) (frm : nat)
    (searchAfter : option string) (totalExpected : option expected)
  : option (trace * outcome Collected.t) :=
  match fuel with
  | O => None
  | S fuel' =>
      let params :=
        {| Params.frm := frm; Params.search_after := truthy_string searchAfter |} in
      let '(tr, served', page) := fetchPage served params in
      match page with
      | Rejected e => Some (tr, Rejected e)
      | Fulfilled None => Some (tr, Rejected TypeError)
      | Fulfilled (Some response) =>
          let totalExpected :=
            match totalExpected with
            | None => totalOf (Response.hits response)
            | Some e => e
            end in
          let hits := hitsOf response in
          if (List.length hits =? 0)%nat then
            Some (tr, Fulfilled {| Collected.total := List.length allHits;
                                   Collected.hits := allHits |})
          else
            let allHits := (allHits ++ hits)%list in
            let searchAfter := extractSearchAfter hits in
            let frm := (frm + List.length hits)%nat in
            if reached (List.length allHits) totalExpected then
              Some (tr, Fulfilled {| Collected.total := List.length allHits;
                                     Collected.hits := allHits |})
            else
              match paginate fuel' served' allHits frm searchAfter
                      (Some totalExpected) with
              | Some (tr', r) =>
                  Some ((tr ++ Sleep (Some REQUEST_DELAY_MS) :: tr')%list, r)
              | None => None
              end
      end
  end.

(** fetchAllComplaints (lines 134-187) *)
Definition fetchAllComplaints (fuel : nat) : option (trace * outcome Collected.t) :=
  paginate fuel 0 [] 0 None None.
End Run.

(** formatOutput (lines 189-198) *)
Definition formatOutput (data : Collected.t) : Response.t :=
  {| Response.hits :=
       Some {| Hits.total := TotalObject (Some (Z.of_nat (Collected.total data)));
               Hits.hits := Some (Collected.hits data) |} |}.

End Cfpb.

(** ** Vocabulary of the statements on the fetcher *)

(** The trace of a page obtained, or given up, after [k] retries. *)
Fixpoint pageTrace (url : string) (k : nat) : trace :=
  match k with
  | O => [Request url]
  | S k' => Request url :: Sleep (Some Cfpb.RETRY_DELAY_MS) :: pageTrace url k'
  end.

(** A page that is not empty and whose total is an object with no [value]
    other than 0. *)
Definition openEnded (a : Cfpb.answer) : Prop :=
  exists status statusText value first rest,
    a = Cfpb.Answered true status statusText
          (Some (Some {| Cfpb.Response.hits :=
                           Some {| Cfpb.Hits.total := Cfpb.TotalObject value;
                                   Cfpb.Hits.hits := Some (first :: rest) |} |})) /\
    (value = None \/ value = Some 0).

(** The total of every page the server gives is a number, at most [n]. *)
Definition totalsUpTo (n : Z) (server : nat -> string -> Cfpb.answer) : Prop :=
  forall served url ok status statusText response,
    server served url = Cfpb.Answered ok status statusText (Some (Some response)) ->
    exists m, Cfpb.totalOf (Cfpb.Response.hits response) = Cfpb.Expected m /\ m <= n.

(** A page of the sample server. *)
Definition samplePage (total : Cfpb.totalField) (hits : list Cfpb.hit) : Cfpb.answer :=
  Cfpb.Answered true 200 "OK"
    (Some (Some {| Cfpb.Response.hits :=
                     Some {| Cfpb.Hits.total := total; Cfpb.Hits.hits := Some hits |} |})).

Definition complaint (id : string) (created : string) : Cfpb.hit :=
  {| Cfpb._id := id; Cfpb.sort := Some [created; id] |}.

(** Three complaints in pages of two; the first request meets no answer. *)
Definition threeComplaints (served : nat) (url : string) : Cfpb.answer :=
  match served with
  | 0%nat => Cfpb.Unreachable "fetch failed"
  | 1%nat => samplePage (Cfpb.TotalObject (Some 3))
               [complaint "c9" "1700000000900"; complaint "c8" "1700000000800"]
  | 2%nat => samplePage (Cfpb.TotalObject (Some 3)) [complaint "c7" "1700000000700"]
  | _ => samplePage (Cfpb.TotalObject (Some 3)) []
  end.

(** A server that reports no usable total and always has one more complaint. *)
Definition endless (served : nat) (url : string) : Cfpb.answer :=
  samplePage (Cfpb.TotalObject None) [complaint "c1" "1700000000100"].

(** The part of the URL of buildUrl that varies from page to page. *)
Definition sampleUrl (params : Cfpb.Params.t) : string :=
  "?size=100"
    ++ match Cfpb.Params.frm params with
       | O => ""
       | frm => "&frm=" ++ String_of_int (Some (Z.of_nat frm))
       end
    ++ match Cfpb.Params.search_after params with
       | Some cursor => "&search_after=" ++ cursor
       | None => ""
       end.

(** * Proofs *)

(** ** Objects *)

Section ObjectFacts.
Context {V : Type}.
Implicit Types (o : list (string * V)) (k : string) (v : V).

Lemma obj_get_set_same o k v : obj_get (obj_set o k v) k = Some v.
Proof.
  induction o as [|[k' v'] o IH]; simpl.
  - now rewrite String.eqb_refl.
  - destruct (String.eqb k' k) eqn:E; simpl; rewrite E; auto.
Qed.

Lemma obj_get_set_other o k k' v :
  k' <> k -> obj_get (obj_set o k v) k' = obj_get o k'.
Proof.
  intros Hne. induction o as [|[k0 v0] o IH]; simpl.
  - destruct (String.eqb_spec k k'); congruence.
  - destruct (String.eqb_spec k0 k); simpl.
    + subst. destruct (String.eqb_spec k k'); congruence.
    + now rewrite IH.
Qed.

Lemma obj_get_In o k v : obj_get o k = Some v -> In (k, v) o.
Proof.
  induction o as [|[k0 v0] o IH]; simpl; [discriminate|].
  destruct (String.eqb_spec k0 k); intros H.
  - injection H as ->. subst. now left.
  - right. auto.
Qed.

Lemma obj_get_None o k : obj_get o k = None -> ~ In k (Object_keys o).
Proof.
  unfold Object_keys.
  induction o as [|[k0 v0] o IH]; simpl; [tauto|].
  destruct (String.eqb_spec k0 k); [discriminate|].
  intros H [Hk|Hk]; [congruence|]. now apply IH.
Qed.

Lemma obj_set_keys_present o k v v0 :
  obj_get o k = Some v0 -> Object_keys (obj_set o k v) = Object_keys o.
Proof.
  unfold Object_keys.
  induction o as [|[k1 v1] o IH]; simpl; [discriminate|].
  destruct (String.eqb_spec k1 k); simpl; [reflexivity|].
  intros H. now rewrite IH.
Qed.

Lemma obj_set_keys_absent o k v :
  obj_get o k = None -> Object_keys (obj_set o k v) = (Object_keys o ++ [k])%list.
Proof.
  unfold Object_keys.
  induction o as [|[k1 v1] o IH]; simpl; [reflexivity|].
  destruct (String.eqb_spec k1 k); simpl; [discriminate|].
  intros H. now rewrite IH.
Qed.

Lemma In_obj_get o k v :
  NoDup (Object_keys o) -> In (k, v) o -> obj_get o k = Some v.
Proof.
  unfold Object_keys.
  induction o as [|[k0 v0] o IH]; simpl; [tauto|].
  intros Hnd [Hin|Hin].
  - injection Hin as -> ->. now rewrite String.eqb_refl.
  - inversion Hnd as [|? ? Hni Hnd']; subst.
    destruct (String.eqb_spec k0 k).
    + subst. exfalso. apply Hni. now apply (in_map fst) in Hin.
    + auto.
Qed.
End ObjectFacts.

(** ** Sorting *)

Section SortFacts.
Context {A : Type} (cmp : A -> A -> comparison).
Hypothesis cmp_total : forall x y, cmp x y = Gt -> cmp y x <> Gt.
Hypothesis cmp_trans :
  forall x y z, cmp x y <> Gt -> cmp y z <> Gt -> cmp x z <> Gt.

Lemma sort_insert_perm x l : Permutation (x :: l) (sort_insert cmp x l).
Proof.
  induction l as [|y l IH]; simpl; [reflexivity|].
  destruct (cmp x y); try reflexivity.
  etransitivity; [apply perm_swap | now apply perm_skip].
Qed.

Lemma Array_sort_perm l : Permutation l (Array_sort cmp l).
Proof.
  induction l as [|x l IH]; simpl; [reflexivity|].
  etransitivity; [apply perm_skip, IH | apply sort_insert_perm].
Qed.

Lemma sort_insert_hd x y l :
  notAfter cmp y x -> HdRel (notAfter cmp) y l -> HdRel (notAfter cmp) y (sort_insert cmp x l).
Proof.
  intros Hyx Hhd. destruct l as [|z l]; simpl.
  - now constructor.
  - inversion Hhd; subst. destruct (cmp x z); now constructor.
Qed.

Lemma sort_insert_sorted x l :
  Sorted (notAfter cmp) l -> Sorted (notAfter cmp) (sort_insert cmp x l).
Proof.
  induction l as [|y l IH]; simpl; intros Hs.
  - repeat constructor.
  - inversion Hs as [|? ? Hs' Hhd]; subst.
    destruct (cmp x y) eqn:E.
    + constructor; [assumption|]. constructor. unfold notAfter. congruence.
    + constructor; [assumption|]. constructor. unfold notAfter. congruence.
    + constructor; [auto|]. apply sort_insert_hd; [|assumption].
      now apply cmp_total.
Qed.

Lemma Array_sort_sorted l : StronglySorted (notAfter cmp) (Array_sort cmp l).
Proof.
  apply Sorted_StronglySorted.
  - intros x y z. apply cmp_trans.
  - induction l as [|x l IH]; simpl; [constructor|].
    now apply sort_insert_sorted.
Qed.
End SortFacts.

(** ** The order of strings *)

Lemma localeCompare_total a b : localeCompare a b = Gt -> localeCompare b a <> Gt.
Proof.
  unfold localeCompare. rewrite (String.compare_antisym b a).
  intros ->. discriminate.
Qed.

Lemma localeCompare_Gt a b : localeCompare a b = Gt <-> localeCompare b a = Lt.
Proof.
  unfold localeCompare. rewrite (String.compare_antisym a b).
  destruct (String.compare b a); simpl; split; congruence.
Qed.

Lemma localeCompare_Eq a b : localeCompare a b = Eq <-> a = b.
Proof. apply String_as_OT.cmp_eq. Qed.

Lemma localeCompare_Lt_trans a b c :
  localeCompare a b = Lt -> localeCompare b c = Lt -> localeCompare a c = Lt.
Proof.
  unfold localeCompare. intros H1 H2.
  apply String_as_OT.cmp_lt in H1, H2. apply String_as_OT.cmp_lt.
  eapply String_as_OT.lt_trans; eassumption.
Qed.

Lemma localeCompare_trans a b c :
  localeCompare a b <> Gt -> localeCompare b c <> Gt -> localeCompare a c <> Gt.
Proof.
  intros H1 H2.
  destruct (localeCompare a b) eqn:E1; [| |congruence].
  - apply localeCompare_Eq in E1. now subst.
  - destruct (localeCompare b c) eqn:E2; [| |congruence].
    + apply localeCompare_Eq in E2. subst. congruence.
    + rewrite (localeCompare_Lt_trans a b c); congruence.
Qed.

Lemma toProcessed_perm m :
  Permutation (map toPricePoint m) (toProcessed m).
Proof. apply Array_sort_perm. Qed.

Lemma toProcessed_sorted m :
  StronglySorted (fun a b => localeCompare (month a) (month b) <> Gt) (toProcessed m).
Proof.
  apply (Array_sort_sorted comparePoints).
  - intros x y. apply localeCompare_total.
  - intros x y z. apply localeCompare_trans.
Qed.

Lemma StronglySorted_strict {A} (key : A -> string) (l : list A) :
  StronglySorted (fun a b => localeCompare (key a) (key b) <> Gt) l ->
  NoDup (map key l) ->
  StronglySorted (fun a b => localeCompare (key a) (key b) = Lt) l.
Proof.
  induction 1 as [|x l Hs IH Hall]; simpl; intros Hnd; [constructor|].
  inversion Hnd as [|? ? Hni Hnd']; subst.
  constructor; [auto|].
  rewrite Forall_forall in *. intros y Hy.
  specialize (Hall y Hy).
  destruct (localeCompare (key x) (key y)) eqn:E; [|reflexivity|congruence].
  apply localeCompare_Eq in E. exfalso. apply Hni. rewrite E. now apply in_map.
Qed.

(** ** Dates and month keys *)

Lemma YearFromDay_spec d :
  DayFromYear (YearFromDay d) <= d < DayFromYear (YearFromDay d + 1).
Proof.
  unfold YearFromDay.
  destruct (Z.ltb_spec d (DayFromYear (1970 + d * 400 / 146097))).
  - unfold DayFromYear in *. Z.to_euclidean_division_equations. lia.
  - destruct (Z.leb_spec (DayFromYear (1970 + d * 400 / 146097 + 1)) d).
    + unfold DayFromYear in *. Z.to_euclidean_division_equations. lia.
    + lia.
Qed.

Lemma MonthFromTime_range t : 0 <= MonthFromTime t <= 11.
Proof.
  unfold MonthFromTime.
  repeat match goal with |- context [if ?b then _ else _] => destruct b end; lia.
Qed.

Lemma String_of_int_inj a b :
  String_of_int (Some a) = String_of_int (Some b) -> a = b.
Proof.
  simpl. intros H. apply DecimalZ.to_int_inj.
  assert (Hnz : forall z, Z.to_int z <> Decimal.Pos Decimal.Nil /\
                          Z.to_int z <> Decimal.Neg Decimal.Nil).
  { intros [|p|p]; simpl; split; try discriminate;
      intros [= E]; now apply (Unsigned.to_uint_nonnil p). }
  assert (E : NilZero.int_of_string (NilZero.string_of_int (Z.to_int a)) =
              NilZero.int_of_string (NilZero.string_of_int (Z.to_int b)))
    by now rewrite H.
  rewrite !NilZero.isi in E by apply Hnz. congruence.
Qed.

Lemma length_append (s t : string) :
  String.length (s ++ t) = (String.length s + String.length t)%nat.
Proof. induction s as [|a s IH]; simpl; [reflexivity|]. now rewrite IH. Qed.

Lemma append_inj_suffix (s1 s2 t1 t2 : string) :
  String.length t1 = String.length t2 ->
  s1 ++ t1 = s2 ++ t2 -> s1 = s2 /\ t1 = t2.
Proof.
  intros Hlen. revert s2.
  induction s1 as [|a s1 IH]; intros [|b s2]; simpl; intros H.
  - auto.
  - exfalso. apply (f_equal String.length) in H. simpl in H.
    rewrite length_append in H. lia.
  - exfalso. apply (f_equal String.length) in H. simpl in H.
    rewrite length_append in H. lia.
  - injection H as -> H. destruct (IH _ H) as [-> ->]. auto.
Qed.

Lemma monthSuffix_length m : 0 <= m <= 11 -> String.length (monthSuffix m) = 3%nat.
Proof.
  intros H.
  assert (E : m = 0 \/ m = 1 \/ m = 2 \/ m = 3 \/ m = 4 \/ m = 5 \/ m = 6 \/
              m = 7 \/ m = 8 \/ m = 9 \/ m = 10 \/ m = 11) by lia.
  repeat destruct E as [E|E]; subst; reflexivity.
Qed.

Lemma monthSuffix_inj m1 m2 :
  0 <= m1 <= 11 -> 0 <= m2 <= 11 -> monthSuffix m1 = monthSuffix m2 -> m1 = m2.
Proof.
  intros H1 H2.
  assert (E1 : m1 = 0 \/ m1 = 1 \/ m1 = 2 \/ m1 = 3 \/ m1 = 4 \/ m1 = 5 \/ m1 = 6 \/
              m1 = 7 \/ m1 = 8 \/ m1 = 9 \/ m1 = 10 \/ m1 = 11) by lia.
  assert (E2 : m2 = 0 \/ m2 = 1 \/ m2 = 2 \/ m2 = 3 \/ m2 = 4 \/ m2 = 5 \/ m2 = 6 \/
              m2 = 7 \/ m2 = 8 \/ m2 = 9 \/ m2 = 10 \/ m2 = 11) by lia.
  repeat destruct E1 as [E1|E1]; subst m1;
    repeat destruct E2 as [E2|E2]; subst m2;
    intros E; try reflexivity; discriminate E.
Qed.

Section KeyFacts.
Variable LocalTZA : Z -> Z.

Lemma monthKey_valid t :
  new_Date t = Some t ->
  monthKey LocalTZA t =
    String_of_int (Some (YearFromTime (LocalTime LocalTZA t)))
      ++ monthSuffix (MonthFromTime (LocalTime LocalTZA t)).
Proof. unfold monthKey. intros ->. reflexivity. Qed.

Lemma monthKey_inj t1 t2 :
  new_Date t1 = Some t1 -> new_Date t2 = Some t2 ->
  (monthKey LocalTZA t1 = monthKey LocalTZA t2 <->
   getFullYear LocalTZA (new_Date t1) = getFullYear LocalTZA (new_Date t2) /\
   getMonth LocalTZA (new_Date t1) = getMonth LocalTZA (new_Date t2)).
Proof.
  intros V1 V2. rewrite !monthKey_valid by assumption.
  rewrite V1, V2. simpl getFullYear. simpl getMonth.
  split.
  - intros H. apply append_inj_suffix in H.
    + destruct H as [Hy Hm]. apply String_of_int_inj in Hy.
      apply monthSuffix_inj in Hm; try apply MonthFromTime_range.
      now rewrite Hy, Hm.
    + now rewrite !monthSuffix_length by apply MonthFromTime_range.
  - intros [[= ->] [= ->]]. reflexivity.
Qed.
End KeyFacts.

(** ** The bucketing loop *)

Lemma floatSum_snoc l p : floatSum (l ++ [p])%list = number_add (floatSum l) p.
Proof. unfold floatSum. now rewrite fold_left_app. Qed.

Lemma bucketOf_snoc l p :
  bucketOf (l ++ [p])%list =
    Some {| sum := number_add
                     (match bucketOf l with Some b => sum b | None => Num 0 end) p;
            count := match bucketOf l with Some b => count b | None => 0 end + 1 |}.
Proof.
  unfold bucketOf at 1.
  destruct (l ++ [p])%list eqn:E; [now destruct l|]. rewrite <- E.
  rewrite floatSum_snoc, length_app, Nat2Z.inj_add. simpl.
  destruct l; reflexivity.
Qed.

Section LoopFacts.
Variable LocalTZA : Z -> Z.

Lemma pricesOfMonth_snoc k seen t p :
  pricesOfMonth LocalTZA k (seen ++ [(t, p)])%list =
    (pricesOfMonth LocalTZA k seen ++
       if String.eqb (monthKey LocalTZA t) k then [p] else [])%list.
Proof.
  unfold pricesOfMonth. rewrite filter_app, map_app. simpl.
  now destruct (String.eqb (monthKey LocalTZA t) k).
Qed.

Lemma NoDup_snoc {A} (l : list A) x : NoDup l -> ~ In x l -> NoDup (l ++ [x])%list.
Proof.
  intros Hl Hx. apply NoDup_app; [assumption|repeat constructor; auto|].
  intros y Hy [<-|[]]. auto.
Qed.

Lemma accumulate_holds seen m t p :
  holds LocalTZA seen m ->
  exists m', accumulate LocalTZA m (Sample t p) = Normal m' /\
             holds LocalTZA (seen ++ [(t, p)])%list m'.
Proof.
  intros [Hnd Hget]. unfold accumulate. cbn [keyAndPrice].
  set (key := monthKey LocalTZA t).
  assert (Hstep : forall m1 b,
    NoDup (Object_keys m1) ->
    obj_get m1 key = Some b ->
    (forall k, k <> key -> obj_get m1 k = obj_get m k) ->
    b = {| sum := match obj_get m key with Some b => sum b | None => Num 0 end;
           count := match obj_get m key with Some b => count b | None => 0 end |} ->
    holds LocalTZA (seen ++ [(t, p)])%list
      (obj_set m1 key {| sum := number_add (sum b) p; count := count b + 1 |})).
  { intros m1 b Hnd1 Hb Hother Hbval. split.
    - now rewrite (obj_set_keys_present _ _ _ b).
    - intros k. rewrite pricesOfMonth_snoc. fold key.
      destruct (String.eqb_spec key k) as [<-|Hne].
      + rewrite obj_get_set_same, bucketOf_snoc, <- Hget, Hbval. reflexivity.
      + rewrite obj_get_set_other by congruence.
        rewrite app_nil_r, <- Hget. apply Hother. congruence. }
  destruct (obj_get m key) as [b|] eqn:E.
  - rewrite E. eexists; split; [reflexivity|].
    apply Hstep; auto. now destruct b.
  - rewrite obj_get_set_same. eexists; split; [reflexivity|].
    apply Hstep.
    + rewrite obj_set_keys_absent by assumption.
      apply NoDup_snoc; [assumption|]. now apply obj_get_None.
    + apply obj_get_set_same.
    + intros k Hk. now apply obj_get_set_other.
    + reflexivity.
Qed.

Lemma forEach_holds samples : forall seen m,
  holds LocalTZA seen m ->
  exists m', forEach (accumulate LocalTZA) (map toEntry samples) m = Normal m' /\
             holds LocalTZA (seen ++ samples)%list m'.
Proof.
  induction samples as [|[t p] samples IH]; intros seen m H.
  - exists m. now rewrite app_nil_r.
  - destruct (accumulate_holds seen m t p H) as (m1 & E1 & H1).
    cbn [map forEach]. change (toEntry (t, p)) with (Sample t p). rewrite E1.
    destruct (IH _ _ H1) as (m' & E' & H').
    exists m'. split; [assumption|]. now rewrite <- app_assoc in H'.
Qed.

Lemma monthlyBuckets_holds samples :
  exists m, monthlyBuckets LocalTZA (map toEntry samples) = Normal m /\
            holds LocalTZA samples m.
Proof.
  apply (forEach_holds samples [] []). split; [constructor|reflexivity].
Qed.

Lemma holds_keys samples m k :
  holds LocalTZA samples m ->
  (In k (Object_keys m) <-> exists t p, In (t, p) samples /\ monthKey LocalTZA t = k).
Proof.
  intros [Hnd Hget]. split.
  - intros Hin. unfold Object_keys in Hin. apply in_map_iff in Hin.
    destruct Hin as ([k' b] & <- & Hin). simpl.
    apply In_obj_get in Hin; [|assumption]. rewrite Hget in Hin.
    destruct (pricesOfMonth LocalTZA k' samples) as [|q l] eqn:E; [discriminate|].
    assert (Hq : In q (pricesOfMonth LocalTZA k' samples)) by (rewrite E; now left).
    unfold pricesOfMonth in Hq. apply in_map_iff in Hq.
    destruct Hq as ([t p] & _ & Hf). apply filter_In in Hf.
    destruct Hf as [Hin' Hk]. apply String.eqb_eq in Hk.
    now exists t, p.
  - intros (t & p & Hin & <-).
    destruct (obj_get m (monthKey LocalTZA t)) as [b|] eqn:E.
    + apply obj_get_In in E. now apply (in_map fst) in E.
    + exfalso. rewrite Hget in E.
      assert (Hq : In p (pricesOfMonth LocalTZA (monthKey LocalTZA t) samples)).
      { unfold pricesOfMonth. apply in_map_iff. exists (t, p). split; [reflexivity|].
        apply filter_In. split; [assumption|]. apply String.eqb_refl. }
      destruct (pricesOfMonth LocalTZA (monthKey LocalTZA t) samples); [destruct Hq|discriminate].
Qed.
End LoopFacts.

Lemma Math_round_Q_nearest (x : Q) :
  (x - (1 # 2) < inject_Z (Math_round_Q x) /\ inject_Z (Math_round_Q x) <= x + (1 # 2))%Q.
Proof.
  unfold Math_round_Q. split.
  - pose proof (Qlt_floor (x + (1 # 2))) as H.
    rewrite inject_Z_plus in H. change (inject_Z 1) with 1%Q in H. lra.
  - apply Qfloor_le.
Qed.

Lemma monthlyAverages_spec (LocalTZA : Z -> Z) (samples : list (Z * number)) :
  exists processed,
    monthlyAverages LocalTZA (map toEntry samples) = Normal processed /\
    NoDup (map month processed) /\
    (forall k, In k (map month processed) <->
               exists t p, In (t, p) samples /\ monthKey LocalTZA t = k) /\
    (forall pp, In pp processed ->
       price pp = Math_round (floatMean (pricesOfMonth LocalTZA (month pp) samples))) /\
    StronglySorted (fun a b => localeCompare (month a) (month b) = Lt) processed.
Proof.
  destruct (monthlyBuckets_holds LocalTZA samples) as (m & Em & Hm).
  exists (toProcessed m). unfold monthlyAverages. rewrite Em.
  assert (Hkeys : Permutation (Object_keys m) (map month (toProcessed m))).
  { replace (Object_keys m) with (map month (map toPricePoint m)).
    - apply Permutation_map, toProcessed_perm.
    - unfold Object_keys. rewrite map_map. apply map_ext. now intros [k b]. }
  assert (Hnd : NoDup (map month (toProcessed m))).
  { eapply Permutation_NoDup; [exact Hkeys|apply Hm]. }
  split; [reflexivity|]. split; [exact Hnd|]. split; [|split].
  - intros k. rewrite <- (holds_keys LocalTZA samples m k Hm).
    split; apply Permutation_in; [symmetry|]; exact Hkeys.
  - intros pp Hpp.
    apply (Permutation_in _ (Permutation_sym (toProcessed_perm m))) in Hpp.
    apply in_map_iff in Hpp. destruct Hpp as ([k b] & <- & Hin).
    destruct Hm as [Hnd' Hget].
    apply In_obj_get in Hin; [|assumption]. rewrite Hget in Hin.
    cbn [toPricePoint month price].
    unfold bucketOf in Hin.
    destruct (pricesOfMonth LocalTZA k samples) as [|q l] eqn:E; [discriminate|].
    injection Hin as <-. reflexivity.
  - apply StronglySorted_strict; [apply toProcessed_sorted|exact Hnd].
Qed.

(** The exact value of a finite number. *)
Lemma Math_round_exact (q : Q) :
  Math_round (Num q) = Num (inject_Z (Math_round_Q q)) /\
  (q - (1 # 2) < inject_Z (Math_round_Q q) /\ inject_Z (Math_round_Q q) <= q + (1 # 2))%Q.
Proof. split; [reflexivity|apply Math_round_Q_nearest]. Qed.

(** C1 (as amended). Monthly bucketing: one point per distinct month of the
    input, in ascending order of the month key; the price of a month is
    [Math.round] of the quotient, rounded to a double, of the sum of the
    month's prices, added in input order with each addition rounded to a
    double, by their number. *)
Theorem monthly_bucketing_correct (LocalTZA : Z -> Z) (samples : list (Z * number)) :
  (exists processed,
      monthlyAverages LocalTZA (map toEntry samples) = Normal processed /\
      NoDup (map month processed) /\
      (forall k, In k (map month processed) <->
                 exists t p, In (t, p) samples /\ monthKey LocalTZA t = k) /\
      (forall pp, In pp processed ->
         let prices := pricesOfMonth LocalTZA (month pp) samples in
         price pp =
           Math_round
             (number_div (fold_left number_add prices (Num 0))
                (Z.of_nat (List.length prices)))) /\
      StronglySorted (fun a b => localeCompare (month a) (month b) = Lt) processed) /\
  (forall q, Math_round (Num q) = Num (inject_Z (Qfloor (q + (1 # 2))))) /\
  (forall t1 t2,
      new_Date t1 = Some t1 -> new_Date t2 = Some t2 ->
      (monthKey LocalTZA t1 = monthKey LocalTZA t2 <->
       getFullYear LocalTZA (new_Date t1) = getFullYear LocalTZA (new_Date t2) /\
       getMonth LocalTZA (new_Date t1) = getMonth LocalTZA (new_Date t2))) /\
  (forall t1 t2 t3,
      monthKey LocalTZA t1 = "2024-01" ->
      monthKey LocalTZA t2 = "2024-01" ->
      monthKey LocalTZA t3 = "2024-02" ->
      monthlyAverages LocalTZA
        [Sample t1 (Num 43000); Sample t2 (Num 43400); Sample t3 (Num 52000)] =
      Normal [{| month := "2024-01"; price := Num 43200 |};
              {| month := "2024-02"; price := Num 52000 |}]).
Proof.
  split; [|split; [|split]].
  - apply monthlyAverages_spec.
  - reflexivity.
  - intros t1 t2. apply monthKey_inj.
  - intros t1 t2 t3 H1 H2 H3.
    unfold monthlyAverages, monthlyBuckets. cbn [forEach].
    unfold accumulate. cbn [keyAndPrice]. rewrite H1. cbn -[number_add].
    rewrite H2. cbn -[number_add]. rewrite H3.
    vm_compute. reflexivity.
Qed.

(** The example of C1 at UTC timestamps of 5 and 20 January and 10 February 2024. *)
Lemma monthly_bucketing_correct_witness :
  monthlyAverages UTC
    [Sample 1704412800000 (Num 43000); Sample 1705708800000 (Num 43400);
     Sample 1707523200000 (Num 52000)] =
  Normal [{| month := "2024-01"; price := Num 43200 |};
          {| month := "2024-02"; price := Num 52000 |}] /\
  (monthKey UTC 1704412800000 = monthKey UTC 1705708800000 <->
   getFullYear UTC (new_Date 1704412800000) = getFullYear UTC (new_Date 1705708800000) /\
   getMonth UTC (new_Date 1704412800000) = getMonth UTC (new_Date 1705708800000)).
Proof.
  destruct (monthly_bucketing_correct UTC
              [(1704412800000, Num 43000); (1705708800000, Num 43400);
               (1707523200000, Num 52000)]) as (_ & _ & Hinj & Hex).
  split.
  - apply Hex; vm_compute; reflexivity.
  - apply Hinj; vm_compute; reflexivity.
Defined.

(** C1 (counterexample). The price shown is not always the mean rounded to
    the nearest integer.
    - Two prices of January 2024, 97000 and 97000.99999999999 (the double
      next below 97001): their mean lies below 97000.5 and its nearest
      integer is 97000; their sum rounds to the double 194001, and the
      series shows 97001.
    - Five prices of 1999451424723449600 in one month: their mean is that
      integer, and the series shows 1999451424723449344.
    - Four prices read from the decimals 97377.92, 97173.88, 97402.9 and
      97291.3: their mean is 97311.5, which [Math.round] would take to
      97312; the sum the loop holds is 389245.99999999994, and the series
      shows 97311. *)
Lemma rounded_mean_counterexample :
  (let below := (6665857962868735 # 68719476736)%Q in
   double 97000 = Num 97000 /\ double below = Num below /\
   monthlyAverages UTC [Sample 1704412800000 (Num 97000);
                        Sample 1704499200000 (Num below)]
     = Normal [{| month := "2024-01"; price := Num 97001 |}] /\
   Qlt (mean [97000%Q; below]) (970005 # 10) /\
   Math_round_Q (mean [97000%Q; below]) = 97000) /\
  (let large := 1999451424723449600%Q in
   double large = Num large /\
   monthlyAverages UTC
     (map toEntry [(0, Num large); (1, Num large); (2, Num large);
                   (3, Num large); (4, Num large)])
     = Normal [{| month := "1970-01"; price := Num 1999451424723449344 |}] /\
   Qeq (mean [large; large; large; large; large]) large) /\
  (let decimals := [9737792 # 100; 9717388 # 100; 974029 # 10; 972913 # 10]%Q in
   let exact :=
     [ 6691759708040069 # 68719476736; 834717273250857 # 8589934592;
       3346738160284467 # 34359738368; 6685807226965197 # 68719476736 ]%Q in
   let prices := map double decimals in
   prices = map Num exact /\
   monthlyAverages UTC
     (map toEntry (combine [1704412800000; 1704499200000; 1704585600000; 1704672000000]
                     prices))
     = Normal [{| month := "2024-01"; price := Num 97311 |}] /\
   Qeq (mean exact) (973115 # 10) /\
   Math_round_Q (mean exact) = 97312 /\
   Math_round_Q (mean decimals) = 97312 /\
   floatSum prices = Num (6687195360395263 # 17179869184) /\
   Qlt (6687195360395263 # 17179869184) 389246).
Proof.
  cbv zeta. repeat split; vm_compute; reflexivity.
Qed.

(** ** The retry wrapper *)

Lemma retryContract_holds {A : Type} (fetchFn : nat -> outcome A) (apiName : string) :
  (forall n, fetchFn n <> Rejected Undefined) ->
  retryContract fetchFn apiName.
Proof.
  intros Herr. unfold retryContract, fetchWithRetry, MAX_RETRIES, isObject.
  cbn [retryLoop Nat.add].
  assert (Hk : forall k : nat, (k <= 3)%nat -> k = 0%nat \/ k = 1%nat \/ k = 2%nat \/ k = 3%nat) by lia.
  destruct (fetchFn 0%nat) as [v0|[|m0]] eqn:E0; [| destruct (Herr _ E0) |];
  [| destruct (fetchFn 1%nat) as [v1|[|m1]] eqn:E1; [| destruct (Herr _ E1) |];
     [| destruct (fetchFn 2%nat) as [v2|[|m2]] eqn:E2; [| destruct (Herr _ E2) |];
        [| destruct (fetchFn 3%nat) as [v3|[|m3]] eqn:E3; [| destruct (Herr _ E3) |] ] ] ];
  cbn; (split; [unfold attemptsMade; cbn; lia|]); split.
  all: try (intros e [= <-]; repeat split; try assumption; try reflexivity;
            intros j Hj; destruct (Hk j Hj) as [-> | [-> | [-> | ->]]]; eauto).
  all: try (intros e [=]).
  all: intros k v Hle Hprev Hv;
       destruct (Hk k Hle) as [-> | [-> | [-> | ->]]];
       try (destruct (Hprev 0%nat ltac:(lia)) as [? ?]; congruence);
       try (destruct (Hprev 1%nat ltac:(lia)) as [? ?]; congruence);
       try (destruct (Hprev 2%nat ltac:(lia)) as [? ?]; congruence);
       try congruence;
       split; try reflexivity; congruence.
Qed.

Lemma fetch_not_undefined {B} timeout (r : reply B) : fetch timeout r <> Rejected Undefined.
Proof. destruct r; simpl; [discriminate|]. destruct (_ <? _); discriminate. Qed.

Lemma json_not_undefined {B} (r : Response B) : json r <> Rejected Undefined.
Proof. unfold json. destruct (body r); discriminate. Qed.

Lemma fetchFromCoinCap_error r : fetchFromCoinCap r <> Rejected Undefined.
Proof.
  unfold fetchFromCoinCap.
  destruct (fetch REQUEST_TIMEOUT r) as [resp|e] eqn:E.
  - destruct (negb (ok resp)); [discriminate|].
    destruct (json resp) as [[d|]|e] eqn:Ej; try discriminate.
    intros [= ->]. exact (json_not_undefined _ Ej).
  - intros [= ->]. exact (fetch_not_undefined _ _ E).
Qed.

Lemma fetchFromBinance_error r : fetchFromBinance r <> Rejected Undefined.
Proof.
  unfold fetchFromBinance.
  destruct (fetch REQUEST_TIMEOUT r) as [resp|e] eqn:E.
  - destruct (negb (ok resp)); [discriminate|].
    destruct (json resp) as [d|e] eqn:Ej; try discriminate.
    intros [= ->]. exact (json_not_undefined _ Ej).
  - intros [= ->]. exact (fetch_not_undefined _ _ E).
Qed.

Lemma fetchFromKraken_error r : fetchFromKraken r <> Rejected Undefined.
Proof.
  unfold fetchFromKraken.
  destruct (fetch REQUEST_TIMEOUT r) as [resp|e] eqn:E.
  - destruct (negb (ok resp)); [discriminate|].
    destruct (json resp) as [d|e] eqn:Ej.
    + destruct (_ <? _)%nat; [discriminate|].
      destruct (Kraken.result d) as [t|]; [|discriminate].
      destruct (Kraken.XXBTZUSD t); [discriminate|].
      destruct (Kraken.XBTUSD t); discriminate.
    + intros [= ->]. exact (json_not_undefined _ Ej).
  - intros [= ->]. exact (fetch_not_undefined _ _ E).
Qed.

Lemma fetchFromCryptoCompare_error r : fetchFromCryptoCompare r <> Rejected Undefined.
Proof.
  unfold fetchFromCryptoCompare.
  destruct (fetch REQUEST_TIMEOUT r) as [resp|e] eqn:E.
  - destruct (negb (ok resp)); [discriminate|].
    destruct (json resp) as [d|e] eqn:Ej.
    + destruct (negb _); discriminate.
    + intros [= ->]. exact (json_not_undefined _ Ej).
  - intros [= ->]. exact (fetch_not_undefined _ _ E).
Qed.

Lemma backoffTrace_delays apiName :
  backoffTrace apiName MAX_RETRIES =
    [Attempt apiName 0; Sleep (Some 1000); Attempt apiName 1; Sleep (Some 2000);
     Attempt apiName 2; Sleep (Some 4000); Attempt apiName 3].
Proof. reflexivity. Qed.

(** C6. For every provider fetch function the retry wrapper makes at most
    MAX_RETRIES + 1 = 4 attempts, sleeps 1s, 2s and 4s between consecutive
    attempts, returns the result of the first attempt that yields one, and
    rejects only after all four attempts failed. *)
Theorem retry_backoff_contract :
  (forall (A : Type) (fetchFn : nat -> outcome A) (apiName : string),
      (forall n, fetchFn n <> Rejected Undefined) ->
      retryContract fetchFn apiName) /\
  (forall net : network,
      retryContract (fun n => fetchFromCoinCap (coincap net n)) "CoinCap" /\
      retryContract (fun n => fetchFromBinance (binance net n)) "Binance" /\
      retryContract (fun n => fetchFromKraken (kraken net n)) "Kraken" /\
      retryContract (fun n => fetchFromCryptoCompare (cryptocompare net n))
        "CryptoCompare") /\
  (MAX_RETRIES + 1 = 4)%nat /\
  (forall apiName,
      backoffTrace apiName MAX_RETRIES =
        [Attempt apiName 0; Sleep (Some 1000); Attempt apiName 1;
         Sleep (Some 2000); Attempt apiName 2; Sleep (Some 4000);
         Attempt apiName 3]).
Proof.
  split; [|split; [|split]].
  - intros A fetchFn apiName. apply retryContract_holds.
  - intros net. repeat split; apply retryContract_holds; intros n.
    + apply fetchFromCoinCap_error.
    + apply fetchFromBinance_error.
    + apply fetchFromKraken_error.
    + apply fetchFromCryptoCompare_error.
  - reflexivity.
  - apply backoffTrace_delays.
Qed.

(** C10. When every attempt resolves to a falsy value the wrapper makes all
    MAX_RETRIES + 1 attempts without any sleep and rejects with the
    [undefined] its [lastError] still holds. *)
Theorem retry_all_falsy_rejects_undefined
    (A : Type) (truthy : A -> bool) (fetchFn : nat -> outcome A) (apiName : string) :
  (forall k, (k <= MAX_RETRIES)%nat ->
             exists v, fetchFn k = Fulfilled v /\ truthy v = false) ->
  fetchWithRetry truthy fetchFn apiName =
    ([Attempt apiName 0; Attempt apiName 1; Attempt apiName 2; Attempt apiName 3],
     Rejected Undefined) /\
  attemptsMade (fst (fetchWithRetry truthy fetchFn apiName)) = (MAX_RETRIES + 1)%nat /\
  filter isSleep (fst (fetchWithRetry truthy fetchFn apiName)) = [].
Proof.
  intros H. unfold MAX_RETRIES in H.
  destruct (H 0%nat ltac:(lia)) as (v0 & E0 & T0).
  destruct (H 1%nat ltac:(lia)) as (v1 & E1 & T1).
  destruct (H 2%nat ltac:(lia)) as (v2 & E2 & T2).
  destruct (H 3%nat ltac:(lia)) as (v3 & E3 & T3).
  assert (E : fetchWithRetry truthy fetchFn apiName =
    ([Attempt apiName 0; Attempt apiName 1; Attempt apiName 2; Attempt apiName 3],
     Rejected Undefined)).
  { unfold fetchWithRetry, MAX_RETRIES. cbn [retryLoop Nat.add].
    rewrite E0, T0, E1, T1, E2, T2, E3, T3. reflexivity. }
  rewrite E. repeat split.
Qed.

(** ** The proxy race *)

Lemma Promise_any_fulfilled {A} (l : list (outcome A)) v :
  Promise_any l = Fulfilled v -> In (Fulfilled v) l.
Proof.
  induction l as [|[w|e] l IH]; simpl; [discriminate| |].
  - intros [= ->]. now left.
  - intros H. right. auto.
Qed.

Lemma Promise_any_rejected {A} (l : list (outcome A)) :
  (exists e, Promise_any l = Rejected e) <-> Forall isRejected l.
Proof.
  induction l as [|[w|e] l IH]; simpl.
  - split; [constructor|eauto].
  - split; [intros [e [=]]|].
    intros H. inversion H as [|? ? Hr _]. destruct Hr as [e He]. discriminate.
  - rewrite IH. split; [constructor; [now exists e|assumption]|].
    intros H. now inversion H.
Qed.

Lemma Promise_any_winner {A} (before after : list (outcome A)) v :
  Forall isRejected before ->
  Promise_any (before ++ Fulfilled v :: after)%list = Fulfilled v.
Proof.
  induction 1 as [|o before [e ->] _ IH]; simpl; auto.
Qed.

Lemma inSettlementOrder_app {A} (o1 o2 : list nat) (promises : list A) :
  inSettlementOrder (o1 ++ o2)%list promises =
    (inSettlementOrder o1 promises ++ inSettlementOrder o2 promises)%list.
Proof. unfold inSettlementOrder. apply flat_map_app. Qed.

Lemma inSettlementOrder_perm {A} (order : list nat) (p0 p1 p2 : A) :
  Permutation order [0; 1; 2]%nat ->
  Permutation (inSettlementOrder order [p0; p1; p2]) [p0; p1; p2].
Proof.
  intros H. unfold inSettlementOrder.
  etransitivity; [apply Permutation_flat_map, H|]. reflexivity.
Qed.

Lemma relayFetch_fulfilled {B} enc (relays : string -> reply B) url timeout proxy body :
  relayFetch enc relays url timeout proxy = Fulfilled body <->
  exists latency status,
    relays (proxyUrlOf enc proxy url) = Responded latency true status (Some body) /\
    latency < timeout.
Proof.
  unfold relayFetch, fetch, json. split.
  - destruct (relays (proxyUrlOf enc proxy url)) as [m|latency ok status b];
      [discriminate|].
    destruct (Z.ltb_spec latency timeout); [|discriminate]. simpl.
    destruct ok; simpl; [|discriminate].
    destruct b; [|discriminate]. intros [= ->]. eauto.
  - intros (latency & status & -> & Hlt).
    apply Z.ltb_lt in Hlt. rewrite Hlt. reflexivity.
Qed.

Lemma inSettlementOrder_rejected {A} (before : list nat) (promises : list (outcome A)) :
  (forall i p, In i before -> nth_error promises i = Some p -> isRejected p) ->
  Forall isRejected (inSettlementOrder before promises).
Proof.
  intros H. unfold inSettlementOrder. apply Forall_flat_map.
  apply Forall_forall. intros i Hi.
  destruct (nth_error promises i) as [p|] eqn:E; [|constructor].
  constructor; [|constructor]. eapply H; eauto.
Qed.

(** C7. The race succeeds with the body of a relay that answered whenever
    one of the three relays answers in time, fails exactly when all of them
    fail, and returns the winner's body whatever the other relays do. *)
Theorem proxy_race_first_success {B : Type} (enc : string -> string)
    (relays : string -> reply B) (order : list nat) (url : string) (timeout : Z) :
  Permutation order [0; 1; 2]%nat ->
  let attempt := relayFetch enc relays url timeout in
  let result := snd (fetchWithProxyRace enc relays order url timeout) in
  List.length CORS_PROXIES = 3%nat /\
  ((exists proxy, In proxy CORS_PROXIES /\ isFulfilled (attempt proxy)) ->
   exists proxy body,
     In proxy CORS_PROXIES /\ attempt proxy = Fulfilled body /\
     result = Fulfilled body) /\
  (isRejected result <->
   forall proxy, In proxy CORS_PROXIES -> isRejected (attempt proxy)) /\
  (forall proxy body,
      attempt proxy = Fulfilled body <->
      exists latency status,
        relays (proxyUrlOf enc proxy url) = Responded latency true status (Some body) /\
        latency < timeout) /\
  (forall before winner after proxy body,
      order = (before ++ winner :: after)%list ->
      nth_error CORS_PROXIES winner = Some proxy ->
      attempt proxy = Fulfilled body ->
      (forall i p, In i before -> nth_error CORS_PROXIES i = Some p ->
                   isRejected (attempt p)) ->
      result = Fulfilled body).
Proof.
  intros Hperm attempt result.
  set (promises := map attempt CORS_PROXIES).
  assert (Hres : result = Promise_any (inSettlementOrder order promises)) by reflexivity.
  assert (Hp : Permutation (inSettlementOrder order promises) promises).
  { apply inSettlementOrder_perm, Hperm. }
  assert (Hall : Forall isRejected (inSettlementOrder order promises) <->
                 forall proxy, In proxy CORS_PROXIES -> isRejected (attempt proxy)).
  { rewrite Forall_forall. split.
    - intros H proxy Hin. apply H.
      apply (Permutation_in _ (Permutation_sym Hp)). now apply in_map.
    - intros H o Ho. apply (Permutation_in _ Hp) in Ho.
      apply in_map_iff in Ho. destruct Ho as (proxy & <- & Hin). auto. }
  split; [reflexivity|]. split; [|split; [|split]].
  - intros (proxy & Hin & v & Hv).
    destruct (Promise_any (inSettlementOrder order promises)) as [w|e] eqn:E.
    + apply Promise_any_fulfilled in E. apply (Permutation_in _ Hp) in E.
      apply in_map_iff in E. destruct E as (winner & Hw & Hwin).
      exists winner, w. rewrite Hres. auto.
    + exfalso.
      assert (Hrej : Forall isRejected (inSettlementOrder order promises)).
      { apply Promise_any_rejected. eauto. }
      destruct (proj1 Hall Hrej proxy Hin) as [e' He']. congruence.
  - rewrite <- Hall, Hres. unfold isRejected at 1. apply Promise_any_rejected.
  - intros proxy body. apply relayFetch_fulfilled.
  - intros before winner after proxy body -> Hw Hbody Hbefore.
    rewrite Hres, inSettlementOrder_app.
    assert (E : inSettlementOrder (winner :: after) promises =
                (Fulfilled body :: inSettlementOrder after promises)%list).
    { unfold inSettlementOrder. simpl. unfold promises.
      rewrite nth_error_map, Hw. simpl. now rewrite Hbody. }
    rewrite E. apply Promise_any_winner.
    apply inSettlementOrder_rejected. intros i p Hi Hnth.
    unfold promises in Hnth. rewrite nth_error_map in Hnth.
    destruct (nth_error CORS_PROXIES i) as [q|] eqn:Eq; [|discriminate].
    injection Hnth as <-. eauto.
Qed.

(** ** The resolver *)

Lemma retryLoop_events {A} (truthy : A -> bool) fetchFn apiName :
  forall remaining attempt lastError e,
    In e (fst (retryLoop truthy fetchFn apiName remaining attempt lastError)) ->
    (exists k, e = Attempt apiName k) \/ (exists d, e = Sleep d).
Proof.
  induction remaining as [|remaining IH]; intros attempt lastError e; simpl.
  - tauto.
  - destruct (fetchFn attempt) as [v|[|m]].
    + destruct (truthy v).
      * simpl. intros [<-|[]]. eauto.
      * destruct (retryLoop truthy fetchFn apiName remaining (S attempt) lastError)
          as [tr r] eqn:E.
        simpl. intros [<-|Hin]; [eauto|].
        apply (IH (S attempt) lastError). now rewrite E.
    + simpl. intros [<-|[]]. eauto.
    + destruct (retryLoop truthy fetchFn apiName remaining (S attempt) (Error m))
        as [tr r] eqn:E.
      simpl. intros [<-|Hin]; [eauto|].
      apply in_app_or in Hin. destruct Hin as [Hin|Hin].
      * destruct (attempt <? MAX_RETRIES)%nat; [|destruct Hin].
        destruct Hin as [<-|[]]. eauto.
      * apply (IH (S attempt) (Error m)). now rewrite E.
Qed.

Lemma viaRetry_ownEvents {B} apiName (adapter : reply B -> _) replies :
  ownEvents (viaRetry apiName adapter replies).
Proof.
  intros e provider Hin Hne. simpl in *.
  apply retryLoop_events in Hin.
  destruct Hin as [[k ->]|[d ->]]; cbn [invokes]; [|reflexivity].
  apply String.eqb_neq. congruence.
Qed.

Lemma viaRelays_ownEvents enc coin net : ownEvents (viaRelays enc coin net).
Proof.
  intros e provider Hin Hne. simpl in *.
  destruct Hin as [<-|[<-|[<-|[]]]]; cbn [invokes];
    apply String.eqb_neq; congruence.
Qed.

Lemma candidates_ownEvents enc coin net :
  Forall ownEvents (candidates enc coin net).
Proof.
  unfold candidates. repeat constructor;
    try apply viaRetry_ownEvents. apply viaRelays_ownEvents.
Qed.

Lemma candidates_names enc coin net :
  map name (candidates enc coin net) =
    ["CoinCap"; "Binance"; "Kraken"; "CryptoCompare"; "CoinGecko"].
Proof. reflexivity. Qed.

Lemma fetchCurrentPrice_chain enc coin net :
  fetchCurrentPrice enc coin net =
    (fst (firstAccepted (candidates enc coin net)),
     Fulfilled (snd (firstAccepted (candidates enc coin net)))).
Proof.
  unfold fetchCurrentPrice, candidates, firstAccepted, viaRetry, viaRelays.
  cbn [yield effects].
  repeat match goal with
    | |- context [fetchWithRetry ?t ?f ?n] =>
        destruct (fetchWithRetry t f n) as [? ?]; cbn [fst snd];
        destruct (accepted _); [reflexivity|]
    end.
  destruct (fetchWithProxyRace _ _ _ _ _) as [tr5 r5]. cbn [fst snd].
  destruct r5 as [data|e]; [destruct (obj_get data coin)|]; cbn [fst snd];
    rewrite ?app_nil_r, ?app_assoc; reflexivity.
Qed.

Lemma firstAccepted_first before c after v :
  Forall (fun c => yield c = None) before ->
  yield c = Some v ->
  firstAccepted (before ++ c :: after)%list =
    ((List.concat (map effects before) ++ effects c)%list, Some v).
Proof.
  induction 1 as [|b before Hb _ IH]; intros Hc; simpl.
  - now rewrite Hc.
  - rewrite Hb, (IH Hc). now rewrite app_assoc.
Qed.

Lemma firstAccepted_none cs :
  Forall (fun c => yield c = None) cs -> snd (firstAccepted cs) = None.
Proof.
  induction 1 as [|c cs Hc _ IH]; simpl; [reflexivity|].
  rewrite Hc. destruct (firstAccepted cs). exact IH.
Qed.

Lemma candidates_NoDup enc coin net : NoDup (map name (candidates enc coin net)).
Proof.
  rewrite candidates_names.
  repeat (constructor; [simpl; intuition discriminate|]). constructor.
Qed.

Lemma NoDup_app_disjoint {A} (l1 l2 : list A) x :
  NoDup (l1 ++ l2)%list -> In x l1 -> In x l2 -> False.
Proof.
  induction l1 as [|y l1 IH]; simpl; intros Hnd H1 H2; [assumption|].
  inversion Hnd as [|? ? Hni Hnd']; subst.
  destruct H1 as [->|H1]; [|now apply IH].
  apply Hni, in_or_app. now right.
Qed.

Lemma NoDup_split_names (before after : list candidate) c b c' :
  NoDup (map name (before ++ c :: after)%list) ->
  In b (before ++ [c])%list -> In c' after -> name c' <> name b.
Proof.
  intros Hnd Hb Hc' E.
  replace (before ++ c :: after)%list with ((before ++ [c]) ++ after)%list in Hnd
    by (rewrite <- app_assoc; reflexivity).
  rewrite map_app in Hnd.
  apply (NoDup_app_disjoint _ _ (name b) Hnd).
  - now apply in_map.
  - rewrite <- E. now apply in_map.
Qed.

(** C5 (as amended). The providers are tried in the order CoinCap, Binance,
    Kraken, CryptoCompare, CoinGecko; the first whose result has a truthy
    price (for CoinGecko: whose answer has an entry for the coin) is returned
    and no later provider is invoked; when none yields, the resolver returns
    [null]; it never rejects. *)
Theorem resolver_first_truthy_price (enc : string -> string) (coin : string)
    (net : network) :
  let cs := candidates enc coin net in
  let tr := fst (fetchCurrentPrice enc coin net) in
  let r := snd (fetchCurrentPrice enc coin net) in
  map name cs = ["CoinCap"; "Binance"; "Kraken"; "CryptoCompare"; "CoinGecko"] /\
  (tr, r) = (fst (firstAccepted cs), Fulfilled (snd (firstAccepted cs))) /\
  (exists v, r = Fulfilled v) /\
  (forall before c after v,
      cs = (before ++ c :: after)%list ->
      Forall (fun b => yield b = None) before ->
      yield c = Some v ->
      r = Fulfilled (Some v) /\
      tr = (List.concat (map effects before) ++ effects c)%list /\
      forall c' e, In c' after -> In e tr -> invokes (name c') e = false) /\
  (Forall (fun c => yield c = None) cs -> r = Fulfilled None) /\
  (forall B apiName (adapter : reply B -> outcome CurrentPrice.t) replies v,
      yield (viaRetry apiName adapter replies) = Some v <->
      snd (fetchWithRetry isObject (fun n => adapter (replies n)) apiName) = Fulfilled v /\
      truthy_number (CurrentPrice.price v) = true) /\
  (forall v,
      yield (viaRelays enc coin net) = Some v <->
      exists data quote,
        snd (fetchWithProxyRace enc (priceRelays net) (priceOrder net)
               (priceUrl coin) REQUEST_TIMEOUT) = Fulfilled data /\
        obj_get data coin = Some quote /\
        v = {| CurrentPrice.price := Math_round (CoinGecko.usd quote);
               CurrentPrice.change24h := CoinGecko.usd_24h_change quote;
               CurrentPrice.source := Some "coingecko" |}).
Proof.
  intros cs tr r.
  assert (Hchain := fetchCurrentPrice_chain enc coin net).
  assert (Htr : tr = fst (firstAccepted cs)) by (unfold tr; now rewrite Hchain).
  assert (Hr : r = Fulfilled (snd (firstAccepted cs))) by (unfold r; now rewrite Hchain).
  split; [reflexivity|]. split; [now rewrite Htr, Hr|].
  split; [eauto|]. split; [|split; [|split]].
  - intros before c after v Hcs Hbefore Hc.
    rewrite Htr, Hr, Hcs, (firstAccepted_first before c after v Hbefore Hc).
    cbn [fst snd]. split; [reflexivity|]. split; [reflexivity|].
    intros c' e Hc' He.
    assert (Hb : exists b, In b (before ++ [c])%list /\ In e (effects b)).
    { apply in_app_or in He. destruct He as [He|He].
      - apply in_concat in He. destruct He as (t & Ht & He).
        apply in_map_iff in Ht. destruct Ht as (b & <- & Hb).
        exists b. split; [apply in_or_app; now left|assumption].
      - exists c. split; [apply in_or_app; right; now left|assumption]. }
    destruct Hb as (b & Hb & He').
    assert (Hown : ownEvents b).
    { pose proof (candidates_ownEvents enc coin net) as Hall.
      rewrite Forall_forall in Hall. apply Hall. fold cs. rewrite Hcs.
      apply in_app_or in Hb. apply in_or_app.
      destruct Hb as [Hb|[<-|[]]]; [now left|right; now left]. }
    apply Hown; [assumption|].
    apply (NoDup_split_names before after c b c'); try assumption.
    rewrite <- Hcs. apply candidates_NoDup.
  - intros Hnone. rewrite Hr. now rewrite firstAccepted_none.
  - intros B apiName adapter replies v. unfold viaRetry, accepted. cbn [yield].
    destruct (snd (fetchWithRetry _ _ _)) as [w|e].
    + destruct (truthy_number (CurrentPrice.price w)) eqn:E.
      * split; [intros [= ->]; auto|intros [[= ->] _]; reflexivity].
      * split; [discriminate|intros [[= ->] H]; congruence].
    + split; [discriminate|intros [[=] _]].
  - intros v. unfold viaRelays. cbn [yield].
    destruct (snd (fetchWithProxyRace _ _ _ _ _)) as [data|e].
    + destruct (obj_get data coin) as [quote|] eqn:E.
      * split; [intros [= <-]; eauto|].
        intros (d & q & [= <-] & Hq & ->). congruence.
      * split; [discriminate|]. intros (d & q & [= <-] & Hq & _). congruence.
    + split; [discriminate|]. intros (d & q & [=] & _).
Qed.

(** C5 (counterexample). CoinCap answers with a price that rounds to 0, a
    non-null number: its result is not returned and Binance is invoked. *)
Lemma resolver_zero_price_counterexample :
  let coincapResult :=
    {| CurrentPrice.price := Num (inject_Z 0);
       CurrentPrice.change24h := Some (Num 0);
       CurrentPrice.source := Some "coincap" |} in
  snd (fetchWithRetry isObject
         (fun n => fetchFromCoinCap (coincap (coincapQuotes (2 # 10)) n)) "CoinCap")
    = Fulfilled coincapResult /\
  numericPrice coincapResult /\
  snd (fetchCurrentPrice noEncoding "bitcoin" (coincapQuotes (2 # 10)))
    <> Fulfilled (Some coincapResult) /\
  In (Attempt "Binance" 0)
     (fst (fetchCurrentPrice noEncoding "bitcoin" (coincapQuotes (2 # 10)))).
Proof.
  cbv zeta. split; [vm_compute; reflexivity|]. split; [now exists (inject_Z 0)|].
  split.
  - vm_compute. discriminate.
  - vm_compute. auto.
Qed.

(** ** The cache *)

(** C4. A stored snapshot is returned unchanged when its age is below the
    time-to-live and ignored otherwise, the record staying in storage;
    failures of the storage make [loadFromCache] return [null] and leave
    [saveToCache] returning normally; neither call throws.  What
    [saveToCache] stores is the snapshot as [JSON.stringify] writes it. *)
Theorem cache_contract :
  CACHE_TTL = 60000 /\
  (forall snapshot timestamp f now,
      let localStorage :=
        {| content := Some (Json {| Cache.data := snapshot;
                                    Cache.timestamp := timestamp |});
           blocked := false; full := f |} in
      (now - timestamp < CACHE_TTL ->
       loadFromCache localStorage now = (localStorage, Normal (Some snapshot))) /\
      (CACHE_TTL <= now - timestamp ->
       loadFromCache localStorage now = (localStorage, Normal None))) /\
  (forall localStorage now,
      fst (loadFromCache localStorage now) = localStorage /\
      exists r, snd (loadFromCache localStorage now) = Normal r) /\
  (forall localStorage now,
      (blocked localStorage = true \/
       content localStorage = None \/
       exists text, content localStorage = Some (Unparseable text)) ->
      snd (loadFromCache localStorage now) = Normal None) /\
  (forall localStorage now priceData currentPrice,
      snd (saveToCache localStorage now priceData currentPrice) = Normal tt /\
      (full localStorage = true ->
       fst (saveToCache localStorage now priceData currentPrice) = localStorage) /\
      (full localStorage = false ->
       fst (saveToCache localStorage now priceData currentPrice) =
         {| content :=
              Some (Json {| Cache.data :=
                              {| Cache.priceData := map JSON_point priceData;
                                 Cache.currentPrice := JSON_price currentPrice |};
                            Cache.timestamp := now |});
            blocked := blocked localStorage;
            full := false |})).
Proof.
  split; [reflexivity|]. split; [|split; [|split]].
  - intros snapshot timestamp f now localStorage. unfold loadFromCache. simpl.
    split; intros H.
    + apply Z.ltb_lt in H. now rewrite H.
    + apply Z.ltb_ge in H. now rewrite H.
  - intros localStorage now. split; [reflexivity|].
    unfold loadFromCache. cbn [snd].
    destruct (getItem localStorage) as [[[text|r]|]|e]; simpl; eauto.
    destruct (_ <? _); eauto.
  - intros [c b f] now H. unfold loadFromCache, getItem. simpl in *.
    destruct H as [->|[->|[text ->]]]; [reflexivity| |]; destruct b; reflexivity.
  - intros [c b f] now priceData currentPrice. unfold saveToCache, setItem. simpl.
    destruct f; simpl; repeat split; congruence.
Qed.

(** A snapshot stored at 1000 is served at 60999 and ignored at 61000; a blocked and full storage is harmless. *)
Lemma cache_contract_witness :
  let snapshot := {| Cache.priceData := FALLBACK_ARRAY;
                     Cache.currentPrice := fallbackCurrentPrice |} in
  let localStorage :=
    {| content := Some (Json {| Cache.data := snapshot; Cache.timestamp := 1000 |});
       blocked := false; full := false |} in
  loadFromCache localStorage 60999 = (localStorage, Normal (Some snapshot)) /\
  loadFromCache localStorage 61000 = (localStorage, Normal None) /\
  snd (loadFromCache {| content := None; blocked := true; full := true |} 0)
    = Normal None /\
  fst (saveToCache {| content := None; blocked := true; full := true |} 0
         [] fallbackCurrentPrice)
    = {| content := None; blocked := true; full := true |}.
Proof.
  cbv zeta.
  destruct cache_contract as (_ & Hload & _ & Hfail & Hsave).
  split; [|split; [|split]].
  - apply (Hload _ 1000 false 60999). reflexivity.
  - apply (Hload _ 1000 false 61000). discriminate.
  - apply Hfail. now left.
  - apply Hsave. reflexivity.
Defined.

(** ** The cycle *)

Lemma fallbackPrice_value : fallbackPrice = Num (inject_Z 71000).
Proof. reflexivity. Qed.

Lemma latestMonth_is_last :
  exists k v,
    latestMonth = Some k /\ obj_get FALLBACK_PRICES k = Some v /\
    fallbackPrice = Num (inject_Z v) /\
    forall k', In k' (Object_keys FALLBACK_PRICES) -> localeCompare k' k <> Gt.
Proof.
  exists "2026-02", 71000. repeat split.
  assert (H : forallb (fun k' => String.leb k' "2026-02") (Object_keys FALLBACK_PRICES) = true)
    by (vm_compute; reflexivity).
  rewrite forallb_forall in H. intros k' Hk'. specialize (H k' Hk').
  unfold String.leb, localeCompare in *. destruct (String.compare k' "2026-02"); congruence.
Qed.

Lemma FALLBACK_ARRAY_form :
  FALLBACK_ARRAY =
    map (fun '(month, price) => {| month := month; price := Num (inject_Z price) |}) FALLBACK_PRICES.
Proof. vm_compute. reflexivity. Qed.

Lemma tryBlock_failed LocalTZA priceResult historyResult now s localStorage :
  settledValue priceResult = None -> settledValue historyResult = None ->
  tryBlock LocalTZA priceResult historyResult now s localStorage =
    (setError None
       (setLastUpdated (Some now)
          (setIsLive false
             (setDataSource (Some "fallback")
                (setCurrentPrice (Some fallbackCurrentPrice)
                   (setPriceData FALLBACK_ARRAY s))))),
     localStorage, Normal tt).
Proof. intros Hp Hh. unfold tryBlock. rewrite Hp, Hh. reflexivity. Qed.

(** C3. When both fetches fail, or anything in the cycle throws, the hook
    shows the fallback array, the fallback price of the last month of the
    table, and no error. *)
Theorem total_failure_shows_fallback (LocalTZA : Z -> Z)
    (priceResult : outcome (option CurrentPrice.t))
    (historyResult : outcome (option (list entry))) (now : Z) (w : world) :
  (settledValue priceResult = None /\ settledValue historyResult = None) \/
  (exists e, snd (tryBlock LocalTZA priceResult historyResult now (hook w) (storage w))
             = Throw e) ->
  let w' := fetchPriceData_resume LocalTZA priceResult historyResult now w in
  priceData (hook w') = FALLBACK_ARRAY /\
  (exists cp, currentPrice (hook w') = Some cp /\
              CurrentPrice.price cp = fallbackPrice) /\
  error (hook w') = None /\
  FALLBACK_ARRAY =
    map (fun '(month, price) => {| month := month; price := Num (inject_Z price) |}) FALLBACK_PRICES /\
  (exists k v,
      latestMonth = Some k /\ obj_get FALLBACK_PRICES k = Some v /\
      fallbackPrice = Num (inject_Z v) /\
      forall k', In k' (Object_keys FALLBACK_PRICES) -> localeCompare k' k <> Gt).
Proof.
  intros H w'.
  assert (Hw : priceData (hook w') = FALLBACK_ARRAY /\
               currentPrice (hook w') = Some fallbackCurrentPrice /\
               error (hook w') = None).
  { unfold w', fetchPriceData_resume.
    destruct H as [[Hp Hh]|[e He]].
    - rewrite (tryBlock_failed _ _ _ _ _ _ Hp Hh). repeat split.
    - destruct (tryBlock LocalTZA priceResult historyResult now (hook w) (storage w))
        as [[s ls] c]. simpl in He. subst c. repeat split. }
  destruct Hw as (H1 & H2 & H3).
  split; [exact H1|]. split; [exists fallbackCurrentPrice; split; [exact H2|reflexivity]|].
  split; [exact H3|]. split; [apply FALLBACK_ARRAY_form|apply latestMonth_is_last].
Qed.

(** An offline cycle, and a cycle whose chart has an element that is no pair, both show the fallback. *)
Lemma total_failure_shows_fallback_witness :
  let w := fetchPriceData_begin (mount nowhere 0) in
  (priceData (hook (settle UTC noEncoding "bitcoin" 2555 offline 5 w)) = FALLBACK_ARRAY /\
   error (hook (settle UTC noEncoding "bitcoin" 2555 offline 5 w)) = None) /\
  priceData (hook (fetchPriceData_resume UTC
                     (Fulfilled (Some (historicalPrice (Num 50000))))
                     (Fulfilled (Some [Sample 0 (Num 1); NotIterable])) 5 w))
    = FALLBACK_ARRAY.
Proof.
  cbv zeta. split.
  - destruct (total_failure_shows_fallback UTC
                (snd (fetchCurrentPrice noEncoding "bitcoin" offline))
                (snd (fetchHistoricalData noEncoding "bitcoin" 2555 offline))
                5 (fetchPriceData_begin (mount nowhere 0)))
      as (H1 & _ & H3 & _).
    + left. split; reflexivity.
    + split; [exact H1|exact H3].
  - apply (total_failure_shows_fallback UTC
             (Fulfilled (Some (historicalPrice (Num 50000))))
             (Fulfilled (Some [Sample 0 (Num 1); NotIterable])) 5
             (fetchPriceData_begin (mount nowhere 0))).
    right. eexists. vm_compute. reflexivity.
Defined.

Lemma Array_last_snoc {A} (l : list A) x : Array_last (l ++ [x])%list = Some x.
Proof. unfold Array_last. now rewrite rev_unit. Qed.

Lemma monthlyAverages_nonempty LocalTZA samples t p :
  exists processed,
    monthlyAverages LocalTZA (map toEntry (samples ++ [(t, p)])%list) = Normal processed /\
    (0 <? List.length processed)%nat = true.
Proof.
  destruct (monthlyAverages_spec LocalTZA (samples ++ [(t, p)])%list)
    as (processed & E & _ & Hkeys & _).
  exists processed. split; [exact E|].
  assert (Hin : In (monthKey LocalTZA t) (map month processed)).
  { apply Hkeys. exists t, p. split; [|reflexivity].
    apply in_or_app. right. now left. }
  destruct processed; [destruct Hin|reflexivity].
Qed.




(** ** The reentrancy guard *)

Section GuardFacts.
Variable LocalTZA : Z -> Z.
Variable enc : string -> string.
Variable coin : string.
Variable days : Z.
Variable allowed : network -> Prop.

Lemma step_guardOk w w' :
  step LocalTZA enc coin days allowed w w' -> guardOk w -> guardOk w'.
Proof.
  intros Hstep Hw. destruct Hstep as [w|w net now Hrun Hnet|w b f|w now].
  - unfold fetchPriceData_begin.
    destruct Hw as [[Hf Hn]|[Hf Hn]]; rewrite Hf; [left; auto|].
    left. simpl. rewrite Hn. auto.
  - right. unfold settle, fetchPriceData_resume.
    destruct (tryBlock _ _ _ _ _ _) as [[s ls] c]. simpl.
    destruct Hw as [[Hf Hn]|[Hf Hn]]; rewrite Hn; [auto|lia].
  - exact Hw.
  - right. auto.
Qed.

Lemma reachable_guardOk w :
  reachable LocalTZA enc coin days allowed w -> guardOk w.
Proof.
  induction 1 as [b f now|w w' _ IH Hstep].
  - right. auto.
  - eapply step_guardOk; eauto.
Qed.
End GuardFacts.

(** C8. At most one cycle is in progress, and a trigger that arrives while
    one is running changes nothing: no fetch function is called and the
    exposed state is the same. *)
Theorem at_most_one_cycle (LocalTZA : Z -> Z) (enc : string -> string)
    (coin : string) (days : Z) (allowed : network -> Prop) (w : world) :
  reachable LocalTZA enc coin days allowed w ->
  (inProgress w <= 1)%nat /\
  ((0 < inProgress w)%nat ->
   fetchPriceData_begin w = w /\
   priceCalls (fetchPriceData_begin w) = priceCalls w /\
   historyCalls (fetchPriceData_begin w) = historyCalls w /\
   hook (fetchPriceData_begin w) = hook w /\
   inProgress (fetchPriceData_begin w) = inProgress w) /\
  (inProgress w = 0%nat ->
   inProgress (fetchPriceData_begin w) = 1%nat /\
   priceCalls (fetchPriceData_begin w) = S (priceCalls w) /\
   historyCalls (fetchPriceData_begin w) = S (historyCalls w)).
Proof.
  intros Hr. apply reachable_guardOk in Hr.
  unfold fetchPriceData_begin.
  destruct Hr as [[Hf Hn]|[Hf Hn]]; rewrite Hf, Hn; repeat split; try lia; auto.
Qed.

(** A second trigger right after the first changes nothing. *)
Lemma at_most_one_cycle_witness :
  let running := fetchPriceData_begin (mount nowhere 0) in
  inProgress running = 1%nat /\
  fetchPriceData_begin running = running /\
  priceCalls (fetchPriceData_begin running) = 1%nat.
Proof.
  cbv zeta.
  assert (Hr : reachable UTC noEncoding "bitcoin" 2555 anyNetwork
                 (fetchPriceData_begin (mount nowhere 0))).
  { eapply reachable_step; [apply (reachable_mount _ _ _ _ _ false false 0)|].
    apply step_trigger. }
  destruct (at_most_one_cycle UTC noEncoding "bitcoin" 2555 anyNetwork _ Hr)
    as (_ & Hbusy & _).
  split; [reflexivity|].
  destruct Hbusy as (H1 & H2 & _); [vm_compute; lia|].
  split; [exact H1|]. rewrite H2. reflexivity.
Defined.

(** ** The exposed series and price *)

Lemma ascending_sound (l : list PricePoint) :
  ascending (map month l) = true -> seriesOk l.
Proof.
  intros H. apply Sorted_StronglySorted.
  - intros a b c. apply localeCompare_Lt_trans.
  - induction l as [|a l IH]; [constructor|].
    simpl in H. destruct l as [|b l]; [repeat constructor|].
    simpl map in H. apply andb_true_iff in H. destruct H as [Hab Hrest].
    constructor; [apply IH; exact Hrest|].
    constructor. unfold String.ltb in Hab. unfold localeCompare.
    destruct (String.compare (month a) (month b)); congruence.
Qed.

Lemma FALLBACK_ARRAY_seriesOk : seriesOk FALLBACK_ARRAY.
Proof. apply ascending_sound. vm_compute. reflexivity. Qed.

Lemma accumulate_asSample LocalTZA m e :
  e <> NotIterable ->
  accumulate LocalTZA m e = accumulate LocalTZA m (toEntry (asSample e)).
Proof. destruct e as [t p| |]; [reflexivity|reflexivity|congruence]. Qed.

Lemma forEach_asSample LocalTZA prices :
  forall m m',
    forEach (accumulate LocalTZA) prices m = Normal m' ->
    forEach (accumulate LocalTZA) (map toEntry (map asSample prices)) m = Normal m'.
Proof.
  induction prices as [|e prices IH]; intros m m' H; [exact H|].
  cbn [map forEach] in *.
  destruct e as [t p| |]; [| |discriminate H].
  - change (toEntry (asSample (Sample t p))) with (Sample t p).
    destruct (accumulate LocalTZA m (Sample t p)); [now apply IH|discriminate].
  - rewrite <- (accumulate_asSample LocalTZA m EmptyText) by discriminate.
    destruct (accumulate LocalTZA m EmptyText); [now apply IH|discriminate].
Qed.

Lemma monthlyAverages_seriesOk LocalTZA prices processed :
  monthlyAverages LocalTZA prices = Normal processed -> seriesOk processed.
Proof.
  intros H. unfold monthlyAverages in H.
  destruct (monthlyBuckets LocalTZA prices) as [m|r] eqn:E; [|discriminate].
  unfold monthlyBuckets in E. apply forEach_asSample in E.
  destruct (monthlyAverages_spec LocalTZA (map asSample prices))
    as (processed' & E' & _ & _ & _ & Hs).
  unfold monthlyAverages, monthlyBuckets in E'. rewrite E in E'.
  injection H as <-. injection E' as <-. exact Hs.
Qed.

Lemma seriesOk_JSON l : seriesOk l -> seriesOk (map JSON_point l).
Proof.
  induction 1 as [|a l _ IH Hall]; simpl; constructor; [exact IH|].
  apply Forall_map. exact Hall.
Qed.

Lemma Array_last_In {A} (l : list A) x : Array_last l = Some x -> In x l.
Proof.
  unfold Array_last. destruct (rev l) as [|y l'] eqn:E; [discriminate|].
  intros [= ->]. apply in_rev. rewrite E. now left.
Qed.

Lemma resume_cases LocalTZA priceResult historyResult now w :
  let w' := fetchPriceData_resume LocalTZA priceResult historyResult now w in
  (priceData (hook w') = FALLBACK_ARRAY \/
   exists prices,
     settledValue historyResult = Some prices /\
     monthlyAverages LocalTZA prices = Normal (priceData (hook w'))) /\
  (currentPrice (hook w') = Some fallbackCurrentPrice \/
   (exists v, settledValue priceResult = Some v /\ currentPrice (hook w') = Some v) \/
   (exists prices t p,
      settledValue historyResult = Some prices /\
      Array_last prices = Some (Sample t p) /\
      currentPrice (hook w') = Some (historicalPrice p)) \/
   (exists prices,
      settledValue historyResult = Some prices /\
      Array_last prices = Some EmptyText /\
      currentPrice (hook w') = currentPrice (hook w))) /\
  (content (storage w') = content (storage w) \/
   exists r,
     content (storage w') = Some (Json r) /\
     (exists prices processed,
        settledValue historyResult = Some prices /\
        monthlyAverages LocalTZA prices = Normal processed /\
        Cache.priceData (Cache.data r) = map JSON_point processed) /\
     ((exists v, settledValue priceResult = Some v /\
                 Cache.currentPrice (Cache.data r) = JSON_price v) \/
      (exists prices t p,
         settledValue historyResult = Some prices /\
         Array_last prices = Some (Sample t p) /\
         Cache.currentPrice (Cache.data r) = JSON_price (historicalPrice p)) \/
      (exists prices,
         settledValue historyResult = Some prices /\
         Array_last prices = Some EmptyText /\
         Cache.currentPrice (Cache.data r) = JSON_price (historicalPrice NaN)))).
Proof.
  intros w'. unfold w', fetchPriceData_resume, tryBlock.
  unfold saveToCache, setItem.
  destruct (settledValue historyResult) as [prices|].
  2: { destruct (settledValue priceResult) as [v|]; simpl; repeat split; eauto 12. }
  destruct (monthlyAverages LocalTZA prices) as [processed|r] eqn:E.
  2: { destruct (settledValue priceResult) as [v|]; simpl; repeat split; eauto 12. }
  destruct (0 <? List.length processed)%nat.
  2: { destruct (settledValue priceResult) as [v|]; simpl; repeat split; eauto 12. }
  destruct (Array_last prices) as [[t p| |]|] eqn:El;
    destruct (settledValue priceResult) as [v|];
    destruct (full (storage w)); simpl;
    (split; [eauto 6|split; [eauto 12|]]); auto.
  all: right; eexists; (split; [reflexivity|]); simpl; split; eauto 12.
Qed.

Lemma Math_round_nonNegative x : nonNegative x -> nonNegativeInteger (Math_round x).
Proof.
  intros (q & -> & Hq). exists (Math_round_Q q). split; [|reflexivity].
  unfold Math_round_Q. change 0 with (Qfloor 0).
  apply Qfloor_resp_le. lra.
Qed.

Lemma JSON_price_nonNegative v :
  nonNegativeInteger (CurrentPrice.price v) ->
  nonNegativeInteger (CurrentPrice.price (JSON_price v)).
Proof. intros (z & Hz & E). exists z. split; [exact Hz|]. simpl. now rewrite E. Qed.

Lemma retryLoop_attempted {A} (truthy : A -> bool) fetchFn apiName v :
  forall remaining attempt lastError,
    snd (retryLoop truthy fetchFn apiName remaining attempt lastError) = Fulfilled v ->
    exists k,
      fetchFn k = Fulfilled v /\
      In (Attempt apiName k)
         (fst (retryLoop truthy fetchFn apiName remaining attempt lastError)).
Proof.
  induction remaining as [|remaining IH]; intros attempt lastError; simpl.
  - discriminate.
  - destruct (fetchFn attempt) as [w|[|m]] eqn:E.
    + destruct (truthy w).
      * simpl. intros [= ->]. exists attempt. auto.
      * specialize (IH (S attempt) lastError).
        destruct (retryLoop truthy fetchFn apiName remaining (S attempt) lastError)
          as [tr r].
        simpl in *. intros ->. destruct (IH eq_refl) as (k & Hk & Hin). eauto.
    + discriminate.
    + specialize (IH (S attempt) (Error m)).
      destruct (retryLoop truthy fetchFn apiName remaining (S attempt) (Error m))
        as [tr r].
      simpl in *. intros ->. destruct (IH eq_refl) as (k & Hk & Hin).
      exists k. split; [exact Hk|]. right. apply in_or_app. auto.
Qed.

Lemma retryLoop_result {A} (truthy : A -> bool) fetchFn apiName v :
  forall remaining attempt lastError,
    snd (retryLoop truthy fetchFn apiName remaining attempt lastError) = Fulfilled v ->
    exists k, fetchFn k = Fulfilled v.
Proof.
  intros remaining attempt lastError H.
  destruct (retryLoop_attempted truthy fetchFn apiName v _ _ _ H) as (k & Hk & _).
  eauto.
Qed.

Lemma fetch_fulfilled {B} timeout (r : reply B) response :
  fetch timeout r = Fulfilled response ->
  exists latency,
    r = Responded latency (ok response) (status response) (body response) /\
    latency < timeout.
Proof.
  destruct r as [m|latency o s b]; simpl; [discriminate|].
  destruct (Z.ltb_spec latency timeout); [|discriminate].
  intros [= <-]. simpl. eauto.
Qed.

Lemma json_fulfilled {B} (response : Response B) data :
  json response = Fulfilled data -> body response = Some data.
Proof. unfold json. destruct (body response); [|discriminate]. now intros [= ->]. Qed.

(** What an adapter read when its request was answered. *)
Lemma answered {B} (r : reply B) response data :
  fetch REQUEST_TIMEOUT r = Fulfilled response ->
  negb (ok response) = false ->
  json response = Fulfilled data ->
  exists latency status,
    r = Responded latency true status (Some data) /\ latency < REQUEST_TIMEOUT.
Proof.
  intros E Eok Ej. apply fetch_fulfilled in E. destruct E as (latency & E & Hlt).
  apply json_fulfilled in Ej. apply negb_false_iff in Eok.
  rewrite Ej, Eok in E. eauto.
Qed.

Lemma race_body {B} enc (relays : string -> reply B) order url timeout data :
  snd (fetchWithProxyRace enc relays order url timeout) = Fulfilled data ->
  exists proxy latency status,
    In proxy CORS_PROXIES /\
    relays (proxyUrlOf enc proxy url) = Responded latency true status (Some data) /\
    latency < timeout.
Proof.
  unfold fetchWithProxyRace. cbn [snd]. intros H.
  apply Promise_any_fulfilled in H.
  unfold inSettlementOrder in H. apply in_flat_map in H.
  destruct H as (i & _ & Hi).
  destruct (nth_error _ i) as [p|] eqn:En; [|destruct Hi].
  destruct Hi as [->|[]]. apply nth_error_In in En.
  apply in_map_iff in En. destruct En as (proxy & Hp & Hin).
  apply relayFetch_fulfilled in Hp. destruct Hp as (latency & status & Hp & Hlt).
  eauto 6.
Qed.

Lemma firstAccepted_ran cs v :
  snd (firstAccepted cs) = Some v ->
  exists c, In c cs /\ yield c = Some v /\
            incl (effects c) (fst (firstAccepted cs)).
Proof.
  induction cs as [|c cs IH]; simpl; [discriminate|].
  destruct (yield c) as [w|] eqn:E.
  - simpl. intros [= ->]. exists c. split; [auto|]. split; [exact E|].
    apply incl_refl.
  - destruct (firstAccepted cs) as [tr r]. simpl in *.
    intros H. destruct (IH H) as (c' & Hin & Hy & Hincl). exists c'.
    split; [auto|]. split; [exact Hy|]. now apply incl_appr.
Qed.

Lemma firstAccepted_Some cs v :
  snd (firstAccepted cs) = Some v -> exists c, In c cs /\ yield c = Some v.
Proof.
  intros H. destruct (firstAccepted_ran cs v H) as (c & Hin & Hy & _). eauto.
Qed.

Section SaneFacts.
Variable enc : string -> string.
Variable coin : string.
Variable days : Z.
Variable net : network.
Hypothesis Hsane : sane enc coin days net.

Lemma fetchFromCoinCap_ok n v :
  In (Attempt "CoinCap" n) (fst (fetchCurrentPrice enc coin net)) ->
  fetchFromCoinCap (coincap net n) = Fulfilled v ->
  nonNegativeInteger (CurrentPrice.price v).
Proof.
  intros Hmade. unfold fetchFromCoinCap.
  destruct (fetch REQUEST_TIMEOUT (coincap net n)) as [response|e] eqn:E; [|discriminate].
  destruct (negb (ok response)) eqn:Eok; [discriminate|].
  destruct (json response) as [[d|]|e] eqn:Ej; try discriminate.
  intros [= <-]. simpl. apply Math_round_nonNegative.
  destruct (answered _ _ _ E Eok Ej) as (latency & status & Er & Hlt).
  eapply (sane_coincap _ _ _ net Hsane); eassumption.
Qed.

Lemma fetchFromBinance_ok n v :
  In (Attempt "Binance" n) (fst (fetchCurrentPrice enc coin net)) ->
  fetchFromBinance (binance net n) = Fulfilled v ->
  nonNegativeInteger (CurrentPrice.price v).
Proof.
  intros Hmade. unfold fetchFromBinance.
  destruct (fetch REQUEST_TIMEOUT (binance net n)) as [response|e] eqn:E; [|discriminate].
  destruct (negb (ok response)) eqn:Eok; [discriminate|].
  destruct (json response) as [d|e] eqn:Ej; try discriminate.
  intros [= <-]. simpl. apply Math_round_nonNegative.
  destruct (answered _ _ _ E Eok Ej) as (latency & status & Er & Hlt).
  eapply (sane_binance _ _ _ net Hsane); eassumption.
Qed.

Lemma fetchFromKraken_ok n v :
  In (Attempt "Kraken" n) (fst (fetchCurrentPrice enc coin net)) ->
  fetchFromKraken (kraken net n) = Fulfilled v ->
  nonNegativeInteger (CurrentPrice.price v).
Proof.
  intros Hmade. unfold fetchFromKraken.
  destruct (fetch REQUEST_TIMEOUT (kraken net n)) as [response|e] eqn:E; [|discriminate].
  destruct (negb (ok response)) eqn:Eok; [discriminate|].
  destruct (json response) as [d|e] eqn:Ej; try discriminate.
  destruct (0 <? List.length (Kraken.error d))%nat eqn:Eerr; [discriminate|].
  assert (Hnil : Kraken.error d = []).
  { apply Nat.ltb_ge in Eerr. destruct (Kraken.error d); [reflexivity|simpl in Eerr; lia]. }
  destruct (Kraken.result d) as [t|] eqn:Er; [|discriminate].
  destruct (answered _ _ _ E Eok Ej) as (latency & status & Ea & Hlt).
  destruct (Kraken.XXBTZUSD t) as [x|] eqn:E1.
  - intros [= <-]. simpl. apply Math_round_nonNegative.
    eapply (sane_kraken _ _ _ net Hsane); eauto.
  - destruct (Kraken.XBTUSD t) as [x|] eqn:E2; [|discriminate].
    intros [= <-]. simpl. apply Math_round_nonNegative.
    eapply (sane_kraken _ _ _ net Hsane); eauto.
Qed.

Lemma fetchFromCryptoCompare_ok n v :
  In (Attempt "CryptoCompare" n) (fst (fetchCurrentPrice enc coin net)) ->
  fetchFromCryptoCompare (cryptocompare net n) = Fulfilled v ->
  nonNegativeInteger (CurrentPrice.price v).
Proof.
  intros Hmade. unfold fetchFromCryptoCompare.
  destruct (fetch REQUEST_TIMEOUT (cryptocompare net n)) as [response|e] eqn:E;
    [|discriminate].
  destruct (negb (ok response)) eqn:Eok; [discriminate|].
  destruct (json response) as [d|e] eqn:Ej; try discriminate.
  destruct (negb (truthy_number _)); [discriminate|].
  intros [= <-]. simpl. apply Math_round_nonNegative.
  destruct (answered _ _ _ E Eok Ej) as (latency & status & Er & Hlt).
  eapply (sane_cryptocompare _ _ _ net Hsane); eassumption.
Qed.

Lemma viaRetry_ok {B} apiName (adapter : reply B -> outcome CurrentPrice.t) replies v :
  (forall n w, In (Attempt apiName n) (effects (viaRetry apiName adapter replies)) ->
               adapter (replies n) = Fulfilled w ->
               nonNegativeInteger (CurrentPrice.price w)) ->
  yield (viaRetry apiName adapter replies) = Some v ->
  nonNegativeInteger (CurrentPrice.price v).
Proof.
  intros Hadapter. unfold viaRetry, accepted in *. cbn [yield effects] in *.
  destruct (snd (fetchWithRetry _ _ _)) as [w|e] eqn:E; [|discriminate].
  destruct (truthy_number _); [|discriminate]. intros [= <-].
  apply retryLoop_attempted in E. destruct E as (k & Ek & Hin). eauto.
Qed.

Lemma viaRelays_ok v :
  incl (effects (viaRelays enc coin net)) (fst (fetchCurrentPrice enc coin net)) ->
  yield (viaRelays enc coin net) = Some v ->
  nonNegativeInteger (CurrentPrice.price v).
Proof.
  intros Hran. unfold viaRelays in *. cbn [yield effects] in *.
  destruct (snd (fetchWithProxyRace _ _ _ _ _)) as [data|e] eqn:E; [|discriminate].
  destruct (obj_get data coin) as [quote|] eqn:Eq; [|discriminate].
  intros [= <-]. simpl. apply Math_round_nonNegative.
  eapply (sane_coingecko _ _ _ net Hsane); [|exact E|exact Eq].
  apply Hran. cbn. left. reflexivity.
Qed.

Lemma fetchCurrentPrice_ok v :
  settledValue (snd (fetchCurrentPrice enc coin net)) = Some v ->
  nonNegativeInteger (CurrentPrice.price v).
Proof.
  pose proof (fetchCurrentPrice_chain enc coin net) as Hchain.
  assert (Htr : fst (fetchCurrentPrice enc coin net) =
                fst (firstAccepted (candidates enc coin net)))
    by now rewrite Hchain.
  assert (Hr : snd (fetchCurrentPrice enc coin net) =
               Fulfilled (snd (firstAccepted (candidates enc coin net))))
    by now rewrite Hchain.
  rewrite Hr. cbn [settledValue].
  destruct (snd (firstAccepted (candidates enc coin net))) as [w|] eqn:E;
    [|discriminate].
  intros [= ->]. apply firstAccepted_ran in E.
  destruct E as (c & Hin & Hy & Hran). rewrite <- Htr in Hran.
  unfold candidates in Hin.
  destruct Hin as [<-|[<-|[<-|[<-|[<-|[]]]]]].
  - eapply viaRetry_ok; [|exact Hy].
    intros n w Hn. apply fetchFromCoinCap_ok, Hran, Hn.
  - eapply viaRetry_ok; [|exact Hy].
    intros n w Hn. apply fetchFromBinance_ok, Hran, Hn.
  - eapply viaRetry_ok; [|exact Hy].
    intros n w Hn. apply fetchFromKraken_ok, Hran, Hn.
  - eapply viaRetry_ok; [|exact Hy].
    intros n w Hn. apply fetchFromCryptoCompare_ok, Hran, Hn.
  - eapply viaRelays_ok; [exact Hran|exact Hy].
Qed.
End SaneFacts.

Lemma loadFromCache_Some localStorage now d :
  snd (loadFromCache localStorage now) = Normal (Some d) ->
  exists r, content localStorage = Some (Json r) /\ d = Cache.data r.
Proof.
  unfold loadFromCache, getItem. cbn [snd].
  destruct (blocked localStorage); [discriminate|].
  destruct (content localStorage) as [[text|r]|]; simpl; try discriminate.
  destruct (_ <? _); [|discriminate]. intros [= <-]. eauto.
Qed.

Lemma hydrate_cases localStorage now :
  hydrate localStorage now initialState = initialState \/
  exists r,
    content localStorage = Some (Json r) /\
    priceData (hydrate localStorage now initialState) = Cache.priceData (Cache.data r) /\
    currentPrice (hydrate localStorage now initialState)
      = Some (Cache.currentPrice (Cache.data r)).
Proof.
  unfold hydrate.
  destruct (snd (loadFromCache localStorage now)) as [[d|]|e] eqn:E; auto.
  apply loadFromCache_Some in E. destruct E as (r & Hr & ->).
  right. exists r. repeat split. exact Hr.
Qed.

Lemma begin_same w :
  hook (fetchPriceData_begin w) = hook w /\
  storage (fetchPriceData_begin w) = storage w.
Proof. unfold fetchPriceData_begin. destruct (isFetching w); auto. Qed.

Lemma fallbackCurrentPrice_ok : nonNegativeInteger (CurrentPrice.price fallbackCurrentPrice).
Proof. exists 71000. split; [lia|reflexivity]. Qed.

Section InvariantFacts.
Variable LocalTZA : Z -> Z.
Variable enc : string -> string.
Variable coin : string.
Variable days : Z.

Lemma mount_seriesInv localStorage now :
  (forall r, content localStorage = Some (Json r) ->
             seriesOk (Cache.priceData (Cache.data r))) ->
  seriesInv (mount localStorage now).
Proof.
  intros Hs. split; [|exact Hs]. simpl.
  destruct (hydrate_cases localStorage now) as [->|(r & Hr & -> & _)].
  - constructor.
  - auto.
Qed.

Lemma mount_priceInv localStorage now :
  (forall r, content localStorage = Some (Json r) ->
             nonNegativeInteger
               (CurrentPrice.price (Cache.currentPrice (Cache.data r)))) ->
  priceInv (mount localStorage now).
Proof.
  intros Hs. split; [|exact Hs]. simpl.
  destruct (hydrate_cases localStorage now) as [->|(r & Hr & _ & ->)].
  - discriminate.
  - intros cp [= <-]. auto.
Qed.

Lemma step_seriesInv allowed w w' :
  step LocalTZA enc coin days allowed w w' -> seriesInv w -> seriesInv w'.
Proof.
  intros Hstep [Hs Hc]. destruct Hstep as [w|w net now Hrun Hnet|w b f|w now].
  - destruct (begin_same w) as [Eh Es]. split; [now rewrite Eh|now rewrite Es].
  - unfold settle.
    destruct (resume_cases LocalTZA
                (snd (fetchCurrentPrice enc coin net))
                (snd (fetchHistoricalData enc coin days net)) now w)
      as (Hpd & _ & Hst).
    split.
    + destruct Hpd as [->|(prices & _ & Hp)].
      * apply FALLBACK_ARRAY_seriesOk.
      * eapply monthlyAverages_seriesOk; eassumption.
    + intros r Hr. destruct Hst as [E|(r' & E & (prices & processed & _ & Hp & Ep) & _)].
      * apply Hc. now rewrite <- E.
      * rewrite E in Hr. injection Hr as <-. rewrite Ep.
        apply seriesOk_JSON. eapply monthlyAverages_seriesOk; eassumption.
  - split; [exact Hs|exact Hc].
  - now apply mount_seriesInv.
Qed.

Lemma step_priceInv w w' :
  step LocalTZA enc coin days (sane enc coin days) w w' -> priceInv w -> priceInv w'.
Proof.
  intros Hstep [Hs Hc]. destruct Hstep as [w|w net now Hrun Hnet|w b f|w now].
  - destruct (begin_same w) as [Eh Es]. split; [now rewrite Eh|now rewrite Es].
  - unfold settle.
    destruct (resume_cases LocalTZA
                (snd (fetchCurrentPrice enc coin net))
                (snd (fetchHistoricalData enc coin days net)) now w)
      as (_ & Hcp & Hst).
    assert (Hhist : forall prices t p,
               settledValue (snd (fetchHistoricalData enc coin days net)) = Some prices ->
               Array_last prices = Some (Sample t p) ->
               nonNegativeInteger (CurrentPrice.price (historicalPrice p))).
    { intros prices t p Hp Hlast. apply Math_round_nonNegative.
      destruct (sane_chart _ _ _ net Hnet prices _ Hp Hlast)
        as (t' & p' & [= _ <-] & Hnn). exact Hnn. }
    assert (Hpairs : forall prices,
               settledValue (snd (fetchHistoricalData enc coin days net)) = Some prices ->
               Array_last prices = Some EmptyText -> False).
    { intros prices Hp Hlast.
      destruct (sane_chart _ _ _ net Hnet prices _ Hp Hlast)
        as (t' & p' & [=] & _). }
    split.
    + intros cp Hcur.
      destruct Hcp as [E|[(v & Hv & E)|[(prices & t & p & Hp & Hin & E)
                                       |(prices & Hp & Hin & _)]]];
        [| | |destruct (Hpairs _ Hp Hin)];
        rewrite E in Hcur; injection Hcur as <-.
      * apply fallbackCurrentPrice_ok.
      * eapply fetchCurrentPrice_ok; eassumption.
      * eapply Hhist; eassumption.
    + intros r Hr.
      destruct Hst as [E|(r' & E & _ & [(v & Hv & Ev)|[(prices & t & p & Hp & Hin & Ev)
                                                      |(prices & Hp & Hin & _)]])].
      * apply Hc. now rewrite <- E.
      * rewrite E in Hr. injection Hr as <-. rewrite Ev.
        apply JSON_price_nonNegative. eapply fetchCurrentPrice_ok; eassumption.
      * rewrite E in Hr. injection Hr as <-. rewrite Ev.
        apply JSON_price_nonNegative. eapply Hhist; eassumption.
      * destruct (Hpairs _ Hp Hin).
  - split; [exact Hs|exact Hc].
  - now apply mount_priceInv.
Qed.

Lemma reachable_seriesInv allowed w :
  reachable LocalTZA enc coin days allowed w -> seriesInv w.
Proof.
  induction 1 as [b f now|w w' _ IH Hstep].
  - apply mount_seriesInv. discriminate.
  - eapply step_seriesInv; eassumption.
Qed.

Lemma reachable_priceInv w :
  reachable LocalTZA enc coin days (sane enc coin days) w -> priceInv w.
Proof.
  induction 1 as [b f now|w w' _ IH Hstep].
  - apply mount_priceInv. discriminate.
  - eapply step_priceInv; eassumption.
Qed.
End InvariantFacts.

Lemma seriesOk_NoDup l : seriesOk l -> NoDup (map month l).
Proof.
  induction 1 as [|a l _ IH Hall]; simpl; constructor; [|exact IH].
  intros Hin. apply in_map_iff in Hin. destruct Hin as (b & Eb & Hb).
  rewrite Forall_forall in Hall. specialize (Hall b Hb).
  rewrite Eb in Hall. unfold localeCompare in Hall.
  assert (E : String.compare (month a) (month a) = Eq)
    by now apply String_as_OT.cmp_eq.
  congruence.
Qed.

(** C9 (as amended). In every reachable state the series is ascending by
    month without repeated months; the current price, when present, is a
    non-negative integer provided every price a cycle read for it was a
    finite number that is not negative: the price in each answer an attempt
    of the resolver received ok, in time and parsed, the quote in the body
    the race of the relays returned, and the price of the pair the chart
    ended in. *)
Theorem exposed_state_invariant (LocalTZA : Z -> Z) (enc : string -> string)
    (coin : string) (days : Z) :
  (forall allowed w,
      reachable LocalTZA enc coin days allowed w ->
      StronglySorted (fun a b => localeCompare (month a) (month b) = Lt)
        (priceData (hook w)) /\
      NoDup (map month (priceData (hook w)))) /\
  (forall w,
      reachable LocalTZA enc coin days (sane enc coin days) w ->
      forall cp, currentPrice (hook w) = Some cp ->
                 exists z, 0 <= z /\ CurrentPrice.price cp = Num (inject_Z z)).
Proof.
  split.
  - intros allowed w Hr.
    apply reachable_seriesInv in Hr. destruct Hr as [Hs _].
    split; [exact Hs|now apply seriesOk_NoDup].
  - intros w Hr. apply reachable_priceInv in Hr. apply Hr.
Qed.

Lemma coincapQuotes_sane enc coin days q :
  (0 <= q)%Q -> sane enc coin days (coincapQuotes q).
Proof.
  intros Hq. constructor.
  - intros n latency status d _ [= _ _ <-] _. simpl. now exists q.
  - intros n latency status d _ [= _ _ <-] _. simpl.
    exists 50000%Q. split; [reflexivity|]. discriminate.
  - intros n latency status d t x _ H. discriminate H.
  - intros n latency status d _ H. discriminate H.
  - intros url data quote _ H. discriminate H.
  - intros prices e H. discriminate H.
Qed.

(** After CoinCap quotes 43000.40 the price shown is the integer 43000. *)
Lemma exposed_state_invariant_witness :
  let w :=
    settle UTC noEncoding "bitcoin" 2555 (coincapQuotes (430004 # 10)) 5
      (fetchPriceData_begin (mount nowhere 0)) in
  NoDup (map month (priceData (hook w))) /\
  exists z, 0 <= z /\
    CurrentPrice.price
      {| CurrentPrice.price := Num (inject_Z 43000);
         CurrentPrice.change24h := Some (Num 0);
         CurrentPrice.source := Some "coincap" |} = Num (inject_Z z).
Proof.
  cbv zeta.
  assert (Hr : reachable UTC noEncoding "bitcoin" 2555
                 (sane noEncoding "bitcoin" 2555)
                 (settle UTC noEncoding "bitcoin" 2555 (coincapQuotes (430004 # 10)) 5
                    (fetchPriceData_begin (mount nowhere 0)))).
  { eapply reachable_step.
    - eapply reachable_step; [apply (reachable_mount _ _ _ _ _ false false 0)|].
      apply step_trigger.
    - apply step_settle; [vm_compute; lia|].
      apply coincapQuotes_sane. discriminate. }
  destruct (exposed_state_invariant UTC noEncoding "bitcoin" 2555) as [Hseries Hprice].
  split.
  - apply (Hseries (sane noEncoding "bitcoin" 2555) _ Hr).
  - apply (Hprice _ Hr). vm_compute. reflexivity.
Defined.

(** C9 (counterexample). CoinCap quotes -5: the current price shown is -5. *)
Lemma negative_quote_counterexample :
  let w :=
    settle UTC noEncoding "bitcoin" 2555 (coincapQuotes (-5)) 5
      (fetchPriceData_begin (mount nowhere 0)) in
  reachable UTC noEncoding "bitcoin" 2555 anyNetwork w /\
  currentPrice (hook w) =
    Some {| CurrentPrice.price := Num (inject_Z (-5));
            CurrentPrice.change24h := Some (Num 0);
            CurrentPrice.source := Some "coincap" |} /\
  ~ nonNegativeInteger (Num (inject_Z (-5))).
Proof.
  cbv zeta. split; [|split].
  - eapply reachable_step.
    + eapply reachable_step; [apply (reachable_mount _ _ _ _ _ false false 0)|].
      apply step_trigger.
    + apply step_settle; [vm_compute; lia|exact I].
  - vm_compute. reflexivity.
  - intros (z & Hz & E). injection E as E. lia.
Qed.

(** CoinCap fails twice and answers the third attempt: two sleeps of 1s and 2s. *)
Lemma retry_backoff_contract_witness :
  fetchWithRetry isObject (fun n => fetchFromCoinCap (coincap coincapThirdTime n)) "CoinCap"
  = ([Attempt "CoinCap" 0; Sleep (Some 1000); Attempt "CoinCap" 1; Sleep (Some 2000);
      Attempt "CoinCap" 2],
     Fulfilled {| CurrentPrice.price := Num (inject_Z 43000);
                  CurrentPrice.change24h := Some (Num 0);
                  CurrentPrice.source := Some "coincap" |}).
Proof.
  destruct retry_backoff_contract as (Hany & _).
  pose proof (Hany _ (fun n => fetchFromCoinCap (coincap coincapThirdTime n)) "CoinCap")
    as Hc.
  unfold retryContract in Hc.
  destruct (fetchWithRetry isObject
              (fun n => fetchFromCoinCap (coincap coincapThirdTime n)) "CoinCap")
    as [tr r].
  destruct Hc as (_ & Hfirst & _).
  - intros n. unfold coincapThirdTime. cbn [coincap].
    destruct (n <? 2)%nat; vm_compute; discriminate.
  - destruct (Hfirst 2%nat
                {| CurrentPrice.price := Num (inject_Z 43000);
                   CurrentPrice.change24h := Some (Num 0);
                   CurrentPrice.source := Some "coincap" |}) as [-> ->].
    + vm_compute. lia.
    + intros j Hj. exists (Error "Failed to fetch").
      assert (E : j = 0%nat \/ j = 1%nat) by lia.
      destruct E as [-> | ->]; reflexivity.
    + vm_compute. reflexivity.
    + reflexivity.
Defined.

(** A fetch function that always resolves to 0. *)
Lemma retry_all_falsy_rejects_undefined_witness :
  fetchWithRetry (fun n : nat => negb (n =? 0)%nat) (fun _ => Fulfilled 0%nat) "Idle"
  = ([Attempt "Idle" 0; Attempt "Idle" 1; Attempt "Idle" 2; Attempt "Idle" 3],
     Rejected Undefined).
Proof.
  apply (retry_all_falsy_rejects_undefined nat
           (fun n : nat => negb (n =? 0)%nat) (fun _ => Fulfilled 0%nat) "Idle").
  intros k _. exists 0%nat. split; reflexivity.
Defined.

(** The third relay settles first and wins; the first is down. *)
Lemma proxy_race_first_success_witness :
  snd (fetchWithProxyRace noEncoding (firstRelayDown 7) [2; 0; 1]%nat
         "https://api.coingecko.com/api/v3/ping" 5000)
  = Fulfilled 7.
Proof.
  assert (Hperm : Permutation [2; 0; 1]%nat [0; 1; 2]%nat).
  { eapply perm_trans; [apply perm_swap|]. apply perm_skip, perm_swap. }
  destruct (proxy_race_first_success noEncoding (firstRelayDown 7) [2; 0; 1]%nat
              "https://api.coingecko.com/api/v3/ping" 5000 Hperm)
    as (_ & _ & _ & _ & Hwin).
  apply (Hwin [] 2%nat [0; 1]%nat "https://api.codetabs.com/v1/proxy?quest=" 7).
  - reflexivity.
  - reflexivity.
  - vm_compute. reflexivity.
  - intros i p [].
Defined.

(** CoinCap answers at once: its result is returned and Binance is never called. *)
Lemma resolver_first_truthy_price_witness :
  snd (fetchCurrentPrice noEncoding "bitcoin" (coincapQuotes (430004 # 10)))
  = Fulfilled (Some {| CurrentPrice.price := Num (inject_Z 43000);
                       CurrentPrice.change24h := Some (Num 0);
                       CurrentPrice.source := Some "coincap" |}) /\
  existsb (invokes "Binance")
    (fst (fetchCurrentPrice noEncoding "bitcoin" (coincapQuotes (430004 # 10)))) = false.
Proof.
  destruct (resolver_first_truthy_price noEncoding "bitcoin" (coincapQuotes (430004 # 10)))
    as (_ & _ & _ & Hfirst & _).
  destruct (Hfirst []
              (viaRetry "CoinCap" fetchFromCoinCap (coincap (coincapQuotes (430004 # 10))))
              [ viaRetry "Binance" fetchFromBinance (binance (coincapQuotes (430004 # 10)));
                viaRetry "Kraken" fetchFromKraken (kraken (coincapQuotes (430004 # 10)));
                viaRetry "CryptoCompare" fetchFromCryptoCompare
                  (cryptocompare (coincapQuotes (430004 # 10)));
                viaRelays noEncoding "bitcoin" (coincapQuotes (430004 # 10)) ]
              {| CurrentPrice.price := Num (inject_Z 43000);
                 CurrentPrice.change24h := Some (Num 0);
                 CurrentPrice.source := Some "coincap" |})
    as (Hr & _ & _).
  - reflexivity.
  - constructor.
  - vm_compute. reflexivity.
  - split; [exact Hr|]. vm_compute. reflexivity.
Defined.

(** ** Further properties: the cache *)

Lemma JSON_number_writable x : writable x -> JSON_number x = x.
Proof. intros [->|[q ->]]; reflexivity. Qed.

Lemma JSON_point_writable l :
  Forall (fun pp => writable (price pp)) l -> map JSON_point l = l.
Proof.
  induction 1 as [|[m x] l Hx _ IH]; [reflexivity|].
  cbn [map]. rewrite IH. unfold JSON_point. cbn [month price] in *.
  now rewrite (JSON_number_writable x Hx).
Qed.

Lemma JSON_price_writable cp : writablePrice cp -> JSON_price cp = cp.
Proof.
  destruct cp as [x c s]. intros [Hx Hc]. cbn in Hx, Hc.
  unfold JSON_price. cbn. rewrite (JSON_number_writable x Hx).
  destruct c as [y|]; [|reflexivity].
  destruct (Hc y eq_refl) as [q ->]. reflexivity.
Qed.

Lemma load_after_save localStorage now later priceData currentPrice :
  blocked localStorage = false ->
  full localStorage = false ->
  loadFromCache (fst (saveToCache localStorage now priceData currentPrice)) later =
    (fst (saveToCache localStorage now priceData currentPrice),
     if later - now <? CACHE_TTL
     then Normal (Some {| Cache.priceData := map JSON_point priceData;
                          Cache.currentPrice := JSON_price currentPrice |})
     else Normal None).
Proof.
  intros Hb Hf. unfold saveToCache, setItem. rewrite Hf.
  unfold loadFromCache, getItem. cbn. rewrite Hb. cbn.
  now destruct (_ <? _).
Qed.

(** X1. What [loadFromCache] returns for the next [CACHE_TTL] milliseconds
    after [saveToCache], and no longer, is the snapshot as [JSON.stringify]
    wrote it, whatever the storage held before: the months and the source
    tag as saved, each number as saved unless it is [NaN] or infinite, which
    comes back as [null]. *)
Theorem cache_round_trip (localStorage : Storage) (now later : Z)
    (priceData : list PricePoint) (currentPrice : CurrentPrice.t) :
  blocked localStorage = false ->
  full localStorage = false ->
  let saved := fst (saveToCache localStorage now priceData currentPrice) in
  let loaded :=
    {| Cache.priceData := map JSON_point priceData;
       Cache.currentPrice := JSON_price currentPrice |} in
  (later - now < CACHE_TTL -> snd (loadFromCache saved later) = Normal (Some loaded)) /\
  (CACHE_TTL <= later - now -> snd (loadFromCache saved later) = Normal None) /\
  (map month (Cache.priceData loaded) = map month priceData /\
   map price (Cache.priceData loaded) = map JSON_number (map price priceData) /\
   CurrentPrice.price (Cache.currentPrice loaded) =
     JSON_number (CurrentPrice.price currentPrice) /\
   CurrentPrice.change24h (Cache.currentPrice loaded) =
     JSON_optional (CurrentPrice.change24h currentPrice) /\
   CurrentPrice.source (Cache.currentPrice loaded) = CurrentPrice.source currentPrice) /\
  (forall x, JSON_number x = x \/
             (JSON_number x = Null /\ (x = NaN \/ x = Infinity \/ x = NegInfinity))) /\
  (Forall (fun pp => writable (price pp)) priceData ->
   writablePrice currentPrice ->
   loaded = {| Cache.priceData := priceData; Cache.currentPrice := currentPrice |}).
Proof.
  intros Hb Hf saved loaded. unfold saved.
  rewrite (load_after_save localStorage now later _ _ Hb Hf). cbn [snd].
  split; [intros H; apply Z.ltb_lt in H; now rewrite H|].
  split; [intros H; apply Z.ltb_ge in H; now rewrite H|].
  split.
  { unfold loaded. cbn [Cache.priceData Cache.currentPrice].
    rewrite !map_map. repeat split. }
  split; [intros [| | | |q]; simpl; auto 6|].
  intros Hl Hc. unfold loaded.
  now rewrite (JSON_point_writable _ Hl), (JSON_price_writable _ Hc).
Qed.

(** A snapshot written over another one at 5000 is read at 64999 and gone at
    65000; a series whose only price is [NaN] comes back with [null]. *)
Lemma cache_round_trip_witness :
  let before :=
    {| content := Some (Unparseable "{"); blocked := false; full := false |} in
  let saved := fst (saveToCache before 5000 FALLBACK_ARRAY fallbackCurrentPrice) in
  let lossy :=
    fst (saveToCache before 5000 [{| month := "NaN-NaN"; price := NaN |}]
           (historicalPrice NaN)) in
  snd (loadFromCache saved 64999) =
    Normal (Some {| Cache.priceData := FALLBACK_ARRAY;
                    Cache.currentPrice := fallbackCurrentPrice |}) /\
  snd (loadFromCache saved 65000) = Normal None /\
  snd (loadFromCache lossy 64999) =
    Normal (Some {| Cache.priceData := [{| month := "NaN-NaN"; price := Null |}];
                    Cache.currentPrice :=
                      {| CurrentPrice.price := Null;
                         CurrentPrice.change24h := None;
                         CurrentPrice.source := None |} |}).
Proof.
  cbv zeta.
  destruct (cache_round_trip
              {| content := Some (Unparseable "{"); blocked := false; full := false |}
              5000 64999 FALLBACK_ARRAY fallbackCurrentPrice eq_refl eq_refl)
    as (Hfresh & _).
  destruct (cache_round_trip
              {| content := Some (Unparseable "{"); blocked := false; full := false |}
              5000 65000 FALLBACK_ARRAY fallbackCurrentPrice eq_refl eq_refl)
    as (_ & Hstale & _).
  destruct (cache_round_trip
              {| content := Some (Unparseable "{"); blocked := false; full := false |}
              5000 64999 [{| month := "NaN-NaN"; price := NaN |}]
              (historicalPrice NaN) eq_refl eq_refl)
    as (Hlossy & _).
  split; [etransitivity; [apply Hfresh; reflexivity|reflexivity]|].
  split; [apply Hstale; discriminate|].
  etransitivity; [apply Hlossy; reflexivity|reflexivity].
Defined.

(** ** Further properties: the bucketing loop *)

Lemma accumulate_keyAndPrice LocalTZA m e :
  e <> NotIterable -> exists m', accumulate LocalTZA m e = Normal m'.
Proof.
  intros He. rewrite (accumulate_asSample LocalTZA m e He).
  destruct (asSample e) as [t p]. unfold accumulate, toEntry, keyAndPrice.
  cbn [fst snd].
  destruct (obj_get m (monthKey LocalTZA t)) as [b|] eqn:E.
  - rewrite E. eexists. reflexivity.
  - rewrite obj_get_set_same. eexists. reflexivity.
Qed.

Lemma forEach_accumulate_throws LocalTZA prices :
  forall m,
    (exists r, forEach (accumulate LocalTZA) prices m = Throw r) <->
    In NotIterable prices.
Proof.
  induction prices as [|e prices IH]; intros m; simpl.
  - split; [intros [r [=]]|tauto].
  - destruct e as [t p| |].
    + destruct (accumulate_keyAndPrice LocalTZA m (Sample t p)) as [m' ->];
        [discriminate|].
      rewrite IH. split; [auto|]. intros [[=]|H]; exact H.
    + destruct (accumulate_keyAndPrice LocalTZA m EmptyText) as [m' ->];
        [discriminate|].
      rewrite IH. split; [auto|]. intros [[=]|H]; exact H.
    + simpl. split; [auto|eauto].
Qed.

Lemma NotIterable_forallb (prices : list entry) :
  In NotIterable prices <-> forallb isIterable prices = false.
Proof.
  induction prices as [|[t p| |] prices IH]; simpl.
  - split; [tauto|discriminate].
  - rewrite <- IH. split; [intros [[=]|H]; exact H|auto].
  - rewrite <- IH. split; [intros [[=]|H]; exact H|auto].
  - split; auto.
Qed.

(** X2. The bucketing throws exactly when some element of the series cannot
    be destructured as a [[timestamp, price]] pair (it is not iterable); on
    every other series, the empty one included, it returns normally. *)
Theorem bucketing_throws_iff_malformed (LocalTZA : Z -> Z) (prices : list entry) :
  ((exists r, monthlyAverages LocalTZA prices = Throw r) <-> In NotIterable prices) /\
  ((exists processed, monthlyAverages LocalTZA prices = Normal processed) <->
   forallb isIterable prices = true) /\
  monthlyAverages LocalTZA [] = Normal [].
Proof.
  assert (Hthrow : (exists r, monthlyAverages LocalTZA prices = Throw r) <->
                   In NotIterable prices).
  { rewrite <- (forEach_accumulate_throws LocalTZA prices []).
    unfold monthlyAverages, monthlyBuckets.
    destruct (forEach (accumulate LocalTZA) prices []) as [m|r].
    - split; intros [r [=]].
    - split; eauto. }
  split; [exact Hthrow|]. split; [|reflexivity].
  destruct (monthlyAverages LocalTZA prices) as [processed|r] eqn:E.
  - split; [intros _|eauto].
    destruct (forallb isIterable prices) eqn:Ef; [reflexivity|].
    apply NotIterable_forallb, Hthrow in Ef. destruct Ef as [r [=]].
  - split; [intros [processed [=]]|].
    intros Hall. assert (Hn : In NotIterable prices) by (apply Hthrow; eauto).
    apply NotIterable_forallb in Hn. congruence.
Qed.

(** ** Further properties: what a cycle leaves *)

Lemma resume_with_series LocalTZA priceResult samples t p now w :
  let prices := map toEntry (samples ++ [(t, p)])%list in
  let shown :=
    match settledValue priceResult with
    | Some value => value
    | None => historicalPrice p
    end in
  let w' := fetchPriceData_resume LocalTZA priceResult (Fulfilled (Some prices)) now w in
  exists processed,
    monthlyAverages LocalTZA prices = Normal processed /\
    processed <> [] /\
    hook w' =
      {| priceData := processed;
         currentPrice := Some shown;
         loading := false;
         error := None;
         lastUpdated := Some now;
         isLive := true;
         dataSource :=
           match settledValue priceResult with
           | Some value => Some (sourceOrApi (CurrentPrice.source value))
           | None => dataSource (hook w)
           end |} /\
    storage w' = fst (saveToCache (storage w) now processed shown) /\
    isFetching w' = false.
Proof.
  intros prices shown w'.
  destruct (monthlyAverages_nonempty LocalTZA samples t p) as (processed & E & Hlen).
  fold prices in E. exists processed. split; [exact E|].
  split; [destruct processed; [discriminate|discriminate]|].
  assert (Hlast : Array_last prices = Some (Sample t p)).
  { unfold prices. rewrite map_app. apply Array_last_snoc. }
  unfold w', shown, fetchPriceData_resume, tryBlock. cbn [settledValue].
  rewrite E, Hlen, Hlast.
  destruct (settledValue priceResult) as [value|]; cbn; repeat split.
Qed.

(** X3. When the resolver yields a price and the historical fetch a series,
    the hook shows the bucketed series and the live price, marks the data
    live, tags it with the provider, and caches both. *)
Theorem live_price_with_series (LocalTZA : Z -> Z)
    (priceResult : outcome (option CurrentPrice.t)) (value : CurrentPrice.t)
    (samples : list (Z * number)) (t : Z) (p : number) (now : Z) (w : world) :
  settledValue priceResult = Some value ->
  let prices := map toEntry (samples ++ [(t, p)])%list in
  let w' := fetchPriceData_resume LocalTZA priceResult (Fulfilled (Some prices)) now w in
  monthlyAverages LocalTZA prices = Normal (priceData (hook w')) /\
  currentPrice (hook w') = Some value /\
  isLive (hook w') = true /\
  dataSource (hook w') = Some (sourceOrApi (CurrentPrice.source value)) /\
  storage w' = fst (saveToCache (storage w) now (priceData (hook w')) value).
Proof.
  intros Hv prices w'.
  destruct (resume_with_series LocalTZA priceResult samples t p now w)
    as (processed & E & _ & Hhook & Hst & _).
  fold prices in E, Hhook, Hst. fold w' in Hhook, Hst.
  rewrite Hv in Hhook, Hst. rewrite Hhook, Hst. cbn. repeat split. exact E.
Qed.


(** X5. When the resolver yields a price and the historical fetch fails, the
    hook shows the live price over the fallback series, marks the data live,
    and leaves the cache as it was. *)
Theorem live_price_over_fallback_series (LocalTZA : Z -> Z)
    (priceResult : outcome (option CurrentPrice.t))
    (historyResult : outcome (option (list entry)))
    (value : CurrentPrice.t) (now : Z) (w : world) :
  settledValue priceResult = Some value ->
  settledValue historyResult = None ->
  let w' := fetchPriceData_resume LocalTZA priceResult historyResult now w in
  priceData (hook w') = FALLBACK_ARRAY /\
  currentPrice (hook w') = Some value /\
  isLive (hook w') = true /\
  dataSource (hook w') = Some (sourceOrApi (CurrentPrice.source value)) /\
  error (hook w') = None /\
  storage w' = storage w.
Proof.
  intros Hp Hh w'. unfold w', fetchPriceData_resume, tryBlock.
  rewrite Hp, Hh. cbn. repeat split.
Qed.

(** X6. When an element of the series cannot be destructured as a pair, the
    cycle ends in the [catch] block whatever the resolver returned: a live
    price is replaced by the fallback price, the data is marked not live,
    and nothing is cached. *)
Theorem malformed_series_discards_live_price (LocalTZA : Z -> Z)
    (priceResult : outcome (option CurrentPrice.t))
    (historyResult : outcome (option (list entry)))
    (prices : list entry) (now : Z) (w : world) :
  settledValue historyResult = Some prices ->
  In NotIterable prices ->
  let w' := fetchPriceData_resume LocalTZA priceResult historyResult now w in
  priceData (hook w') = FALLBACK_ARRAY /\
  currentPrice (hook w') = Some fallbackCurrentPrice /\
  isLive (hook w') = false /\
  dataSource (hook w') = Some "fallback" /\
  loading (hook w') = false /\
  isFetching w' = false /\
  storage w' = storage w.
Proof.
  intros Hh Hbad w'.
  assert (Hthrow : exists r, monthlyAverages LocalTZA prices = Throw r).
  { unfold monthlyAverages, monthlyBuckets.
    apply (forEach_accumulate_throws LocalTZA prices []) in Hbad.
    destruct Hbad as [r ->]. eauto. }
  destruct Hthrow as [r Hr].
  unfold w', fetchPriceData_resume, tryBlock. rewrite Hh, Hr.
  destruct (settledValue priceResult); cbn; repeat split.
Qed.

(** Binance quotes 51000 and the chart has two samples in January 2024. *)
Lemma live_price_with_series_witness :
  let w' :=
    fetchPriceData_resume UTC (Fulfilled (Some (binanceQuote 51000)))
      (Fulfilled (Some [Sample 1704412800000 (Num 43000); Sample 1705708800000 (Num 43400)]))
      1705708800500 firstCycle in
  currentPrice (hook w') = Some (binanceQuote 51000) /\
  dataSource (hook w') = Some "binance".
Proof.
  cbv zeta.
  destruct (live_price_with_series UTC (Fulfilled (Some (binanceQuote 51000)))
              (binanceQuote 51000) [(1704412800000, Num 43000)] 1705708800000 (Num 43400)
              1705708800500 firstCycle eq_refl)
    as (_ & Hcp & _ & Hsrc & _).
  split; [exact Hcp|exact Hsrc].
Defined.


(** Binance quotes 51000 and no relay serves the chart. *)
Lemma live_price_over_fallback_series_witness :
  let w' :=
    fetchPriceData_resume UTC (Fulfilled (Some (binanceQuote 51000)))
      (Fulfilled None) 1705708800500 firstCycle in
  priceData (hook w') = FALLBACK_ARRAY /\
  currentPrice (hook w') = Some (binanceQuote 51000) /\
  storage w' = nowhere.
Proof.
  cbv zeta.
  destruct (live_price_over_fallback_series UTC
              (Fulfilled (Some (binanceQuote 51000))) (Fulfilled None)
              (binanceQuote 51000) 1705708800500 firstCycle eq_refl eq_refl)
    as (Hpd & Hcp & _ & _ & _ & Hst).
  split; [exact Hpd|]. split; [exact Hcp|].
  etransitivity; [exact Hst|reflexivity].
Defined.

(** Binance quotes 51000 and the second element of the chart is no pair. *)
Lemma malformed_series_discards_live_price_witness :
  let w' :=
    fetchPriceData_resume UTC (Fulfilled (Some (binanceQuote 51000)))
      (Fulfilled (Some [Sample 1704412800000 (Num 43000); NotIterable]))
      1705708800500 firstCycle in
  currentPrice (hook w') = Some fallbackCurrentPrice /\
  isLive (hook w') = false.
Proof.
  cbv zeta.
  destruct (malformed_series_discards_live_price UTC
              (Fulfilled (Some (binanceQuote 51000)))
              (Fulfilled (Some [Sample 1704412800000 (Num 43000); NotIterable]))
              [Sample 1704412800000 (Num 43000); NotIterable] 1705708800500 firstCycle
              eq_refl (or_intror (or_introl eq_refl)))
    as (_ & Hcp & Hlive & _).
  split; [exact Hcp|exact Hlive].
Defined.



(** ** Further properties: the results of the resolver *)

Lemma Math_round_rounded x : rounded (Math_round x).
Proof.
  unfold rounded. destruct x as [| | | |q]; simpl; auto.
  - do 3 right. now exists 0.
  - do 3 right. now exists (Math_round_Q q).
Qed.

Lemma truthy_integer z : truthy_number (Num (inject_Z z)) = true -> z <> 0.
Proof. intros H ->. discriminate H. Qed.

Lemma fetchFromCoinCap_shape r v :
  fetchFromCoinCap r = Fulfilled v ->
  CurrentPrice.source v = Some "coincap" /\
  exists x, CurrentPrice.price v = Math_round x.
Proof.
  unfold fetchFromCoinCap.
  destruct (fetch REQUEST_TIMEOUT r) as [response|e]; [|discriminate].
  destruct (negb (ok response)); [discriminate|].
  destruct (json response) as [[d|]|e]; try discriminate.
  intros [= <-]. simpl. eauto.
Qed.

Lemma fetchFromBinance_shape r v :
  fetchFromBinance r = Fulfilled v ->
  CurrentPrice.source v = Some "binance" /\ CurrentPrice.change24h v = None /\
  exists x, CurrentPrice.price v = Math_round x.
Proof.
  unfold fetchFromBinance.
  destruct (fetch REQUEST_TIMEOUT r) as [response|e]; [|discriminate].
  destruct (negb (ok response)); [discriminate|].
  destruct (json response) as [d|e]; try discriminate.
  intros [= <-]. simpl. eauto.
Qed.

Lemma fetchFromKraken_shape r v :
  fetchFromKraken r = Fulfilled v ->
  CurrentPrice.source v = Some "kraken" /\ CurrentPrice.change24h v = None /\
  exists x, CurrentPrice.price v = Math_round x.
Proof.
  unfold fetchFromKraken.
  destruct (fetch REQUEST_TIMEOUT r) as [response|e]; [|discriminate].
  destruct (negb (ok response)); [discriminate|].
  destruct (json response) as [d|e]; try discriminate.
  destruct (_ <? _)%nat; [discriminate|].
  destruct (Kraken.result d) as [t|]; [|discriminate].
  destruct (Kraken.XXBTZUSD t) as [x|];
    [|destruct (Kraken.XBTUSD t) as [x|]; [|discriminate]];
    intros [= <-]; simpl; eauto.
Qed.

Lemma fetchFromCryptoCompare_shape r v :
  fetchFromCryptoCompare r = Fulfilled v ->
  CurrentPrice.source v = Some "cryptocompare" /\ CurrentPrice.change24h v = None /\
  exists x, CurrentPrice.price v = Math_round x.
Proof.
  unfold fetchFromCryptoCompare.
  destruct (fetch REQUEST_TIMEOUT r) as [response|e]; [|discriminate].
  destruct (negb (ok response)); [discriminate|].
  destruct (json response) as [d|e]; try discriminate.
  destruct (negb _); [discriminate|].
  intros [= <-]. simpl. eauto.
Qed.

Lemma viaRetry_yield {B} apiName (adapter : reply B -> outcome CurrentPrice.t) replies v :
  yield (viaRetry apiName adapter replies) = Some v ->
  truthy_number (CurrentPrice.price v) = true /\
  exists n, adapter (replies n) = Fulfilled v.
Proof.
  unfold viaRetry, accepted. cbn [yield].
  destruct (snd (fetchWithRetry _ _ _)) as [w|e] eqn:E; [|discriminate].
  destruct (truthy_number (CurrentPrice.price w)) eqn:Et; [|discriminate].
  intros [= <-]. split; [exact Et|].
  apply retryLoop_result in E. exact E.
Qed.

Lemma direct_price_nonzero v x :
  truthy_number (CurrentPrice.price v) = true ->
  CurrentPrice.price v = Math_round x ->
  CurrentPrice.price v = Infinity \/ CurrentPrice.price v = NegInfinity \/
  nonZeroInteger (CurrentPrice.price v).
Proof.
  intros Ht Hx. rewrite Hx in *.
  destruct x as [| | | |q]; simpl in *; auto; try discriminate.
  right. right. exists (Math_round_Q q). split; [|reflexivity].
  now apply truthy_integer.
Qed.

(** X8. A result of the resolver carries the tag of one of the five
    providers and a price that [Math.round] returned: an integer, [NaN] or
    an infinity; from the four direct providers the price is an integer
    other than zero or an infinity, and only CoinCap and CoinGecko report a
    24-hour change. *)
Theorem resolver_result_shape (enc : string -> string) (coin : string)
    (net : network) (v : CurrentPrice.t) :
  settledValue (snd (fetchCurrentPrice enc coin net)) = Some v ->
  In (CurrentPrice.source v) providerTags /\
  rounded (CurrentPrice.price v) /\
  (CurrentPrice.source v <> Some "coingecko" ->
   CurrentPrice.price v = Infinity \/ CurrentPrice.price v = NegInfinity \/
   nonZeroInteger (CurrentPrice.price v)) /\
  (CurrentPrice.change24h v <> None ->
   CurrentPrice.source v = Some "coincap" \/ CurrentPrice.source v = Some "coingecko").
Proof.
  rewrite fetchCurrentPrice_chain. cbn [snd settledValue].
  destruct (snd (firstAccepted (candidates enc coin net))) as [w|] eqn:E;
    [|discriminate].
  intros [= ->]. apply firstAccepted_Some in E. destruct E as (c & Hin & Hy).
  unfold candidates in Hin.
  destruct Hin as [<-|[<-|[<-|[<-|[<-|[]]]]]].
  - apply viaRetry_yield in Hy. destruct Hy as (Ht & n & Hn).
    apply fetchFromCoinCap_shape in Hn. destruct Hn as (Hs & x & Hx).
    pose proof (direct_price_nonzero v x Ht Hx) as Hp.
    rewrite Hs. unfold providerTags. simpl.
    repeat split; auto. rewrite Hx. apply Math_round_rounded.
  - apply viaRetry_yield in Hy. destruct Hy as (Ht & n & Hn).
    apply fetchFromBinance_shape in Hn. destruct Hn as (Hs & Hc & x & Hx).
    pose proof (direct_price_nonzero v x Ht Hx) as Hp.
    rewrite Hs, Hc. unfold providerTags. simpl.
    repeat split; auto; [rewrite Hx; apply Math_round_rounded|congruence].
  - apply viaRetry_yield in Hy. destruct Hy as (Ht & n & Hn).
    apply fetchFromKraken_shape in Hn. destruct Hn as (Hs & Hc & x & Hx).
    pose proof (direct_price_nonzero v x Ht Hx) as Hp.
    rewrite Hs, Hc. unfold providerTags. simpl.
    repeat split; auto; [rewrite Hx; apply Math_round_rounded|congruence].
  - apply viaRetry_yield in Hy. destruct Hy as (Ht & n & Hn).
    apply fetchFromCryptoCompare_shape in Hn. destruct Hn as (Hs & Hc & x & Hx).
    pose proof (direct_price_nonzero v x Ht Hx) as Hp.
    rewrite Hs, Hc. unfold providerTags. simpl.
    repeat split; auto 7; [rewrite Hx; apply Math_round_rounded|congruence].
  - unfold viaRelays in Hy. cbn [yield] in Hy.
    destruct (snd (fetchWithProxyRace _ _ _ _ _)) as [data|e]; [|discriminate].
    destruct (obj_get data coin) as [quote|]; [|discriminate].
    injection Hy as <-. unfold providerTags. simpl.
    repeat split; auto 8; [apply Math_round_rounded|congruence].
Qed.

(** CoinCap quotes 43000.40. *)
Lemma resolver_result_shape_witness :
  In (Some "coincap") providerTags /\
  nonZeroInteger (Num (inject_Z 43000)).
Proof.
  destruct (resolver_result_shape noEncoding "bitcoin" (coincapQuotes (430004 # 10))
              {| CurrentPrice.price := Num (inject_Z 43000);
                 CurrentPrice.change24h := Some (Num 0);
                 CurrentPrice.source := Some "coincap" |} eq_refl)
    as (Htag & _ & Hnz & _).
  split; [exact Htag|].
  destruct Hnz as [H|[H|H]]; [discriminate|discriminate|discriminate|exact H].
Defined.

(** ** Further properties: the cost of retrying *)

Lemma retry_bounds {A : Type} (truthy : A -> bool) (fetchFn : nat -> outcome A)
    (apiName : string) :
  let tr := fst (fetchWithRetry truthy fetchFn apiName) in
  (1 <= attemptsMade tr <= MAX_RETRIES + 1)%nat /\
  (sleepsMade tr < attemptsMade tr)%nat /\
  0 <= totalSleep tr <= 7000 /\
  requestsMade tr = 0%nat /\
  Forall configuredDelay tr.
Proof.
  unfold fetchWithRetry, MAX_RETRIES. cbn [retryLoop Nat.add].
  assert (H1 : exists ms, Some 1000 = Some ms /\ In ms RETRY_DELAYS)
    by (exists 1000; simpl; auto).
  assert (H2 : exists ms, Some 2000 = Some ms /\ In ms RETRY_DELAYS)
    by (exists 2000; simpl; auto).
  assert (H4 : exists ms, Some 4000 = Some ms /\ In ms RETRY_DELAYS)
    by (exists 4000; simpl; auto).
  repeat match goal with
    | |- context [match fetchFn ?k with _ => _ end] =>
        destruct (fetchFn k) as [?v|[|?m]]
    | |- context [if truthy ?v then _ else _] => destruct (truthy v)
    end;
  cbn; unfold attemptsMade, sleepsMade, requestsMade; cbn;
  (split; [lia|]); (split; [lia|]); (split; [lia|]); (split; [reflexivity|]);
  repeat constructor; assumption.
Qed.

(** X9. Whatever the fetch function does, the retry wrapper calls it between
    one and four times, sleeps fewer times than it calls (never after the
    last attempt), only for delays of [RETRY_DELAYS] (the index never leaves
    the array), and no more than 7000 ms in total. *)
Theorem retry_cost_bounded (A : Type) (truthy : A -> bool)
    (fetchFn : nat -> outcome A) (apiName : string) :
  let tr := fst (fetchWithRetry truthy fetchFn apiName) in
  (1 <= attemptsMade tr <= MAX_RETRIES + 1)%nat /\
  (sleepsMade tr < attemptsMade tr)%nat /\
  0 <= totalSleep tr <= 7000 /\
  (forall d, In (Sleep d) tr -> exists ms, d = Some ms /\ In ms RETRY_DELAYS).
Proof.
  intros tr.
  destruct (retry_bounds truthy fetchFn apiName) as (Ha & Hs & Ht & _ & Hd).
  fold tr in Ha, Hs, Ht, Hd.
  split; [exact Ha|]. split; [exact Hs|]. split; [exact Ht|].
  intros d Hin. rewrite Forall_forall in Hd. exact (Hd _ Hin).
Qed.

Lemma attemptsMade_app tr1 tr2 :
  attemptsMade (tr1 ++ tr2)%list = (attemptsMade tr1 + attemptsMade tr2)%nat.
Proof. unfold attemptsMade. now rewrite filter_app, length_app. Qed.

Lemma requestsMade_app tr1 tr2 :
  requestsMade (tr1 ++ tr2)%list = (requestsMade tr1 + requestsMade tr2)%nat.
Proof. unfold requestsMade. now rewrite filter_app, length_app. Qed.

Lemma totalSleep_app tr1 tr2 :
  totalSleep (tr1 ++ tr2)%list = totalSleep tr1 + totalSleep tr2.
Proof.
  induction tr1 as [|[n k|[d|]|u] tr1 IH]; simpl; lia.
Qed.

Lemma retryLoop_first {A : Type} (truthy : A -> bool) (fetchFn : nat -> outcome A)
    (apiName : string) remaining attempt lastError :
  exists rest,
    fst (retryLoop truthy fetchFn apiName (S remaining) attempt lastError) =
    Attempt apiName attempt :: rest.
Proof.
  cbn [retryLoop].
  destruct (fetchFn attempt) as [result|[|message]].
  - destruct (truthy result); [cbn; eauto|].
    destruct (retryLoop truthy fetchFn apiName remaining (S attempt) lastError).
    cbn. eauto.
  - cbn. eauto.
  - destruct (retryLoop truthy fetchFn apiName remaining (S attempt) (Error message)).
    cbn. eauto.
Qed.

Lemma viaRetry_cost {B} apiName (adapter : reply B -> outcome CurrentPrice.t) replies :
  let tr := effects (viaRetry apiName adapter replies) in
  (1 <= attemptsMade tr <= 4)%nat /\ 0 <= totalSleep tr <= 7000 /\
  requestsMade tr = 0%nat /\ In (Attempt apiName 0) tr.
Proof.
  cbn [effects viaRetry].
  destruct (retry_bounds isObject (fun n => adapter (replies n)) apiName)
    as (Ha & _ & Ht & Hr & _).
  unfold MAX_RETRIES in Ha. repeat split; try tauto.
  unfold fetchWithRetry, MAX_RETRIES. cbn [Nat.add].
  destruct (retryLoop_first isObject (fun n => adapter (replies n)) apiName
              3 0 Undefined) as [rest ->].
  now left.
Qed.

Lemma viaRelays_cost enc coin net :
  let tr := effects (viaRelays enc coin net) in
  attemptsMade tr = 0%nat /\ totalSleep tr = 0 /\ requestsMade tr = 3%nat /\
  tr = map (fun proxy => Request (proxyUrlOf enc proxy (priceUrl coin))) CORS_PROXIES.
Proof. cbn. auto. Qed.

(** X10. One run of the resolver makes at most sixteen provider attempts,
    the first of them to CoinCap, and sleeps at most 28 s; it contacts the
    relays either not at all or all three of them, one request to each at
    the very end of the run, after each of CoinCap, Binance, Kraken and
    CryptoCompare was attempted. *)
Theorem resolver_cost_bounded (enc : string -> string) (coin : string)
    (net : network) :
  let tr := fst (fetchCurrentPrice enc coin net) in
  (1 <= attemptsMade tr <= 16)%nat /\
  0 <= totalSleep tr <= 28000 /\
  (exists rest, tr = Attempt "CoinCap" 0 :: rest) /\
  (requestsMade tr = 0%nat \/
   (requestsMade tr = 3%nat /\
    exists direct,
      tr = (direct ++ map (fun proxy => Request (proxyUrlOf enc proxy (priceUrl coin)))
                          CORS_PROXIES)%list /\
      requestsMade direct = 0%nat /\
      (4 <= attemptsMade direct)%nat /\
      Forall (fun provider => In (Attempt provider 0) direct) directProviders)).
Proof.
  rewrite fetchCurrentPrice_chain. cbn [fst]. unfold candidates.
  pose proof (viaRetry_cost "CoinCap" fetchFromCoinCap (coincap net)) as (A1 & S1 & R1 & F1).
  pose proof (viaRetry_cost "Binance" fetchFromBinance (binance net)) as (A2 & S2 & R2 & F2).
  pose proof (viaRetry_cost "Kraken" fetchFromKraken (kraken net)) as (A3 & S3 & R3 & F3).
  pose proof (viaRetry_cost "CryptoCompare" fetchFromCryptoCompare (cryptocompare net))
    as (A4 & S4 & R4 & F4).
  pose proof (viaRelays_cost enc coin net) as (A5 & S5 & R5 & E5).
  assert (H0 : exists rest,
             effects (viaRetry "CoinCap" fetchFromCoinCap (coincap net)) =
             Attempt "CoinCap" 0 :: rest).
  { cbn [effects viaRetry]. unfold fetchWithRetry, MAX_RETRIES. cbn [Nat.add].
    apply retryLoop_first. }
  destruct H0 as (rest & H0).
  cbn [firstAccepted].
  remember (effects (viaRetry "CoinCap" fetchFromCoinCap (coincap net))) as e1 in *.
  remember (effects (viaRetry "Binance" fetchFromBinance (binance net))) as e2 in *.
  remember (effects (viaRetry "Kraken" fetchFromKraken (kraken net))) as e3 in *.
  remember (effects (viaRetry "CryptoCompare" fetchFromCryptoCompare
                       (cryptocompare net))) as e4 in *.
  remember (effects (viaRelays enc coin net)) as e5 in *.
  destruct (yield (viaRetry "CoinCap" fetchFromCoinCap (coincap net)));
    [cbn [fst]; split; [lia|]; split; [lia|]; split; [eauto|left; lia]|].
  destruct (yield (viaRetry "Binance" fetchFromBinance (binance net)));
    [cbn [fst]; rewrite ?attemptsMade_app, ?totalSleep_app, ?requestsMade_app;
     split; [lia|]; split; [lia|];
     split; [rewrite H0; cbn; eauto|left; lia]|].
  destruct (yield (viaRetry "Kraken" fetchFromKraken (kraken net)));
    [cbn [fst]; rewrite ?attemptsMade_app, ?totalSleep_app, ?requestsMade_app;
     split; [lia|]; split; [lia|];
     split; [rewrite H0; cbn; eauto|left; lia]|].
  destruct (yield (viaRetry "CryptoCompare" fetchFromCryptoCompare (cryptocompare net)));
    [cbn [fst]; rewrite ?attemptsMade_app, ?totalSleep_app, ?requestsMade_app;
     split; [lia|]; split; [lia|];
     split; [rewrite H0; cbn; eauto|left; lia]|].
  destruct (yield (viaRelays enc coin net)); cbn [fst]; rewrite ?app_nil_r;
    rewrite ?attemptsMade_app, ?totalSleep_app, ?requestsMade_app;
    (split; [lia|]); (split; [lia|]);
    (split; [rewrite H0; cbn; eauto|]);
    right; (split; [lia|]); exists (e1 ++ e2 ++ e3 ++ e4)%list;
    (split; [rewrite E5, <- !app_assoc; reflexivity|]);
    rewrite ?attemptsMade_app, ?requestsMade_app;
    (split; [lia|]); (split; [lia|]);
    unfold directProviders; repeat constructor;
    rewrite ?in_app_iff; auto 6.
Qed.

(** ** Further properties: what a settled cycle leaves *)

Lemma FALLBACK_ARRAY_nonempty : FALLBACK_ARRAY <> [].
Proof. rewrite FALLBACK_ARRAY_form. discriminate. Qed.

Lemma length_positive {A} (l : list A) : (0 <? List.length l)%nat = true -> l <> [].
Proof. destruct l; [discriminate|discriminate]. Qed.

Lemma map_nonempty {A B} (f : A -> B) (l : list A) : l <> [] -> map f l <> [].
Proof. destruct l; [congruence|discriminate]. Qed.

Lemma resume_shape LocalTZA priceResult historyResult now w :
  let w' := fetchPriceData_resume LocalTZA priceResult historyResult now w in
  let unpriced :=
    settledValue priceResult = None /\
    (exists prices,
       settledValue historyResult = Some prices /\
       Array_last prices = Some EmptyText) /\
    currentPrice (hook w') = currentPrice (hook w) in
  (loading (hook w') = false /\ isFetching w' = false /\
   error (hook w') = None /\ lastUpdated (hook w') = Some now) /\
  priceData (hook w') <> [] /\
  (currentPrice (hook w') <> None \/ unpriced) /\
  (content (storage w') = content (storage w) \/
   exists r,
     content (storage w') = Some (Json r) /\
     Cache.timestamp r = now /\
     Cache.priceData (Cache.data r) = map JSON_point (priceData (hook w')) /\
     isLive (hook w') = true /\
     (Some (Cache.currentPrice (Cache.data r)) =
        option_map JSON_price (currentPrice (hook w')) \/
      (unpriced /\
       Cache.currentPrice (Cache.data r) = JSON_price (historicalPrice NaN)))) /\
  (dataSource (hook w') = Some "fallback" \/
   (dataSource (hook w') = dataSource (hook w) /\ isLive (hook w') = true) \/
   (exists v, settledValue priceResult = Some v /\ isLive (hook w') = true /\
              dataSource (hook w') = Some (sourceOrApi (CurrentPrice.source v)))).
Proof.
  intros w' unpriced. unfold unpriced, w', fetchPriceData_resume, tryBlock.
  unfold saveToCache, setItem.
  pose proof FALLBACK_ARRAY_nonempty as Hf.
  destruct (settledValue historyResult) as [prices|];
    [destruct (monthlyAverages LocalTZA prices) as [processed|r] eqn:E;
     [destruct (0 <? List.length processed)%nat eqn:El;
      [apply length_positive in El;
       destruct (Array_last prices) as [[t p| |]|] eqn:Elast|]|]|];
    destruct (settledValue priceResult) as [v|];
    try destruct (full (storage w)); simpl;
    (split; [auto|]); (split; [assumption|]);
    (split;
     [first [left; discriminate
            |right; split; [reflexivity|split; [eauto|reflexivity]]]|]);
    (split;
     [first
        [left; reflexivity
        |right; eexists; split; [reflexivity|]; simpl;
         split; [reflexivity|]; split; [reflexivity|]; split; [reflexivity|];
         first [left; reflexivity
               |right; split;
                [split; [reflexivity|split; [eauto|reflexivity]]|reflexivity]]]
     |first [left; reflexivity
            |right; left; split; reflexivity
            |right; right; eexists; repeat split]]).
Qed.

Lemma monthlyAverages_pairs LocalTZA prices :
  forallb isIterable prices = true ->
  prices <> [] ->
  exists processed,
    monthlyAverages LocalTZA prices = Normal processed /\ processed <> [].
Proof.
  intros Hall Hne.
  destruct (monthlyAverages LocalTZA prices) as [processed|r] eqn:E.
  2: { assert (Hn : In NotIterable prices).
       { apply (forEach_accumulate_throws LocalTZA prices []).
         unfold monthlyAverages, monthlyBuckets in E.
         destruct (forEach (accumulate LocalTZA) prices []); [discriminate|eauto]. }
       apply NotIterable_forallb in Hn. congruence. }
  exists processed. split; [reflexivity|].
  destruct (exists_last Hne) as (front & e & ->).
  pose proof E as E'. unfold monthlyAverages in E'.
  destruct (monthlyBuckets LocalTZA (front ++ [e])) as [m|r] eqn:Em; [|discriminate].
  unfold monthlyBuckets in Em. apply forEach_asSample in Em.
  rewrite map_app in Em. cbn [map] in Em.
  destruct (asSample e) as [t p].
  destruct (monthlyAverages_nonempty LocalTZA (map asSample front) t p)
    as (processed' & E2 & Hlen).
  unfold monthlyAverages, monthlyBuckets in E2. rewrite Em in E2.
  injection E' as <-. injection E2 as <-.
  now apply length_positive.
Qed.

Lemma resume_emptyText LocalTZA priceResult front now w :
  settledValue priceResult = None ->
  forallb isIterable front = true ->
  let prices := (front ++ [EmptyText])%list in
  let w' := fetchPriceData_resume LocalTZA priceResult (Fulfilled (Some prices)) now w in
  exists processed,
    monthlyAverages LocalTZA prices = Normal processed /\
    hook w' =
      {| priceData := processed;
         currentPrice := currentPrice (hook w);
         loading := false;
         error := None;
         lastUpdated := Some now;
         isLive := true;
         dataSource := dataSource (hook w) |} /\
    storage w' = fst (saveToCache (storage w) now processed (historicalPrice NaN)).
Proof.
  intros Hv Hall prices w'.
  destruct (monthlyAverages_pairs LocalTZA prices) as (processed & E & Hne).
  { unfold prices. rewrite forallb_app, Hall. reflexivity. }
  { unfold prices. destruct front; discriminate. }
  exists processed. split; [exact E|].
  assert (Hlen : (0 <? List.length processed)%nat = true)
    by (destruct processed; [congruence|reflexivity]).
  assert (Hlast : Array_last prices = Some EmptyText) by apply Array_last_snoc.
  unfold w', fetchPriceData_resume, tryBlock. cbn [settledValue].
  rewrite Hv, E, Hlen, Hlast. cbn. split; reflexivity.
Qed.

Lemma resolver_tag enc coin net v :
  settledValue (snd (fetchCurrentPrice enc coin net)) = Some v ->
  In (CurrentPrice.source v) providerTags.
Proof.
  rewrite fetchCurrentPrice_chain. cbn [snd settledValue].
  destruct (snd (firstAccepted (candidates enc coin net))) as [w|] eqn:E;
    [|discriminate].
  intros [= ->]. apply firstAccepted_Some in E. destruct E as (c & Hin & Hy).
  unfold candidates in Hin. unfold providerTags.
  destruct Hin as [<-|[<-|[<-|[<-|[<-|[]]]]]].
  - apply viaRetry_yield in Hy. destruct Hy as (_ & n & Hn).
    apply fetchFromCoinCap_shape in Hn. destruct Hn as (-> & _). simpl. auto.
  - apply viaRetry_yield in Hy. destruct Hy as (_ & n & Hn).
    apply fetchFromBinance_shape in Hn. destruct Hn as (-> & _). simpl. auto.
  - apply viaRetry_yield in Hy. destruct Hy as (_ & n & Hn).
    apply fetchFromKraken_shape in Hn. destruct Hn as (-> & _). simpl. auto.
  - apply viaRetry_yield in Hy. destruct Hy as (_ & n & Hn).
    apply fetchFromCryptoCompare_shape in Hn. destruct Hn as (-> & _). simpl. auto.
  - unfold viaRelays in Hy. cbn [yield] in Hy.
    destruct (snd (fetchWithProxyRace _ _ _ _ _)) as [data|e]; [|discriminate].
    destruct (obj_get data coin) as [quote|]; [|discriminate].
    injection Hy as <-. simpl. auto 6.
Qed.

Lemma providerTag_shown tag :
  In tag providerTags -> In (Some (sourceOrApi tag)) dataSources.
Proof.
  unfold providerTags, dataSources.
  intros [<-|[<-|[<-|[<-|[<-|[]]]]]]; simpl; auto 10.
Qed.

Section ShownFacts.
Variable LocalTZA : Z -> Z.
Variable enc : string -> string.
Variable coin : string.
Variable days : Z.
Variable allowed : network -> Prop.

Lemma mount_shownInv localStorage now :
  (forall r, content localStorage = Some (Json r) ->
             Cache.priceData (Cache.data r) <> []) ->
  shownInv (mount localStorage now).
Proof.
  intros Hs. split; [|exact Hs]. simpl.
  destruct (hydrate_cases localStorage now) as [->|(r & Hr & Hp & Hc)].
  - discriminate.
  - intros _. rewrite Hp. auto.
Qed.

Lemma mount_pricedInv localStorage now : pricedInv (mount localStorage now).
Proof.
  unfold pricedInv. simpl.
  destruct (hydrate_cases localStorage now) as [->|(r & Hr & Hp & Hc)].
  - discriminate.
  - intros _. rewrite Hc. discriminate.
Qed.

Lemma mount_sourceInv localStorage now :
  sourceInv (hook (mount localStorage now)).
Proof.
  unfold mount, hydrate, sourceInv, dataSources. cbn [hook].
  destruct (snd (loadFromCache localStorage now)) as [[d|]|e]; simpl;
    repeat split; auto; discriminate.
Qed.

Lemma step_shownInv w w' :
  step LocalTZA enc coin days allowed w w' -> shownInv w -> shownInv w'.
Proof.
  intros Hstep [Hs Hc]. destruct Hstep as [w|w net now Hrun Hnet|w b f|w now].
  - destruct (begin_same w) as [Eh Es]. split; [now rewrite Eh|now rewrite Es].
  - unfold settle.
    destruct (resume_shape LocalTZA
                (snd (fetchCurrentPrice enc coin net))
                (snd (fetchHistoricalData enc coin days net)) now w)
      as (_ & Hshow & _ & Hst & _).
    split; [intros _; exact Hshow|].
    intros r Hr. destruct Hst as [E|(r' & E & _ & Hp & _)].
    + apply Hc. now rewrite <- E.
    + rewrite E in Hr. injection Hr as <-. rewrite Hp.
      apply map_nonempty. exact Hshow.
  - split; [exact Hs|exact Hc].
  - now apply mount_shownInv.
Qed.

Lemma step_sourceInv w w' :
  step LocalTZA enc coin days allowed w w' ->
  sourceInv (hook w) -> sourceInv (hook w').
Proof.
  intros Hstep (He & Hin & Hlive).
  destruct Hstep as [w|w net now Hrun Hnet|w b f|w now].
  - destruct (begin_same w) as [-> _]. repeat split; assumption.
  - unfold settle.
    destruct (resume_shape LocalTZA
                (snd (fetchCurrentPrice enc coin net))
                (snd (fetchHistoricalData enc coin days net)) now w)
      as ((_ & _ & He' & _) & _ & _ & _ & Hsrc).
    split; [exact He'|].
    destruct Hsrc as [E|[(E & El)|(v & Hv & El & E)]]; rewrite E.
    + split; [unfold dataSources; simpl; auto|auto].
    + split; [exact Hin|]. rewrite El. discriminate.
    + split; [|rewrite El; discriminate].
      apply providerTag_shown. eapply resolver_tag. exact Hv.
  - repeat split; assumption.
  - apply mount_sourceInv.
Qed.

Lemma reachable_shownInv w :
  reachable LocalTZA enc coin days allowed w -> shownInv w.
Proof.
  induction 1 as [b f now|w w' _ IH Hstep].
  - apply mount_shownInv. discriminate.
  - eapply step_shownInv; eassumption.
Qed.

Lemma reachable_sourceInv w :
  reachable LocalTZA enc coin days allowed w -> sourceInv (hook w).
Proof.
  induction 1 as [b f now|w w' _ IH Hstep].
  - apply mount_sourceInv.
  - eapply step_sourceInv; eassumption.
Qed.

Lemma step_pricedInv w w' :
  step LocalTZA enc coin days (endsInPair enc coin days) w w' ->
  pricedInv w -> pricedInv w'.
Proof.
  intros Hstep Hp. destruct Hstep as [w|w net now Hrun Hnet|w b f|w now].
  - destruct (begin_same w) as [Eh _]. unfold pricedInv. now rewrite Eh.
  - unfold settle, pricedInv. intros _.
    destruct (resume_shape LocalTZA
                (snd (fetchCurrentPrice enc coin net))
                (snd (fetchHistoricalData enc coin days net)) now w)
      as (_ & _ & [Hc|(_ & (prices & Hh & Hlast) & _)] & _); [exact Hc|].
    destruct (Hnet prices Hh Hlast).
  - exact Hp.
  - apply mount_pricedInv.
Qed.

Lemma reachable_pricedInv w :
  reachable LocalTZA enc coin days (endsInPair enc coin days) w -> pricedInv w.
Proof.
  induction 1 as [b f now|w w' _ IH Hstep].
  - apply mount_pricedInv.
  - eapply step_pricedInv; eassumption.
Qed.
End ShownFacts.

(** X11. Whatever the network answers, a cycle that settles leaves the hook
    not loading, the guard released, no error, the time of the settlement
    and a series that is not empty.  It leaves a current price too, with one
    exception: when no provider yields a price and the chart ends in the
    empty string, the current price keeps the value it had, which on a first
    visit is none.  So in every reachable state a hook that is not loading
    has a series that is not empty, and a current price as long as no chart
    ended in the empty string; a first cycle that meets such a chart leaves
    a hook that is not loading and has no current price. *)
Theorem settled_hook_shows_data (LocalTZA : Z -> Z) (enc : string -> string)
    (coin : string) (days : Z) :
  (forall net now w,
      let w' := settle LocalTZA enc coin days net now w in
      loading (hook w') = false /\ isFetching w' = false /\
      error (hook w') = None /\ lastUpdated (hook w') = Some now /\
      priceData (hook w') <> [] /\
      (currentPrice (hook w') <> None \/
       (settledValue (snd (fetchCurrentPrice enc coin net)) = None /\
        (exists prices,
           settledValue (snd (fetchHistoricalData enc coin days net)) = Some prices /\
           Array_last prices = Some EmptyText) /\
        currentPrice (hook w') = currentPrice (hook w)))) /\
  (forall allowed w,
      reachable LocalTZA enc coin days allowed w ->
      loading (hook w) = false ->
      priceData (hook w) <> []) /\
  (forall w,
      reachable LocalTZA enc coin days (endsInPair enc coin days) w ->
      loading (hook w) = false ->
      currentPrice (hook w) <> None /\ priceData (hook w) <> []) /\
  (forall now,
      let w := settle LocalTZA enc coin days emptyTextChart now firstCycle in
      reachable LocalTZA enc coin days anyNetwork w /\
      loading (hook w) = false /\
      currentPrice (hook w) = None /\
      isLive (hook w) = true).
Proof.
  split; [|split; [|split]].
  - intros net now w w'.
    destruct (resume_shape LocalTZA
                (snd (fetchCurrentPrice enc coin net))
                (snd (fetchHistoricalData enc coin days net)) now w)
      as ((Hl & Hf & He & Hu) & Hp & Hc & _).
    unfold w', settle. auto 7.
  - intros allowed w Hr Hl.
    apply reachable_shownInv in Hr. destruct Hr as [Hs _]. exact (Hs Hl).
  - intros w Hr Hl. split.
    + apply reachable_pricedInv in Hr. exact (Hr Hl).
    + apply reachable_shownInv in Hr. destruct Hr as [Hs _]. exact (Hs Hl).
  - intros now w.
    assert (Hreach : reachable LocalTZA enc coin days anyNetwork w).
    { unfold w. eapply reachable_step.
      + eapply reachable_step; [apply (reachable_mount _ _ _ _ _ false false 0)|].
        apply step_trigger.
      + apply step_settle; [vm_compute; lia|exact I]. }
    split; [exact Hreach|].
    assert (Hprice : settledValue (snd (fetchCurrentPrice enc coin emptyTextChart)) = None)
      by reflexivity.
    assert (Hchart : snd (fetchHistoricalData enc coin days emptyTextChart) =
                     Fulfilled (Some ([Sample 1704412800000 (Num 43000)] ++ [EmptyText])%list))
      by reflexivity.
    destruct (resume_emptyText LocalTZA
                (snd (fetchCurrentPrice enc coin emptyTextChart))
                [Sample 1704412800000 (Num 43000)] now firstCycle Hprice eq_refl)
      as (processed & _ & Hhook & _).
    unfold w, settle. rewrite Hchart, Hhook. cbn. repeat split.
Qed.

(** An offline cycle after a first visit, and one that meets a chart ending
    in the empty string. *)
Lemma settled_hook_shows_data_witness :
  let w := settle UTC noEncoding "bitcoin" 2555 offline 5 firstCycle in
  let w' := settle UTC noEncoding "bitcoin" 2555 emptyTextChart 5 firstCycle in
  (loading (hook w) = false /\ priceData (hook w) <> []) /\
  (loading (hook w') = false /\ currentPrice (hook w') = None).
Proof.
  cbv zeta.
  destruct (settled_hook_shows_data UTC noEncoding "bitcoin" 2555)
    as (Hsettle & Hinv & _ & Hedge).
  split.
  - split; [apply (Hsettle offline 5 firstCycle)|].
    apply (Hinv anyNetwork).
    + eapply reachable_step.
      * eapply reachable_step; [apply (reachable_mount _ _ _ _ _ false false 0)|].
        apply step_trigger.
      * apply step_settle; [vm_compute; lia|exact I].
    + apply (Hsettle offline 5 firstCycle).
  - destruct (Hedge 5) as (_ & Hl & Hc & _). split; [exact Hl|exact Hc].
Defined.

(** X12. In every reachable state the hook reports no error, its source tag
    is absent or one of cache, fallback and the five provider names (never
    the default api), and a hook that is not live carries the fallback tag
    or none yet. *)
Theorem source_tag_known (LocalTZA : Z -> Z) (enc : string -> string)
    (coin : string) (days : Z) (allowed : network -> Prop) (w : world) :
  reachable LocalTZA enc coin days allowed w ->
  error (hook w) = None /\
  In (dataSource (hook w)) dataSources /\
  dataSource (hook w) <> Some "api" /\
  (isLive (hook w) = false ->
   dataSource (hook w) = None \/ dataSource (hook w) = Some "fallback").
Proof.
  intros Hr. apply reachable_sourceInv in Hr. destruct Hr as (He & Hin & Hl).
  split; [exact He|]. split; [exact Hin|]. split; [|exact Hl].
  intros E. rewrite E in Hin. unfold dataSources in Hin. simpl in Hin.
  repeat (destruct Hin as [Hin|Hin]; [discriminate|]). exact Hin.
Qed.

(** After CoinCap quotes 43000.40 the tag is coincap. *)
Lemma source_tag_known_witness :
  let w := settle UTC noEncoding "bitcoin" 2555 (coincapQuotes (430004 # 10)) 5
             firstCycle in
  error (hook w) = None /\ In (dataSource (hook w)) dataSources.
Proof.
  cbv zeta.
  destruct (source_tag_known UTC noEncoding "bitcoin" 2555 anyNetwork
              (settle UTC noEncoding "bitcoin" 2555 (coincapQuotes (430004 # 10)) 5
                 firstCycle)) as (He & Hin & _).
  - eapply reachable_step.
    + eapply reachable_step; [apply (reachable_mount _ _ _ _ _ false false 0)|].
      apply step_trigger.
    + apply step_settle; [vm_compute; lia|exact I].
  - split; [exact He|exact Hin].
Defined.

(** X13. A cycle writes the cache only with what it shows: when the stored
    item changes, the new record is stamped with the time of the settlement,
    the hook is live, and the record holds the series the hook now exposes
    and its current price, both as [JSON.stringify] writes them (a price
    that is [NaN] or infinite as [null]); the series stored is never empty.
    The one exception is the price when no provider yields one and the
    chart ends in the empty string: the hook keeps the current price it
    had, and the record holds a price of [null]. *)
Theorem cache_record_matches_display (LocalTZA : Z -> Z) (enc : string -> string)
    (coin : string) (days : Z) (net : network) (now : Z) (w : world) :
  let w' := settle LocalTZA enc coin days net now w in
  content (storage w') = content (storage w) \/
  exists r,
    content (storage w') = Some (Json r) /\
    Cache.timestamp r = now /\
    Cache.priceData (Cache.data r) = map JSON_point (priceData (hook w')) /\
    map month (Cache.priceData (Cache.data r)) = map month (priceData (hook w')) /\
    Cache.priceData (Cache.data r) <> [] /\
    isLive (hook w') = true /\
    (Some (Cache.currentPrice (Cache.data r)) =
       option_map JSON_price (currentPrice (hook w')) \/
     (settledValue (snd (fetchCurrentPrice enc coin net)) = None /\
      (exists prices,
         settledValue (snd (fetchHistoricalData enc coin days net)) = Some prices /\
         Array_last prices = Some EmptyText) /\
      currentPrice (hook w') = currentPrice (hook w) /\
      Cache.currentPrice (Cache.data r) =
        {| CurrentPrice.price := Null;
           CurrentPrice.change24h := None;
           CurrentPrice.source := None |})).
Proof.
  intros w'.
  destruct (resume_shape LocalTZA
              (snd (fetchCurrentPrice enc coin net))
              (snd (fetchHistoricalData enc coin days net)) now w)
    as (_ & Hp & _ & Hst & _).
  destruct Hst as [E|(r & E & Ht & Hd & Hl & Hc)]; [left; exact E|].
  right. exists r. unfold w', settle.
  split; [exact E|]. split; [exact Ht|]. split; [exact Hd|].
  split; [rewrite Hd, map_map; reflexivity|].
  split; [rewrite Hd; apply map_nonempty; exact Hp|].
  split; [exact Hl|].
  destruct Hc as [Hc|((Hv & Hh & Hsame) & Hc)]; [left; exact Hc|].
  right. rewrite Hc. auto.
Qed.

(** ** Further properties: the order of the month keys *)

Lemma keysAscendFrom_sound count :
  forall from,
    keysAscendFrom count from = true ->
    forall i, from <= i < from + Z.of_nat count ->
              localeCompare (keyAt i) (keyAt (i + 1)) = Lt.
Proof.
  induction count as [|count IH]; intros from H i Hi; [lia|].
  cbn [keysAscendFrom] in H. apply andb_true_iff in H. destruct H as [Hhere Hrest].
  destruct (Z.eq_dec i from) as [->|Hne].
  - unfold String.ltb in Hhere. unfold localeCompare.
    destruct (String.compare (keyAt from) (keyAt (from + 1))); congruence.
  - apply (IH (from + 1) Hrest). lia.
Qed.

Lemma fourDigitYears_ascend : keysAscendFrom (Z.to_nat 107999) 0 = true.
Proof. vm_compute. reflexivity. Qed.

Lemma keyAt_next i :
  0 <= i < 107999 -> localeCompare (keyAt i) (keyAt (i + 1)) = Lt.
Proof.
  intros Hi. apply (keysAscendFrom_sound _ 0 fourDigitYears_ascend). lia.
Qed.

Lemma keyAt_mono i j :
  0 <= i -> i < j -> j <= 107999 -> localeCompare (keyAt i) (keyAt j) = Lt.
Proof.
  intros Hi Hij Hj.
  assert (H : forall n, (0 < n)%nat -> i + Z.of_nat n <= 107999 ->
                        localeCompare (keyAt i) (keyAt (i + Z.of_nat n)) = Lt).
  { induction n as [|n IH]; intros Hn Hle; [lia|].
    destruct n as [|n].
    - apply keyAt_next. lia.
    - apply (localeCompare_Lt_trans _ (keyAt (i + Z.of_nat (S n)))).
      + apply IH; lia.
      + replace (i + Z.of_nat (S (S n))) with (i + Z.of_nat (S n) + 1) by lia.
        apply keyAt_next. lia. }
  replace j with (i + Z.of_nat (Z.to_nat (j - i))) by lia.
  apply H; lia.
Qed.

Lemma keyAt_monthNumber y m :
  0 <= m <= 11 -> keyAt (monthNumber y m) = keyOf y m.
Proof.
  intros Hm. unfold keyAt, monthNumber.
  replace (((y - 1000) * 12 + m) / 12) with (y - 1000)
    by (Z.to_euclidean_division_equations; lia).
  replace (((y - 1000) * 12 + m) mod 12) with m
    by (Z.to_euclidean_division_equations; lia).
  f_equal. f_equal. f_equal. lia.
Qed.

Lemma keyOf_compare y1 m1 y2 m2 :
  1000 <= y1 <= 9999 -> 0 <= m1 <= 11 ->
  1000 <= y2 <= 9999 -> 0 <= m2 <= 11 ->
  localeCompare (keyOf y1 m1) (keyOf y2 m2) =
    match y1 ?= y2 with
    | Eq => m1 ?= m2
    | c => c
    end.
Proof.
  intros Hy1 Hm1 Hy2 Hm2.
  rewrite <- (keyAt_monthNumber y1 m1), <- (keyAt_monthNumber y2 m2) by assumption.
  assert (Hlt : forall ya ma yb mb,
             1000 <= ya <= 9999 -> 0 <= ma <= 11 ->
             1000 <= yb <= 9999 -> 0 <= mb <= 11 ->
             ya < yb \/ (ya = yb /\ ma < mb) ->
             localeCompare (keyAt (monthNumber ya ma)) (keyAt (monthNumber yb mb)) = Lt).
  { intros ya ma yb mb Ha Hma Hb Hmb Hord.
    apply keyAt_mono; unfold monthNumber; lia. }
  destruct (Z.compare_spec y1 y2) as [->|Hy|Hy].
  - destruct (Z.compare_spec m1 m2) as [->|Hm|Hm].
    + now apply localeCompare_Eq.
    + apply Hlt; auto.
    + apply localeCompare_Gt. apply Hlt; auto.
  - apply Hlt; auto.
  - apply localeCompare_Gt. apply Hlt; auto.
Qed.

(** X14. For dates whose local year has four digits the comparison of the
    month keys is the comparison of the months in time: first the years,
    then the months. From the year 10000 on it is not: a key of the year
    10000 sorts before every key of the year 9999. *)
Theorem month_keys_sort_chronologically (LocalTZA : Z -> Z) (t1 t2 : Z) :
  new_Date t1 = Some t1 -> new_Date t2 = Some t2 ->
  let y1 := YearFromTime (LocalTime LocalTZA t1) in
  let y2 := YearFromTime (LocalTime LocalTZA t2) in
  let m1 := MonthFromTime (LocalTime LocalTZA t1) in
  let m2 := MonthFromTime (LocalTime LocalTZA t2) in
  (1000 <= y1 <= 9999 -> 1000 <= y2 <= 9999 ->
   localeCompare (monthKey LocalTZA t1) (monthKey LocalTZA t2) =
     match y1 ?= y2 with
     | Eq => m1 ?= m2
     | c => c
     end) /\
  (y1 = 9999 -> y2 = 10000 ->
   localeCompare (monthKey LocalTZA t2) (monthKey LocalTZA t1) = Lt).
Proof.
  intros V1 V2 y1 y2 m1 m2.
  rewrite !monthKey_valid by assumption. fold y1 y2 m1 m2.
  split.
  - intros Hy1 Hy2.
    apply (keyOf_compare y1 m1 y2 m2); auto; apply MonthFromTime_range.
  - intros -> ->. reflexivity.
Qed.

(** 5 and 20 January 2024 against 10 February 2024, and the first days of
    the years 9999 and 10000. *)
Lemma month_keys_sort_chronologically_witness :
  localeCompare (monthKey UTC 1704412800000) (monthKey UTC 1707523200000) = Lt /\
  localeCompare (monthKey UTC 1704412800000) (monthKey UTC 1705708800000) = Eq /\
  localeCompare (monthKey UTC (DayFromYear 10000 * msPerDay))
                (monthKey UTC (DayFromYear 9999 * msPerDay)) = Lt.
Proof.
  split; [|split].
  - destruct (month_keys_sort_chronologically UTC 1704412800000 1707523200000
                eq_refl eq_refl) as [H _].
    cbv zeta in H. rewrite H; [reflexivity| |]; vm_compute; split; discriminate.
  - destruct (month_keys_sort_chronologically UTC 1704412800000 1705708800000
                eq_refl eq_refl) as [H _].
    cbv zeta in H. rewrite H; [reflexivity| |]; vm_compute; split; discriminate.
  - destruct (month_keys_sort_chronologically UTC
                (DayFromYear 9999 * msPerDay) (DayFromYear 10000 * msPerDay)
                eq_refl eq_refl) as [_ H].
    apply H; vm_compute; reflexivity.
Defined.

(** ** Further properties: the range of the monthly prices *)

Lemma roundHalfEven_nonneg n d : 0 <= n -> 0 <= roundHalfEven n d.
Proof.
  intros Hn. unfold roundHalfEven.
  assert (Hf : 0 <= n / Z.pos d) by (apply Z.div_pos; lia).
  cbv zeta. destruct (_ ?= _); [destruct (Z.even _)| |]; lia.
Qed.

Lemma double_notNegative q : (0 <= q)%Q -> notNegative (double q).
Proof.
  intros Hq. unfold notNegative, double.
  assert (Hn : 0 <= Qnum q).
  { unfold Qle in Hq. simpl in Hq. lia. }
  cbv zeta. destruct (Qnum q =? 0) eqn:E0.
  { right. exists 0%Q. split; [reflexivity|]. apply Qle_refl. }
  apply Z.eqb_neq in E0.
  set (k := Z.max (log2_floor (Z.abs (Qnum q)) (Qden q) - 52) (-1074)).
  destruct (0 <=? k) eqn:Ek.
  - apply Z.leb_le in Ek.
    assert (Hm : 0 <= roundHalfEven (Qnum q) (Qden q * Z.to_pos (2 ^ k)))
      by (apply roundHalfEven_nonneg; exact Hn).
    destruct (2 ^ 1024 <=? _).
    + left. assert (H : (0 <? Qnum q) = true) by (apply Z.ltb_lt; lia).
      now rewrite H.
    + right. eexists. split; [reflexivity|].
      change 0%Q with (inject_Z 0). rewrite <- Zle_Qle.
      apply Z.mul_nonneg_nonneg; [exact Hm|]. apply Z.pow_nonneg. lia.
  - assert (Hm : 0 <= roundHalfEven (Qnum q * 2 ^ (- k)) (Qden q)).
    { apply roundHalfEven_nonneg. apply Z.mul_nonneg_nonneg; [exact Hn|].
      apply Z.pow_nonneg. lia. }
    right. eexists. split; [reflexivity|].
    rewrite Qred_correct. unfold Qle. simpl. lia.
Qed.

Lemma number_add_notNegative x y :
  notNegative x -> notNegative y -> notNegative (number_add x y).
Proof.
  intros [->|(a & -> & Ha)] [->|(b & -> & Hb)]; simpl;
    try (left; reflexivity).
  apply double_notNegative.
  change 0%Q with (0 + 0)%Q. now apply Qplus_le_compat.
Qed.

Lemma floatSum_notNegative l :
  Forall notNegative l -> notNegative (floatSum l).
Proof.
  unfold floatSum.
  assert (H : forall acc, notNegative acc -> Forall notNegative l ->
                          notNegative (fold_left number_add l acc)).
  { induction l as [|x l IH]; intros acc Hacc Hl; [exact Hacc|].
    inversion Hl as [|? ? Hx Hl']; subst. cbn [fold_left].
    apply IH; [|exact Hl']. now apply number_add_notNegative. }
  apply H. right. exists 0%Q. split; [reflexivity|apply Qle_refl].
Qed.

Lemma number_div_notNegative x count :
  0 < count -> notNegative x -> notNegative (number_div x count).
Proof.
  intros Hc [->|(a & -> & Ha)]; unfold number_div; cbn [toNumber].
  - assert (H : (0 <=? count) = true) by (apply Z.leb_le; lia).
    rewrite H. now left.
  - assert (H : (count =? 0) = false) by (apply Z.eqb_neq; lia).
    rewrite H. apply double_notNegative.
    apply Qle_shift_div_l.
    + change 0%Q with (inject_Z 0). rewrite <- Zlt_Qlt. exact Hc.
    + rewrite Qmult_0_l. exact Ha.
Qed.

Lemma Math_round_notNegative x :
  notNegative x -> Math_round x = Infinity \/ nonNegativeInteger (Math_round x).
Proof.
  intros [->|(q & -> & Hq)]; [now left|].
  right. apply Math_round_nonNegative. now exists q.
Qed.

(** X15. When every sample price is a finite number that is not negative,
    every price of the series is a non-negative integer or [Infinity].  The
    sum and the quotient are rounded to doubles: a monthly price can leave
    the range of the samples of its month (five samples of
    1999451424723449600 give 1999451424723449344), and two samples of 1e308
    give [Infinity]. *)
Theorem monthly_prices_not_negative :
  (forall LocalTZA samples processed,
      (forall t p, In (t, p) samples -> nonNegative p) ->
      monthlyAverages LocalTZA (map toEntry samples) = Normal processed ->
      Forall (fun pp => price pp = Infinity \/ nonNegativeInteger (price pp))
             processed) /\
  (let x := Num 1999451424723449600 in
   monthlyAverages UTC (map toEntry [(0, x); (1, x); (2, x); (3, x); (4, x)]) =
   Normal [{| month := "1970-01"; price := Num 1999451424723449344 |}]) /\
  (let x := double (inject_Z (10 ^ 308)) in
   (exists q, x = Num q) /\
   monthlyAverages UTC (map toEntry [(0, x); (1, x)]) =
   Normal [{| month := "1970-01"; price := Infinity |}]).
Proof.
  split; [|split].
  - intros LocalTZA samples processed Hall E.
    destruct (monthlyAverages_spec LocalTZA samples)
      as (processed' & E' & _ & Hkeys & Hprice & _).
    rewrite E in E'. injection E' as <-.
    apply Forall_forall. intros pp Hpp.
    rewrite (Hprice pp Hpp).
    assert (Hin : In (month pp) (map month processed)) by now apply in_map.
    apply Hkeys in Hin. destruct Hin as (t & p & Hs & Hk).
    apply Math_round_notNegative. unfold floatMean.
    apply number_div_notNegative.
    + assert (Hf : In p (pricesOfMonth LocalTZA (month pp) samples)).
      { unfold pricesOfMonth. apply in_map_iff. exists (t, p). split; [reflexivity|].
        apply filter_In. split; [exact Hs|]. simpl. now apply String.eqb_eq. }
      destruct (pricesOfMonth LocalTZA (month pp) samples); [destruct Hf|].
      cbn [List.length]. lia.
    + apply floatSum_notNegative. apply Forall_forall. intros q Hq.
      unfold pricesOfMonth in Hq. apply in_map_iff in Hq.
      destruct Hq as ([t' p'] & <- & Hf). apply filter_In in Hf.
      right. apply (Hall t' p'). apply Hf.
  - vm_compute. reflexivity.
  - split; [eexists|]; vm_compute; reflexivity.
Qed.

(** 5 and 20 January 2024 at 43000 and 43400, 10 February 2024 at 52000. *)
Lemma monthly_prices_not_negative_witness :
  let processed := [ {| month := "2024-01"; price := Num 43200 |};
                     {| month := "2024-02"; price := Num 52000 |} ] in
  monthlyAverages UTC
    (map toEntry [ (1704412800000, Num 43000); (1705708800000, Num 43400);
                   (1707523200000, Num 52000) ]) = Normal processed /\
  Forall (fun pp => price pp = Infinity \/ nonNegativeInteger (price pp)) processed.
Proof.
  cbv zeta. split; [vm_compute; reflexivity|].
  destruct monthly_prices_not_negative as [H _].
  apply (H UTC [ (1704412800000, Num 43000); (1705708800000, Num 43400);
                 (1707523200000, Num 52000) ]).
  - intros t p [[= <- <-]|[[= <- <-]|[[= <- <-]|[]]]];
      eexists; (split; [reflexivity|discriminate]).
  - vm_compute. reflexivity.
Defined.

(** ** Further properties: the historical fetch *)

Lemma proxyUrlOf_configured enc proxy url :
  In proxy CORS_PROXIES -> proxyUrlOf enc proxy url = proxy ++ enc url.
Proof.
  unfold CORS_PROXIES. intros [<-|[<-|[<-|[]]]]; reflexivity.
Qed.

Lemma race_winner_relay {B} enc (relays : string -> reply B) order url timeout data :
  snd (fetchWithProxyRace enc relays order url timeout) = Fulfilled data ->
  exists proxy latency status,
    In proxy CORS_PROXIES /\
    relays (proxy ++ enc url) = Responded latency true status (Some data) /\
    latency < timeout.
Proof.
  unfold fetchWithProxyRace. cbn [snd]. intros H.
  apply Promise_any_fulfilled in H.
  unfold inSettlementOrder in H. apply in_flat_map in H.
  destruct H as (i & _ & Hi).
  destruct (nth_error _ i) as [p|] eqn:En; [|destruct Hi].
  destruct Hi as [->|[]]. apply nth_error_In in En.
  apply in_map_iff in En. destruct En as (proxy & Hp & Hin).
  apply relayFetch_fulfilled in Hp. destruct Hp as (latency & status & Hp & Hlt).
  rewrite (proxyUrlOf_configured enc proxy url Hin) in Hp.
  exists proxy, latency, status. auto.
Qed.

Lemma race_all_fail {B} enc (relays : string -> reply B) order url timeout :
  (forall proxy latency status data,
      In proxy CORS_PROXIES ->
      relays (proxy ++ enc url) = Responded latency true status (Some data) ->
      timeout <= latency) ->
  isRejected (snd (fetchWithProxyRace enc relays order url timeout)).
Proof.
  intros Hfail. unfold fetchWithProxyRace. cbn [snd].
  apply Promise_any_rejected. apply inSettlementOrder_rejected.
  intros i p _ Hn. apply nth_error_In in Hn. apply in_map_iff in Hn.
  destruct Hn as (proxy & <- & Hin).
  destruct (relayFetch enc relays url timeout proxy) as [data|e] eqn:E;
    [|now exists e].
  apply relayFetch_fulfilled in E. destruct E as (latency & status & E & Hlt).
  rewrite (proxyUrlOf_configured enc proxy url Hin) in E.
  specialize (Hfail _ _ _ _ Hin E). lia.
Qed.

(** X16. fetchHistoricalData never rejects. It sends the request to each of
    the three relays, always with the encoded URL; a result other than null
    is a list that is not empty, taken from a relay that answered ok with a
    parsable body in less than 8000 ms; and when no relay does so the result
    is null. *)
Theorem history_fetch_characterised (enc : string -> string) (coin : string)
    (days : Z) (net : network) :
  let url := apiUrl coin days in
  let r := fetchHistoricalData enc coin days net in
  fst r = map (fun proxy => Request (proxy ++ enc url)) CORS_PROXIES /\
  (snd r = Fulfilled None \/
   exists prices proxy latency status chart,
     snd r = Fulfilled (Some prices) /\ prices <> [] /\
     In proxy CORS_PROXIES /\
     chartRelays net (proxy ++ enc url) = Responded latency true status (Some chart) /\
     CoinGecko.prices chart = Some prices /\
     latency < 8000) /\
  ((forall proxy latency status chart,
       In proxy CORS_PROXIES ->
       chartRelays net (proxy ++ enc url) = Responded latency true status (Some chart) ->
       8000 <= latency) ->
   snd r = Fulfilled None).
Proof.
  intros url r. unfold r, fetchHistoricalData. fold url.
  pose proof (race_winner_relay enc (chartRelays net) (chartOrder net) url 8000) as Hwin.
  pose proof (race_all_fail enc (chartRelays net) (chartOrder net) url 8000) as Hfail.
  destruct (fetchWithProxyRace enc (chartRelays net) (chartOrder net) url 8000)
    as [tr o] eqn:E.
  assert (Etr : tr = map (fun proxy => Request (proxy ++ enc url)) CORS_PROXIES).
  { unfold fetchWithProxyRace in E. injection E as <- _. reflexivity. }
  cbn [fst snd] in *. split; [exact Etr|]. split.
  - destruct o as [chart|e]; [|now left].
    destruct (CoinGecko.prices chart) as [prices|] eqn:Ep; [|now left].
    destruct (0 <? List.length prices)%nat eqn:El; [|now left].
    right. destruct (Hwin chart eq_refl) as (proxy & latency & status & Hin & Hr & Hlt).
    exists prices, proxy, latency, status, chart.
    repeat split; auto. now apply length_positive.
  - intros Hall. destruct (Hfail Hall) as [e ->]. reflexivity.
Qed.

(** Nothing answers: three requests and null. *)
Lemma history_fetch_characterised_witness :
  snd (fetchHistoricalData noEncoding "bitcoin" 2555 offline) = Fulfilled None /\
  fst (fetchHistoricalData noEncoding "bitcoin" 2555 offline) =
    map (fun proxy => Request (proxy ++ noEncoding (apiUrl "bitcoin" 2555))) CORS_PROXIES.
Proof.
  destruct (history_fetch_characterised noEncoding "bitcoin" 2555 offline)
    as (Htr & _ & Hnone).
  split; [|exact Htr].
  apply Hnone. intros proxy latency status chart _ H. discriminate H.
Defined.

(** ** Further properties: the size of the series *)

(** X17. Bucketing gives at most one point per sample, and an empty series
    only for an empty chart: after a historical fetch that gave samples the
    test [processed.length > 0] always passes. *)
Theorem series_size (LocalTZA : Z -> Z) (samples : list (Z * number))
    (processed : list PricePoint) :
  monthlyAverages LocalTZA (map toEntry samples) = Normal processed ->
  (List.length processed <= List.length samples)%nat /\
  (processed = [] <-> samples = []).
Proof.
  intros E.
  destruct (monthlyAverages_spec LocalTZA samples)
    as (processed' & E' & Hnd & Hkeys & _).
  rewrite E in E'. injection E' as <-.
  split.
  - rewrite <- (length_map month processed).
    rewrite <- (length_map (fun s => monthKey LocalTZA (fst s)) samples).
    apply NoDup_incl_length; [exact Hnd|].
    intros k Hk. apply Hkeys in Hk. destruct Hk as (t & p & Hin & <-).
    apply in_map_iff. exists (t, p). auto.
  - split.
    + intros ->. destruct samples as [|[t p] samples]; [reflexivity|].
      exfalso.
      assert (H : In (monthKey LocalTZA t) (map month [])).
      { apply Hkeys. exists t, p. split; [now left|reflexivity]. }
      exact H.
    + intros ->. destruct processed as [|pp processed]; [reflexivity|].
      exfalso.
      assert (H : In (month pp) (map month (pp :: processed))) by now left.
      apply Hkeys in H. destruct H as (t & p & [] & _).
Qed.

(** Three samples in two months. *)
Lemma series_size_witness :
  (List.length [ {| month := "2024-01"; price := Num 43200 |};
                 {| month := "2024-02"; price := Num 52000 |} ] <= 3)%nat.
Proof.
  apply (series_size UTC
           [ (1704412800000, Num 43000); (1705708800000, Num 43400);
             (1707523200000, Num 52000) ]
           [ {| month := "2024-01"; price := Num 43200 |};
             {| month := "2024-02"; price := Num 52000 |} ]).
  vm_compute. reflexivity.
Defined.

(** ** The complaints fetcher: one page *)

Lemma fetchPage_cases (buildUrl : Cfpb.Params.t -> string)
    (server : nat -> string -> Cfpb.answer) (served : nat) (params : Cfpb.Params.t) :
  let url := buildUrl params in
  let a0 := Cfpb.request (server served url) in
  let a1 := Cfpb.request (server (S served) url) in
  let a2 := Cfpb.request (server (S (S served)) url) in
  Cfpb.fetchPage buildUrl server served params =
    match a0 with
    | Fulfilled data => (pageTrace url 0, S served, Fulfilled data)
    | Rejected _ =>
        match a1 with
        | Fulfilled data => (pageTrace url 1, S (S served), Fulfilled data)
        | Rejected _ =>
            match a2 with
            | Fulfilled data => (pageTrace url 2, S (S (S served)), Fulfilled data)
            | Rejected e => (pageTrace url 2, S (S (S served)), Rejected e)
            end
        end
    end.
Proof.
  intros url a0 a1 a2. unfold a0, a1, a2, Cfpb.fetchPage, Cfpb.MAX_RETRIES.
  fold url. cbn [Cfpb.fetchPage_from].
  destruct (Cfpb.request (server served url)); [reflexivity|].
  cbn. destruct (Cfpb.request (server (S served) url)); [reflexivity|].
  cbn. destruct (Cfpb.request (server (S (S served)) url)); reflexivity.
Qed.

Lemma fetchPage_cost buildUrl server served params :
  let run := Cfpb.fetchPage buildUrl server served params in
  (1 <= requestsMade (fst (fst run)) <= 3)%nat /\
  snd (fst run) = (served + requestsMade (fst (fst run)))%nat /\
  totalSleep (fst (fst run)) =
    Cfpb.RETRY_DELAY_MS * (Z.of_nat (requestsMade (fst (fst run))) - 1) /\
  forall url, In (Request url) (fst (fst run)) -> url = buildUrl params.
Proof.
  cbv zeta. rewrite fetchPage_cases.
  assert (Hurl : forall k url, In (Request url) (pageTrace (buildUrl params) k) ->
                               url = buildUrl params).
  { induction k as [|k IH]; simpl; intros url [[= <-]|H]; auto.
    - destruct H.
    - destruct H as [[=]|H]. auto. }
  destruct (Cfpb.request (server served (buildUrl params)));
    [|destruct (Cfpb.request (server (S served) (buildUrl params)));
      [|destruct (Cfpb.request (server (S (S served)) (buildUrl params)))]];
    cbn [fst snd]; (split; [|split; [|split; [|apply Hurl]]]);
    unfold requestsMade; cbn; unfold Cfpb.RETRY_DELAY_MS; lia.
Qed.

(** X18. fetchPage requests the same URL at most three times, waiting 2000 ms
    before each retry: the body of the first attempt that answers ok with
    JSON is returned, null included; when all three attempts fail the error
    of the last one is thrown. *)
Theorem fetchPage_contract (buildUrl : Cfpb.Params.t -> string)
    (server : nat -> string -> Cfpb.answer) (served : nat) (params : Cfpb.Params.t) :
  let url := buildUrl params in
  let attempt k := Cfpb.request (server (served + k)%nat url) in
  let run := Cfpb.fetchPage buildUrl server served params in
  (forall k data,
      (k < 3)%nat ->
      (forall j, (j < k)%nat -> isRejected (attempt j)) ->
      attempt k = Fulfilled data ->
      run = (pageTrace url k, (served + k + 1)%nat, Fulfilled data)) /\
  (forall e,
      (forall j, (j < 2)%nat -> isRejected (attempt j)) ->
      attempt 2%nat = Rejected e ->
      run = (pageTrace url 2, (served + 3)%nat, Rejected e)) /\
  (1 <= requestsMade (fst (fst run)) <= 3)%nat /\
  totalSleep (fst (fst run)) = 2000 * (Z.of_nat (requestsMade (fst (fst run))) - 1).
Proof.
  intros url attempt run.
  assert (E0 : attempt 0%nat = Cfpb.request (server served url))
    by (unfold attempt; now rewrite Nat.add_0_r).
  assert (E1 : attempt 1%nat = Cfpb.request (server (S served) url))
    by (unfold attempt; now rewrite Nat.add_1_r).
  assert (E2 : attempt 2%nat = Cfpb.request (server (S (S served)) url))
    by (unfold attempt; now replace (served + 2)%nat with (S (S served)) by lia).
  pose proof (fetchPage_cases buildUrl server served params) as Hrun.
  cbv zeta in Hrun. fold url run in Hrun. rewrite <- E0, <- E1, <- E2 in Hrun.
  split; [|split].
  - intros k data Hk Hfail Hok.
    assert (Hrej : forall j, (j < k)%nat -> exists e, attempt j = Rejected e)
      by exact Hfail.
    destruct k as [|[|[|k]]]; [| | |lia].
    + rewrite Hrun, Hok. repeat f_equal; lia.
    + destruct (Hrej 0%nat) as [e0 H0]; [lia|].
      rewrite Hrun, H0, Hok. repeat f_equal; lia.
    + destruct (Hrej 0%nat) as [e0 H0]; [lia|].
      destruct (Hrej 1%nat) as [e1 H1]; [lia|].
      rewrite Hrun, H0, H1, Hok. repeat f_equal; lia.
  - intros e Hfail Hlast.
    destruct (Hfail 0%nat) as [e0 H0]; [lia|].
    destruct (Hfail 1%nat) as [e1 H1]; [lia|].
    rewrite Hrun, H0, H1, Hlast. repeat f_equal; lia.
  - destruct (fetchPage_cost buildUrl server served params) as (Hn & _ & Hs & _).
    fold run in Hn, Hs. split; [exact Hn|exact Hs].
Qed.

(** The first request meets no answer, the second the first page. *)
Lemma fetchPage_contract_witness :
  Cfpb.fetchPage sampleUrl threeComplaints 0
    {| Cfpb.Params.frm := 0; Cfpb.Params.search_after := None |}
  = ([Request "?size=100"; Sleep (Some 2000); Request "?size=100"], 2%nat,
     Fulfilled
       (Some {| Cfpb.Response.hits :=
                  Some {| Cfpb.Hits.total := Cfpb.TotalObject (Some 3);
                          Cfpb.Hits.hits :=
                            Some [complaint "c9" "1700000000900";
                                  complaint "c8" "1700000000800"] |} |})).
Proof.
  destruct (fetchPage_contract sampleUrl threeComplaints 0
              {| Cfpb.Params.frm := 0; Cfpb.Params.search_after := None |})
    as (Hfirst & _).
  apply (Hfirst 1%nat).
  - lia.
  - intros j Hj. assert (j = 0%nat) as -> by lia.
    exists (Error "fetch failed"). reflexivity.
  - reflexivity.
Defined.

(** ** The complaints fetcher: the cursor *)

Lemma Array_last_app {A} (l1 l2 : list A) :
  l2 <> [] -> Array_last (l1 ++ l2)%list = Array_last l2.
Proof.
  intros Hne. unfold Array_last. rewrite rev_app_distr.
  destruct (rev l2) as [|x r] eqn:E; [|reflexivity].
  exfalso. apply Hne. apply (f_equal (@rev A)) in E.
  now rewrite rev_involutive in E.
Qed.

Lemma extractSearchAfter_app l1 l2 :
  l2 <> [] -> Cfpb.extractSearchAfter (l1 ++ l2)%list = Cfpb.extractSearchAfter l2.
Proof. intros H. unfold Cfpb.extractSearchAfter. now rewrite Array_last_app. Qed.

Lemma append_nonempty (s t : string) : s ++ "_" ++ t <> "".
Proof. destruct s; discriminate. Qed.

Lemma truthy_extractSearchAfter l :
  Cfpb.truthy_string (Cfpb.extractSearchAfter l) = Cfpb.extractSearchAfter l.
Proof.
  unfold Cfpb.extractSearchAfter.
  destruct (Array_last l) as [h|]; [|reflexivity].
  destruct (Cfpb.sort h) as [[|a [|b s]]|]; try reflexivity.
  unfold Cfpb.truthy_string.
  destruct (String.eqb_spec (a ++ "_" ++ b) ""); [|reflexivity].
  now apply append_nonempty in e.
Qed.

(** X19. The cursor is read from the last hit alone; it is null exactly when
    there is no hit or the last one has no [sort] of two entries, and it is
    never the empty string, so the test [if (searchAfter)] only leaves out
    null. *)
Theorem extractSearchAfter_last_hit (hits : list Cfpb.hit) (lastHit : Cfpb.hit) :
  Cfpb.extractSearchAfter (hits ++ [lastHit])%list = Cfpb.extractSearchAfter [lastHit] /\
  (Cfpb.extractSearchAfter (hits ++ [lastHit])%list = None <->
   forall first second rest, Cfpb.sort lastHit <> Some (first :: second :: rest)) /\
  Cfpb.extractSearchAfter [] = None /\
  Cfpb.truthy_string (Cfpb.extractSearchAfter (hits ++ [lastHit])%list)
    = Cfpb.extractSearchAfter (hits ++ [lastHit])%list.
Proof.
  split; [apply extractSearchAfter_app; discriminate|].
  split; [|split; [reflexivity|apply truthy_extractSearchAfter]].
  unfold Cfpb.extractSearchAfter. rewrite Array_last_snoc.
  destruct (Cfpb.sort lastHit) as [[|a [|b s]]|]; split; try discriminate; auto.
  intros H. exfalso. apply (H a b s). reflexivity.
Qed.

(** ** The complaints fetcher: the pagination *)

Lemma request_fulfilled a data :
  Cfpb.request a = Fulfilled data ->
  exists status statusText, a = Cfpb.Answered true status statusText (Some data).
Proof.
  destruct a as [m|ok status statusText [d|]]; simpl; try discriminate.
  - destruct ok; simpl; [|discriminate]. intros [= ->]. eauto.
  - destruct ok; discriminate.
Qed.

Lemma fetchPage_body buildUrl server served params data :
  snd (Cfpb.fetchPage buildUrl server served params) = Fulfilled data ->
  exists k status statusText,
    server k (buildUrl params) = Cfpb.Answered true status statusText (Some data).
Proof.
  rewrite fetchPage_cases.
  destruct (Cfpb.request (server served (buildUrl params))) as [d0|e0] eqn:E0.
  { cbn. intros [= ->]. apply request_fulfilled in E0.
    destruct E0 as (s & t & E0). eauto. }
  destruct (Cfpb.request (server (S served) (buildUrl params))) as [d1|e1] eqn:E1.
  { cbn. intros [= ->]. apply request_fulfilled in E1.
    destruct E1 as (s & t & E1). eauto. }
  destruct (Cfpb.request (server (S (S served)) (buildUrl params))) as [d2|e2] eqn:E2.
  { cbn. intros [= ->]. apply request_fulfilled in E2.
    destruct E2 as (s & t & E2). eauto. }
  discriminate.
Qed.

Lemma requestsMade_step tr1 tr2 d :
  requestsMade (tr1 ++ Sleep d :: tr2)%list = (requestsMade tr1 + requestsMade tr2)%nat.
Proof. now rewrite requestsMade_app. Qed.

Section PaginationFacts.
Variable buildUrl : Cfpb.Params.t -> string.
Variable server : nat -> string -> Cfpb.answer.

Lemma paginate_terminates (n : Z) :
  totalsUpTo n server ->
  forall fuel served allHits frm searchAfter totalExpected,
    (totalExpected = None \/
     exists m, totalExpected = Some (Cfpb.Expected m) /\ m <= n) ->
    (Z.to_nat (n - Z.of_nat (List.length allHits)) < fuel)%nat ->
    exists tr r,
      Cfpb.paginate buildUrl server fuel served allHits frm searchAfter totalExpected
        = Some (tr, r) /\
      (requestsMade tr
       <= 3 * Nat.max 1 (Z.to_nat (n - Z.of_nat (List.length allHits))))%nat.
Proof.
  intros Htot.
  induction fuel as [|fuel IH]; intros served allHits frm sa te Hte Hfuel; [lia|].
  cbn [Cfpb.paginate].
  set (params := {| Cfpb.Params.frm := frm;
                    Cfpb.Params.search_after := Cfpb.truthy_string sa |}).
  pose proof (fetchPage_cost buildUrl server served params) as (Hreq & _).
  pose proof (fetchPage_body buildUrl server served params) as Hbody.
  destruct (Cfpb.fetchPage buildUrl server served params) as [[tr served'] page].
  cbn [fst snd] in Hreq, Hbody.
  destruct page as [[response|]|e]; [|eexists _, _; split; [reflexivity|lia]..].
  destruct (Hbody _ eq_refl) as (k & status & statusText & Hk).
  destruct (Htot _ _ _ _ _ _ Hk) as (m0 & Hm0 & Hle0).
  assert (Hexp : exists m,
             match te with
             | Some e => e
             | None => Cfpb.totalOf (Cfpb.Response.hits response)
             end = Cfpb.Expected m /\ m <= n).
  { destruct Hte as [->|(m & -> & Hm)]; eauto. }
  destruct Hexp as (m & -> & Hm).
  destruct (Nat.eqb_spec (List.length (Cfpb.hitsOf response)) 0) as [E|Hne].
  { eexists _, _. split; [reflexivity|lia]. }
  unfold Cfpb.reached.
  destruct (Z.leb_spec m (Z.of_nat (List.length (allHits ++ Cfpb.hitsOf response)%list)))
    as [Hreached|Hmore].
  { eexists _, _. split; [reflexivity|lia]. }
  rewrite length_app in Hmore.
  destruct (IH served' (allHits ++ Cfpb.hitsOf response)%list
              (frm + List.length (Cfpb.hitsOf response))%nat
              (Cfpb.extractSearchAfter (Cfpb.hitsOf response))
              (Some (Cfpb.Expected m)))
    as (tr' & r & -> & Hreq').
  - right. eauto.
  - rewrite length_app. lia.
  - eexists _, _. split; [reflexivity|].
    rewrite requestsMade_step. rewrite length_app in Hreq'. lia.
Qed.

Lemma paginate_endless :
  (forall served url, openEnded (server served url)) ->
  forall fuel served allHits frm searchAfter totalExpected,
    (totalExpected = None \/ totalExpected = Some Cfpb.NotComparable) ->
    Cfpb.paginate buildUrl server fuel served allHits frm searchAfter totalExpected
      = None.
Proof.
  intros Hopen.
  induction fuel as [|fuel IH]; intros served allHits frm sa te Hte; [reflexivity|].
  cbn [Cfpb.paginate]. rewrite fetchPage_cases.
  destruct (Hopen served
              (buildUrl {| Cfpb.Params.frm := frm;
                           Cfpb.Params.search_after := Cfpb.truthy_string sa |}))
    as (status & statusText & value & first & rest & -> & Hvalue).
  cbn [Cfpb.request negb Cfpb.hitsOf Cfpb.Response.hits Cfpb.Hits.hits List.length
       Nat.eqb Cfpb.totalOf Cfpb.Hits.total].
  assert (E : match te with
              | Some e => e
              | None => match value with
                        | Some value0 =>
                            if value0 =? 0 then Cfpb.NotComparable
                            else Cfpb.Expected value0
                        | None => Cfpb.NotComparable
                        end
              end = Cfpb.NotComparable).
  { destruct Hte as [->| ->]; [|reflexivity].
    destruct Hvalue as [->| ->]; reflexivity. }
  rewrite E. cbn [Cfpb.reached]. rewrite IH; [reflexivity|now right].
Qed.

Lemma paginate_cursor :
  forall fuel served allHits totalExpected tr r,
    Cfpb.paginate buildUrl server fuel served allHits (List.length allHits)
      (Cfpb.extractSearchAfter allHits) totalExpected = Some (tr, Fulfilled r) ->
    Cfpb.Collected.total r = List.length (Cfpb.Collected.hits r) /\
    (exists post, Cfpb.Collected.hits r = (allHits ++ post)%list) /\
    forall url,
      In (Request url) tr ->
      exists pre post,
        Cfpb.Collected.hits r = (pre ++ post)%list /\
        url = buildUrl {| Cfpb.Params.frm := List.length pre;
                          Cfpb.Params.search_after := Cfpb.extractSearchAfter pre |}.
Proof.
  induction fuel as [|fuel IH]; intros served allHits te tr r; [discriminate|].
  cbn [Cfpb.paginate]. rewrite truthy_extractSearchAfter.
  set (params := {| Cfpb.Params.frm := List.length allHits;
                    Cfpb.Params.search_after := Cfpb.extractSearchAfter allHits |}).
  pose proof (fetchPage_cost buildUrl server served params) as (_ & _ & _ & Hurl).
  destruct (Cfpb.fetchPage buildUrl server served params) as [[tr0 served'] page].
  cbn [fst snd] in Hurl.
  destruct page as [[response|]|e]; try discriminate.
  set (te' := match te with
              | Some e => e
              | None => Cfpb.totalOf (Cfpb.Response.hits response)
              end).
  destruct (Nat.eqb_spec (List.length (Cfpb.hitsOf response)) 0) as [E|Hne].
  { intros [= <- <-]. cbn. split; [reflexivity|]. split.
    - exists []. now rewrite app_nil_r.
    - intros url Hin. exists allHits, []. rewrite app_nil_r.
      split; [reflexivity|]. now apply Hurl. }
  assert (Hhits : Cfpb.hitsOf response <> []).
  { intros E. rewrite E in Hne. now apply Hne. }
  destruct (Cfpb.reached _ te').
  { intros [= <- <-]. cbn. split; [reflexivity|]. split; [eauto|].
    intros url Hin. exists allHits, (Cfpb.hitsOf response).
    split; [reflexivity|]. now apply Hurl. }
  rewrite <- length_app.
  rewrite <- (extractSearchAfter_app allHits (Cfpb.hitsOf response) Hhits).
  destruct (Cfpb.paginate buildUrl server fuel served'
              (allHits ++ Cfpb.hitsOf response)%list _ _ (Some te'))
    as [[tr' r']|] eqn:Erec; [|discriminate].
  intros [= <- ->].
  destruct (IH _ _ _ _ _ Erec) as (Htotal & (post & Hpost) & Hreqs).
  split; [exact Htotal|]. split.
  - exists (Cfpb.hitsOf response ++ post)%list. now rewrite app_assoc.
  - intros url Hin. apply in_app_or in Hin. destruct Hin as [Hin|[[=]|Hin]].
    + exists allHits, (Cfpb.hitsOf response ++ post)%list.
      split; [now rewrite app_assoc|]. now apply Hurl.
    + now apply Hreqs.
Qed.
End PaginationFacts.

Lemma threeComplaints_totals : totalsUpTo 3 threeComplaints.
Proof.
  intros served url ok status statusText response H.
  exists 3. split; [|lia].
  destruct served as [|[|[|served]]]; [discriminate| | |];
    injection H as _ _ _ <-; reflexivity.
Qed.

(** X20. When every page reports its total as a number, at most [n], the
    pagination ends, whatever else the server answers: within [n] pages
    (one page when [n] is not positive) and three requests per page. *)
Theorem pagination_terminates (buildUrl : Cfpb.Params.t -> string)
    (server : nat -> string -> Cfpb.answer) (n : Z) (fuel : nat) :
  totalsUpTo n server ->
  (Z.to_nat n < fuel)%nat ->
  exists tr r,
    Cfpb.fetchAllComplaints buildUrl server fuel = Some (tr, r) /\
    (requestsMade tr <= 3 * Nat.max 1 (Z.to_nat n))%nat.
Proof.
  intros Htot Hfuel. unfold Cfpb.fetchAllComplaints.
  destruct (paginate_terminates buildUrl server n Htot fuel 0 [] 0 None None)
    as (tr & r & E & Hreq).
  - now left.
  - cbn [List.length]. rewrite Z.sub_0_r. exact Hfuel.
  - exists tr, r. split; [exact E|].
    cbn [List.length] in Hreq. rewrite Z.sub_0_r in Hreq. exact Hreq.
Qed.

(** Three complaints in pages of two. *)
Lemma pagination_terminates_witness :
  exists tr r,
    Cfpb.fetchAllComplaints sampleUrl threeComplaints 4 = Some (tr, r) /\
    (requestsMade tr <= 9)%nat.
Proof.
  apply (pagination_terminates sampleUrl threeComplaints 3 4 threeComplaints_totals).
  vm_compute. lia.
Defined.

(** X21. When every page has hits and a total that is an object without a
    [value] other than 0, the stop test never holds and the pagination does
    not end. *)
Theorem pagination_endless (buildUrl : Cfpb.Params.t -> string)
    (server : nat -> string -> Cfpb.answer) :
  (forall served url, openEnded (server served url)) ->
  forall fuel, Cfpb.fetchAllComplaints buildUrl server fuel = None.
Proof.
  intros Hopen fuel. unfold Cfpb.fetchAllComplaints.
  apply paginate_endless; [exact Hopen|now left].
Qed.

Lemma endless_openEnded served url : openEnded (endless served url).
Proof.
  exists 200, "OK", None, (complaint "c1" "1700000000100"), []. split; [reflexivity|].
  now left.
Qed.

(** A thousand pages are not enough. *)
Lemma pagination_endless_witness :
  Cfpb.fetchAllComplaints sampleUrl endless 1000 = None.
Proof.
  exact (pagination_endless sampleUrl endless endless_openEnded 1000).
Defined.

(** X22. In a run that returns, [total] is the number of hits collected, and
    every request asked for what follows a part of them already collected:
    [frm] is the number of these and [search_after] the cursor of the last
    one; the output declares the number of hits it holds. *)
Theorem pagination_cursor (buildUrl : Cfpb.Params.t -> string)
    (server : nat -> string -> Cfpb.answer) (fuel : nat) (tr : trace)
    (r : Cfpb.Collected.t) :
  Cfpb.fetchAllComplaints buildUrl server fuel = Some (tr, Fulfilled r) ->
  Cfpb.Collected.total r = List.length (Cfpb.Collected.hits r) /\
  (forall url,
      In (Request url) tr ->
      exists pre post,
        Cfpb.Collected.hits r = (pre ++ post)%list /\
        url = buildUrl {| Cfpb.Params.frm := List.length pre;
                          Cfpb.Params.search_after := Cfpb.extractSearchAfter pre |}) /\
  Cfpb.Response.hits (Cfpb.formatOutput r) =
    Some {| Cfpb.Hits.total :=
              Cfpb.TotalObject (Some (Z.of_nat (List.length (Cfpb.Collected.hits r))));
            Cfpb.Hits.hits := Some (Cfpb.Collected.hits r) |}.
Proof.
  unfold Cfpb.fetchAllComplaints. intros H.
  destruct (paginate_cursor buildUrl server fuel 0 [] None tr r H)
    as (Htotal & _ & Hreqs).
  split; [exact Htotal|]. split; [exact Hreqs|].
  unfold Cfpb.formatOutput. now rewrite Htotal.
Qed.

(** Three complaints in pages of two: the second page is asked for with
    [frm = 2] and the cursor of the second complaint. *)
Lemma pagination_cursor_witness :
  let tr := [ Request "?size=100"; Sleep (Some 2000); Request "?size=100"; Sleep (Some 500);
              Request "?size=100&frm=2&search_after=1700000000800_c8" ] in
  let hits := [ complaint "c9" "1700000000900"; complaint "c8" "1700000000800";
                complaint "c7" "1700000000700" ] in
  Cfpb.fetchAllComplaints sampleUrl threeComplaints 4
    = Some (tr, Fulfilled {| Cfpb.Collected.total := 3; Cfpb.Collected.hits := hits |}) /\
  exists pre post,
    hits = (pre ++ post)%list /\
    "?size=100&frm=2&search_after=1700000000800_c8" =
      sampleUrl {| Cfpb.Params.frm := List.length pre;
                   Cfpb.Params.search_after := Cfpb.extractSearchAfter pre |}.
Proof.
  cbv zeta. split; [vm_compute; reflexivity|].
  destruct (pagination_cursor sampleUrl threeComplaints 4
              [ Request "?size=100"; Sleep (Some 2000); Request "?size=100"; Sleep (Some 500);
                Request "?size=100&frm=2&search_after=1700000000800_c8" ]
              {| Cfpb.Collected.total := 3;
                 Cfpb.Collected.hits :=
                   [ complaint "c9" "1700000000900"; complaint "c8" "1700000000800";
                     complaint "c7" "1700000000700" ] |})
    as (_ & Hreqs & _).
  - vm_compute. reflexivity.
  - apply (Hreqs "?size=100&frm=2&search_after=1700000000800_c8").
    simpl. auto 6.
Defined.
